(** * BlenderDataVis: the bar-chart operator and the chart components

    A shallow embedding of
    - [data_vis/operators/bar_chart.py]  ([OBJECT_OT_BarChart.execute],
      [init_range], [data_type_as_enum]),
    - [data_vis/geonodes/components.py]  ([remove_duplicate_suffix],
      [is_chart], [is_chart_root], [mark_as_chart], [get_axis_on_chart],
      [get_compatible_axis], [DV_AddAxis.invoke], [DV_AddAxis.draw],
      [DV_AddAxis._setup_categorical_axis], [DV_AxisPanel.draw],
      [DV_DataLabelsPanel.draw]),
    - [data_vis/geonodes/__init__.py]  ([register], [unregister]),
    the properties the specification states about them, and further
    properties read off the code.

    Conventions.  Python floats and ints are idealised as exact rationals
    ([Qc], canonical fractions, so that [=] is numeric equality), with one
    exception: [x_range] and [y_range] are 32-bit float properties, and what
    such a property keeps of a computed range is the parameter [float32]
    (the integers of lines 83-84 are kept as they are).  A Python
    call either returns or raises: [result].  The operator mutates itself
    and the Blender scene: both live in the state [St] threaded by the
    monad [M]; an exception leaves the state as it was when it was raised. *)

From Stdlib Require Import QArith Qcanon Ascii.
From stdpp Require Import base numbers list strings option gmap.

Local Open Scope Qc_scope.

(** ** Python values and exceptions *)

Inductive exn :=
  | IndexError
  | TypeError
  | ValueError
  | ZeroDivisionError
  | Exception_ (msg : string).

Inductive result (A : Type) :=
  | Ok (a : A)
  | Raise (e : exn).
Arguments Ok {A} a.
Arguments Raise {A} e.

Global Instance exn_eq_dec : EqDecision exn.
Proof. solve_decision. Defined.
Global Instance result_eq_dec `{EqDecision A} : EqDecision (result A).
Proof. solve_decision. Defined.

Global Instance result_ret : MRet result := λ A a, Ok a.
Global Instance result_bind : MBind result := λ A B f r,
  match r with
  | Ok a => f a
  | Raise e => Raise e
  end.

(** A cell of the data table: a number or a string (the category). *)
Inductive Value :=
  | VNum (q : Qc)
  | VStr (s : string).

Global Instance Value_eq_dec : EqDecision Value.
Proof. solve_decision. Defined.

Abbreviation Entry := (list Value).

(** [l[i]] for a non-negative index. *)
Definition getitem {A} (l : list A) (i : nat) : result A :=
  match l !! i with
  | Some x => Ok x
  | None => Raise IndexError
  end.

(** [a < b] and [a > b]: numbers by value, strings by code, a number against
    a string is a [TypeError]. *)
Definition py_lt (a b : Value) : result bool :=
  match a, b with
  | VNum x, VNum y => Ok (bool_decide (x < y))
  | VStr s, VStr t => Ok (String.ltb s t)
  | _, _ => Raise TypeError
  end.

Definition py_gt (a b : Value) : result bool := py_lt b a.

(** [min(l, key=key)] and [max(l, key=key)]: the first item is the candidate;
    a later item replaces it when its key is strictly smaller (larger). *)
Section MinMax.
Context {A : Type} (better : Value → Value → result bool) (key : A → result Value).

Fixpoint min_max_loop (best : A) (best_key : Value) (l : list A) : result A :=
  match l with
  | [] => Ok best
  | item :: l' =>
      val ← key item;
      c ← better val best_key;
      if (c : bool) then min_max_loop item val l'
      else min_max_loop best best_key l'
  end.

Definition min_max (l : list A) : result A :=
  match l with
  | [] => Raise ValueError
  | item :: l' => val ← key item; min_max_loop item val l'
  end.
End MinMax.

(** A cell used as a number: arithmetic on a string raises. *)
Definition as_number (v : Value) : result Qc :=
  match v with
  | VNum q => Ok q
  | VStr _ => Raise TypeError
  end.

(** The column [c] of the table as numbers. *)
Fixpoint column (c : nat) (data : list Entry) : result (list Qc) :=
  match data with
  | [] => Ok []
  | row :: data' =>
      cell ← getitem row c;
      v ← as_number cell;
      col ← column c data';
      mret (v :: col)
  end.

Definition py_min {A} := @min_max A py_lt.
Definition py_max {A} := @min_max A py_gt.

(** ** The Blender side: properties, objects, the operator *)

Definition Vec3 : Type := Qc * Qc * Qc.
Definition Range : Type := Qc * Qc.

(** The identifiers of the two enum properties of the operator. *)
Inductive Dimensions := Dim3 | Dim2.           (* '3' | '2' *)
Inductive ChartType := Type0 | Type1.          (* '0' Numerical | '1' Categorical *)
Inductive DataType := Numerical | Categorical. (* data_manager.DataType *)

Definition int_of_dimensions (d : Dimensions) : Z :=
  match d with Dim3 => 3 | Dim2 => 2 end.

Record DV_AxisPropertyGroup := {
  auto_ranges : bool;
  x_range : Range;
  y_range : Range;
  x_step : Qc;
  y_step : Qc;
  z_step : Qc;
  padding : Qc;
  auto_steps : bool;
}.

Record DV_ColorPropertyGroup := {
  color_shade : Vec3;
  color_type : string;
}.

Definition Material := N.

Record OBJECT_OT_BarChart := {
  dimensions : Dimensions;
  data_type : ChartType;
  bar_size : Qc * Qc;
  axis_settings : DV_AxisPropertyGroup;
  color_settings : DV_ColorPropertyGroup;
  data : list Entry;
  labels : list string;
  chart_origin : Vec3;
  container_object : option nat;
}.

Inductive ObjectType := EMPTY | MESH.

(** A scene object; [parent] is the index of another object of the scene. *)
Record Object := {
  type : ObjectType;
  scale : Vec3;
  location : Vec3;
  materials : list Material;
  active_material : option Material;
  parent : option nat;
}.

(** The arguments of one [AxisFactory.create] call. *)
Record AxisArgs := {
  ax_parent : option nat;
  ax_steps : Qc * Qc * Qc;
  ax_ranges : Range * Range * (Value * Value);
  ax_dim : Z;
  ax_tick_labels : list Value * list Value * list Value;
  ax_labels : list string;
  ax_padding : Qc;
  ax_auto_steps : bool;
  ax_offset : Qc;
}.

Inductive Status := FINISHED | CANCELLED.

Record St := {
  self : OBJECT_OT_BarChart;
  objects : list Object;
  axis_calls : list AxisArgs;
  reports : list (string * string);
}.

Global Instance Dimensions_eq_dec : EqDecision Dimensions.
Proof. solve_decision. Defined.
Global Instance ChartType_eq_dec : EqDecision ChartType.
Proof. solve_decision. Defined.
Global Instance DataType_eq_dec : EqDecision DataType.
Proof. solve_decision. Defined.
Global Instance DV_AxisPropertyGroup_eq_dec : EqDecision DV_AxisPropertyGroup.
Proof. solve_decision. Defined.
Global Instance DV_ColorPropertyGroup_eq_dec : EqDecision DV_ColorPropertyGroup.
Proof. solve_decision. Defined.
Global Instance OBJECT_OT_BarChart_eq_dec : EqDecision OBJECT_OT_BarChart.
Proof. solve_decision. Defined.
Global Instance ObjectType_eq_dec : EqDecision ObjectType.
Proof. solve_decision. Defined.
Global Instance Object_eq_dec : EqDecision Object.
Proof. solve_decision. Defined.
Global Instance AxisArgs_eq_dec : EqDecision AxisArgs.
Proof. solve_decision. Defined.
Global Instance Status_eq_dec : EqDecision Status.
Proof. solve_decision. Defined.
Global Instance St_eq_dec : EqDecision St.
Proof. solve_decision. Defined.

(** ** The monad of operator code: state and exceptions *)

Definition M (A : Type) : Type := St → result A * St.

Global Instance M_ret : MRet M := λ A a st, (Ok a, st).
Global Instance M_bind : MBind M := λ A B f m st,
  match m st with
  | (Ok a, st') => f a st'
  | (Raise e, st') => (Raise e, st')
  end.

Definition lift {A} (r : result A) : M A := λ st, (r, st).
Definition get_self : M OBJECT_OT_BarChart := λ st, (Ok (self st), st).
Definition modify_self (f : OBJECT_OT_BarChart → OBJECT_OT_BarChart) : M unit :=
  λ st, (Ok (), {| self := f (self st); objects := objects st;
                   axis_calls := axis_calls st; reports := reports st |}).
Definition modify_objects (f : list Object → list Object) : M unit :=
  λ st, (Ok (), {| self := self st; objects := f (objects st);
                   axis_calls := axis_calls st; reports := reports st |}).

(** [try: m except Exception as e: h e] *)
Definition try_except {A} (m : M A) (h : exn → M A) : M A := λ st,
  match m st with
  | (Ok a, st') => (Ok a, st')
  | (Raise e, st') => h e st'
  end.

(** [self.report({level}, msg)] *)
Definition report (level msg : string) : M unit :=
  λ st, (Ok (), {| self := self st; objects := objects st;
                   axis_calls := axis_calls st;
                   reports := reports st ++ [(level, msg)] |}).

(** [bpy.ops.mesh.primitive_cube_add()] followed by [context.active_object]:
    a new mesh object at the end of the scene, placed at the 3D cursor; its
    index is the handle. *)
Definition default_cube (cursor : Vec3) : Object :=
  {| type := MESH; scale := (1, 1, 1); location := cursor;
     materials := []; active_material := None; parent := None |}.

Definition primitive_cube_add (cursor : Vec3) : M nat := λ st,
  (Ok (length (objects st)),
   {| self := self st; objects := objects st ++ [default_cube cursor];
      axis_calls := axis_calls st; reports := reports st |}).

(** Attribute writes on a scene object. *)
Definition with_scale (v : Vec3) (o : Object) : Object :=
  {| type := type o; scale := v; location := location o;
     materials := materials o; active_material := active_material o;
     parent := parent o |}.
Definition with_location (v : Vec3) (o : Object) : Object :=
  {| type := type o; scale := scale o; location := v;
     materials := materials o; active_material := active_material o;
     parent := parent o |}.
Definition with_material_appended (m : Material) (o : Object) : Object :=
  {| type := type o; scale := scale o; location := location o;
     materials := materials o ++ [m]; active_material := active_material o;
     parent := parent o |}.
Definition with_active_material (m : Material) (o : Object) : Object :=
  {| type := type o; scale := scale o; location := location o;
     materials := materials o; active_material := Some m;
     parent := parent o |}.
Definition with_parent (p : option nat) (o : Object) : Object :=
  {| type := type o; scale := scale o; location := location o;
     materials := materials o; active_material := active_material o;
     parent := p |}.

Definition set_object (obj : nat) (f : Object → Object) : M unit :=
  modify_objects (alter f obj).

(** The scene keeps what each [AxisFactory.create] call was asked to build. *)
Definition record_axis_call (args : AxisArgs) : M unit :=
  λ st, (Ok (), {| self := self st; objects := objects st;
                   axis_calls := axis_calls st ++ [args];
                   reports := reports st |}).

(** The state with [objs] appended to the scene. *)
Definition add_objects (objs : list Object) (st : St) : St :=
  {| self := self st; objects := objects st ++ objs;
     axis_calls := axis_calls st; reports := reports st |}.

(** Property writes on the operator. *)
Definition with_x_range (r : Range) (a : DV_AxisPropertyGroup) : DV_AxisPropertyGroup :=
  {| auto_ranges := auto_ranges a; x_range := r; y_range := y_range a;
     x_step := x_step a; y_step := y_step a; z_step := z_step a;
     padding := padding a; auto_steps := auto_steps a |}.
Definition with_y_range (r : Range) (a : DV_AxisPropertyGroup) : DV_AxisPropertyGroup :=
  {| auto_ranges := auto_ranges a; x_range := x_range a; y_range := r;
     x_step := x_step a; y_step := y_step a; z_step := z_step a;
     padding := padding a; auto_steps := auto_steps a |}.
Definition with_axis_settings (f : DV_AxisPropertyGroup → DV_AxisPropertyGroup)
    (s : OBJECT_OT_BarChart) : OBJECT_OT_BarChart :=
  {| dimensions := dimensions s; data_type := data_type s; bar_size := bar_size s;
     axis_settings := f (axis_settings s); color_settings := color_settings s;
     data := data s; labels := labels s; chart_origin := chart_origin s;
     container_object := container_object s |}.
Definition with_dimensions (d : Dimensions) (s : OBJECT_OT_BarChart) : OBJECT_OT_BarChart :=
  {| dimensions := d; data_type := data_type s; bar_size := bar_size s;
     axis_settings := axis_settings s; color_settings := color_settings s;
     data := data s; labels := labels s; chart_origin := chart_origin s;
     container_object := container_object s |}.
Definition with_data (d : list Entry) (l : list string) (s : OBJECT_OT_BarChart)
    : OBJECT_OT_BarChart :=
  {| dimensions := dimensions s; data_type := data_type s; bar_size := bar_size s;
     axis_settings := axis_settings s; color_settings := color_settings s;
     data := d; labels := l; chart_origin := chart_origin s;
     container_object := container_object s |}.
Definition with_container_object (c : option nat) (s : OBJECT_OT_BarChart)
    : OBJECT_OT_BarChart :=
  {| dimensions := dimensions s; data_type := data_type s; bar_size := bar_size s;
     axis_settings := axis_settings s; color_settings := color_settings s;
     data := data s; labels := labels s; chart_origin := chart_origin s;
     container_object := c |}.

(** The state with another operator. *)
Definition with_self (s : OBJECT_OT_BarChart) (st : St) : St :=
  {| self := s; objects := objects st; axis_calls := axis_calls st;
     reports := reports st |}.

(** ** What [bar_chart.py] imports from modules not at hand

    [data_vis.utils.data_utils], [data_vis.general], [data_vis.colors] and
    [data_vis.operators.features.axis] are taken as parameters: pure
    functions of their arguments that return or raise.  Everything proved
    in [Section BarChart] holds whatever they compute.  With them come two
    things of the host that the operator reads and never writes: [float32],
    what the 32-bit float properties [x_range] and [y_range] of
    [DV_AxisPropertyGroup] keep of a value assigned to them, and
    [cursor_location], the 3D cursor, where a new primitive is placed. *)
Record Imports := {
  find_axis_range : list Entry → nat → result Range;
  find_data_range : list Entry → Range → option Range → result (Value * Value);
  normalize_value : Value → Value → Value → result Qc;
  in_axis_range_bounds_new : OBJECT_OT_BarChart → Entry → result bool;
  NodeShader : Vec3 → string → Qc → Qc → result Material;
  AxisFactory_create : AxisArgs → result unit;
  float32 : Qc → Qc;
  cursor_location : Vec3;
}.

(** The table held by the [DataManager] singleton when the operator runs. *)
Record DataManager := {
  parsed_data : list Entry;
  parsed_labels : list string;
}.

Definition half : Qc := Q2Qc (1 # 2).
Definition min_height : Qc := Q2Qc (1 # 10000).

(** Lines 123-124: [if z_norm >= 0.0 and z_norm <= 0.0001: z_norm = 0.0001]. *)
Definition raise_to_min_height (z_norm : Qc) : Qc :=
  if bool_decide (0 ≤ z_norm) && bool_decide (z_norm ≤ min_height)
  then min_height else z_norm.

Section BarChart.
Context (imp : Imports) (dm : DataManager).

(** Modelled from the spec: [init_data] of the absent base class
    [OBJECT_OT_GenericChart]: the table comes from the import collaborator
    and is read-only, so the call copies it into [self.data]. *)
Definition init_data : M unit :=
  modify_self (with_data (parsed_data dm) (parsed_labels dm)).

(** Modelled from the spec: [create_container] of the absent base class.
    Scene objects are left to the host; what [execute] relies on is kept:
    one new empty object at the chart origin, whose handle becomes
    [self.container_object] (line 135 parents every bar to it). *)
Definition create_container : M unit := λ st,
  (Ok (),
   {| self := with_container_object (Some (length (objects st))) (self st);
      objects := objects st ++
        [{| type := EMPTY; scale := (1, 1, 1); location := chart_origin (self st);
            materials := []; active_material := None; parent := None |}];
      axis_calls := axis_calls st; reports := reports st |}).

(** What [x_range] or [y_range] keeps of a range assigned to it. *)
Definition stored (r : Range) : Range := (float32 imp r.1, float32 imp r.2).

(** [init_range], lines 66-68. *)
Definition init_range (data : list Entry) : M unit :=
  xr ← lift (find_axis_range imp data 0);
  modify_self (with_axis_settings (with_x_range (stored xr)));;
  yr ← lift (find_axis_range imp data 1);
  modify_self (with_axis_settings (with_y_range (stored yr))).

(** [data_type_as_enum], lines 70-74. *)
Definition data_type_as_enum (s : OBJECT_OT_BarChart) : DataType :=
  match data_type s with
  | Type0 => Numerical
  | Type1 => Categorical
  end.

(** Lines 78-84 of [execute]. *)
Definition execute_ranges : M unit :=
  s ← get_self;
  match data_type_as_enum s with
  | Numerical =>
      if auto_ranges (axis_settings s) then init_range (data s) else mret ()
  | Categorical =>
      modify_self (with_dimensions Dim2);;
      modify_self (with_axis_settings (λ a, with_x_range (0, (x_range a).2) a));;
      s ← get_self;
      modify_self (with_axis_settings (λ a,
        with_x_range ((x_range a).1, Qc_of_Z (Z.of_nat (length (data s)) - 1)) a))
  end.

(** The condition of line 86:
    [self.dimensions == '3' and len(self.data[0]) != 3]. *)
Definition execute_dimension_mismatch : M bool :=
  s ← get_self;
  if decide (dimensions s = Dim3)
  then row ← lift (getitem (data s) 0); mret (negb (length row =? 3)%nat)
  else mret false.

(** Lines 91-99: the range of the value axis; [None] stands for the
    [return {'CANCELLED'}] of line 96. *)
Definition execute_data_range : M (option (Value * Value)) :=
  s ← get_self;
  match data_type_as_enum s with
  | Numerical =>
      try_except
        (r ← lift (find_data_range imp (data s) (x_range (axis_settings s))
                     (if decide (dimensions s = Dim3)
                      then Some (y_range (axis_settings s)) else None));
         mret (Some r))
        (λ e, report "ERROR" "Cannot find data in this range!";; mret None)
  | Categorical =>
      lo ← lift (py_min (λ val, getitem val 1) (data s));
      data_min ← lift (getitem lo 1);
      hi ← lift (py_max (λ val, getitem val 1) (data s));
      data_max ← lift (getitem hi 1);
      mret (Some (data_min, data_max))
  end.

(** One iteration of the loop of lines 109-135; the result is
    [tick_labels] after the iteration. *)
Definition execute_bar (shader : Material) (value_index : nat)
    (data_min data_max : Value) (i : nat) (entry : Entry)
    (tick_labels : list Value) : M (list Value) :=
  s ← get_self;
  inside ← lift (in_axis_range_bounds_new imp s entry);
  if negb inside then mret tick_labels
  else
    bar_obj ← primitive_cube_add (cursor_location imp);
    '(x_value, tick_labels) ←
      match data_type_as_enum s with
      | Numerical =>
          e0 ← lift (getitem entry 0); mret (e0, tick_labels)
      | Categorical =>
          e0 ← lift (getitem entry 0);
          mret (VNum (Qc_of_Z (Z.of_nat i)), tick_labels ++ [e0])
      end;
    x_norm ← lift (normalize_value imp x_value
                     (VNum (x_range (axis_settings s)).1)
                     (VNum (x_range (axis_settings s)).2));
    ev ← lift (getitem entry value_index);
    z_norm ← lift (normalize_value imp ev data_min data_max);
    let z_norm := raise_to_min_height z_norm in
    (if decide (dimensions s = Dim2) then
       set_object bar_obj
         (with_scale ((bar_size s).1, (bar_size s).2, z_norm * half));;
       set_object bar_obj (with_location (x_norm, 0, z_norm * half))
     else
       e1 ← lift (getitem entry 1);
       y_norm ← lift (normalize_value imp e1
                        (VNum (y_range (axis_settings s)).1)
                        (VNum (y_range (axis_settings s)).2));
       set_object bar_obj
         (with_scale ((bar_size s).1, (bar_size s).2, z_norm * half));;
       set_object bar_obj (with_location (x_norm, y_norm, z_norm * half)));;
    set_object bar_obj (with_material_appended shader);;
    set_object bar_obj (with_active_material shader);;
    set_object bar_obj (with_parent (container_object s));;
    mret tick_labels.

(** [for i, entry in enumerate(self.data)], from index [i] on. *)
Fixpoint execute_bars (shader : Material) (value_index : nat)
    (data_min data_max : Value) (i : nat) (entries : list Entry)
    (tick_labels : list Value) : M (list Value) :=
  match entries with
  | [] => mret tick_labels
  | entry :: entries' =>
      tick_labels ← execute_bar shader value_index data_min data_max
                      i entry tick_labels;
      execute_bars shader value_index data_min data_max (S i) entries' tick_labels
  end.

(** Lines 137-147: the arguments, and the call. *)
Definition axis_args (s : OBJECT_OT_BarChart) (data_min data_max : Value)
    (tick_labels : list Value) : AxisArgs :=
  {| ax_parent := container_object s;
     ax_steps := (x_step (axis_settings s), y_step (axis_settings s),
                  z_step (axis_settings s));
     ax_ranges := (x_range (axis_settings s), y_range (axis_settings s),
                   (data_min, data_max));
     ax_dim := int_of_dimensions (dimensions s);
     ax_tick_labels := (tick_labels, [], []);
     ax_labels := labels s;
     ax_padding := padding (axis_settings s);
     ax_auto_steps := auto_steps (axis_settings s);
     ax_offset := 0 |}.

Definition execute_axis (data_min data_max : Value) (tick_labels : list Value)
    : M unit :=
  s ← get_self;
  lift (AxisFactory_create imp (axis_args s data_min data_max tick_labels));;
  record_axis_call (axis_args s data_min data_max tick_labels).

(** Lines 104-107. *)
Definition value_index (s : OBJECT_OT_BarChart) : nat :=
  if decide (dimensions s = Dim2) then 1 else 2.

(** Lines 89-149 of [execute]: what follows the dimension check. *)
Definition execute_build : M Status :=
  let tick_labels := [] in
  create_container;;
  r ← execute_data_range;
  match r with
  | None => mret CANCELLED
  | Some (data_min, data_max) =>
      s ← get_self;
      shader ← lift (NodeShader imp (color_shade (color_settings s))
                       (color_type (color_settings s)) 2 (chart_origin s).2);
      tick_labels ← execute_bars shader (value_index s) data_min data_max
                      0 (data s) tick_labels;
      execute_axis data_min data_max tick_labels;;
      mret FINISHED
  end.

(** [OBJECT_OT_BarChart.execute], lines 76-149. *)
Definition execute : M Status :=
  init_data;;
  execute_ranges;;
  mismatch ← execute_dimension_mismatch;
  if (mismatch : bool) then
    report "ERROR" "Data are only 2D!";; mret CANCELLED
  else execute_build.

(** *** The loop without the monad

    What one iteration and the whole loop add to the scene, as functions of
    the operator [s] the loop runs with: the outcome and the objects
    appended.  [execute_bar_eq] and [execute_bars_eq] below prove that the
    monadic loop computes exactly this. *)
Definition bar_object (s : OBJECT_OT_BarChart) (shader : Material)
    (x_norm y_norm z_norm : Qc) : Object :=
  {| type := MESH;
     scale := ((bar_size s).1, (bar_size s).2, raise_to_min_height z_norm * half);
     location := (x_norm, y_norm, raise_to_min_height z_norm * half);
     materials := [shader];
     active_material := Some shader;
     parent := container_object s |}.

(** The values computed for a retained entry, lines 115-129:
    [(x_norm, y_norm, z_norm)] before the clamp, and [tick_labels]. *)
Definition bar_values (s : OBJECT_OT_BarChart) (value_index : nat)
    (data_min data_max : Value) (i : nat) (entry : Entry)
    (tick_labels : list Value) : result (Qc * Qc * Qc * list Value) :=
  '(x_value, tick_labels) ←
    match data_type_as_enum s with
    | Numerical => e0 ← getitem entry 0; mret (e0, tick_labels)
    | Categorical =>
        e0 ← getitem entry 0;
        mret (VNum (Qc_of_Z (Z.of_nat i)), tick_labels ++ [e0])
    end;
  x_norm ← normalize_value imp x_value
             (VNum (x_range (axis_settings s)).1)
             (VNum (x_range (axis_settings s)).2);
  ev ← getitem entry value_index;
  z_norm ← normalize_value imp ev data_min data_max;
  if decide (dimensions s = Dim2) then mret (x_norm, 0, z_norm, tick_labels)
  else
    e1 ← getitem entry 1;
    y_norm ← normalize_value imp e1
               (VNum (y_range (axis_settings s)).1)
               (VNum (y_range (axis_settings s)).2);
    mret (x_norm, y_norm, z_norm, tick_labels).

Definition bar_pure (s : OBJECT_OT_BarChart) (shader : Material)
    (value_index : nat) (data_min data_max : Value) (i : nat) (entry : Entry)
    (tick_labels : list Value) : result (list Value) * list Object :=
  match in_axis_range_bounds_new imp s entry with
  | Raise e => (Raise e, [])
  | Ok inside =>
      if negb inside then (Ok tick_labels, [])
      else
        match bar_values s value_index data_min data_max i entry tick_labels with
        | Raise e => (Raise e, [default_cube (cursor_location imp)])
        | Ok (x_norm, y_norm, z_norm, tick_labels) =>
            (Ok tick_labels, [bar_object s shader x_norm y_norm z_norm])
        end
  end.

Fixpoint bars_pure (s : OBJECT_OT_BarChart) (shader : Material)
    (value_index : nat) (data_min data_max : Value) (i : nat)
    (entries : list Entry) (tick_labels : list Value)
    : result (list Value) * list Object :=
  match entries with
  | [] => (Ok tick_labels, [])
  | entry :: entries' =>
      match bar_pure s shader value_index data_min data_max i entry tick_labels with
      | (Ok tick_labels, objs) =>
          let '(r, objs') :=
            bars_pure s shader value_index data_min data_max (S i) entries'
              tick_labels in
          (r, objs ++ objs')
      | (Raise e, objs) => (Raise e, objs)
      end
  end.

(** The bars of a loop that ran to its end, as a relation between the rows
    (from index [i] on) and the objects added: a row the bounds check
    rejects adds nothing, a retained row adds one bar. *)
Inductive placements (s : OBJECT_OT_BarChart) (shader : Material)
    (value_index : nat) (data_min data_max : Value)
    : nat → list Entry → list Value → list Object → list Value → Prop :=
  | placements_nil i tick_labels :
      placements s shader value_index data_min data_max i [] tick_labels
        [] tick_labels
  | placements_skip i entry entries tick_labels objs tick_labels' :
      in_axis_range_bounds_new imp s entry = Ok false →
      placements s shader value_index data_min data_max (S i) entries
        tick_labels objs tick_labels' →
      placements s shader value_index data_min data_max i (entry :: entries)
        tick_labels objs tick_labels'
  | placements_bar i entry entries tick_labels x y z labels1 objs tick_labels' :
      in_axis_range_bounds_new imp s entry = Ok true →
      bar_values s value_index data_min data_max i entry tick_labels
        = Ok (x, y, z, labels1) →
      placements s shader value_index data_min data_max (S i) entries
        labels1 objs tick_labels' →
      placements s shader value_index data_min data_max i (entry :: entries)
        tick_labels (bar_object s shader x y z :: objs) tick_labels'.

(** The operator after lines 77-84 when the data are categorical. *)
Definition categorical_operator (s : OBJECT_OT_BarChart) : OBJECT_OT_BarChart :=
  with_axis_settings
    (with_x_range (0, Qc_of_Z (Z.of_nat (length (parsed_data dm)) - 1)))
    (with_dimensions Dim2 (with_data (parsed_data dm) (parsed_labels dm) s)).

(** Where the value range of lines 91-99 comes from. *)
Definition value_range_of (s : OBJECT_OT_BarChart) (data_min data_max : Value)
    : Prop :=
  match data_type_as_enum s with
  | Numerical =>
      find_data_range imp (data s) (x_range (axis_settings s))
        (if decide (dimensions s = Dim3) then Some (y_range (axis_settings s))
         else None) = Ok (data_min, data_max)
  | Categorical =>
      ∃ lo hi,
        py_min (λ val, getitem val 1) (data s) = Ok lo ∧
        getitem lo 1 = Ok data_min ∧
        py_max (λ val, getitem val 1) (data s) = Ok hi ∧
        getitem hi 1 = Ok data_max
  end.






(** The rows the bounds check of line 110 lets through. *)
Definition retained (s : OBJECT_OT_BarChart) (entries : list Entry) : list Entry :=
  filter (λ entry, in_axis_range_bounds_new imp s entry = Ok true) entries.

(** What a bar says about the row it was made from. *)
Definition bar_of_row (s : OBJECT_OT_BarChart) (shader : Material)
    (value_index : nat) (data_min data_max : Value) (i : nat) (entry : Entry)
    (bar : Object) : Prop :=
  ∃ tick_labels x y z labels1,
    in_axis_range_bounds_new imp s entry = Ok true ∧
    bar_values s value_index data_min data_max i entry tick_labels
      = Ok (x, y, z, labels1) ∧
    bar = bar_object s shader x y z.
End BarChart.

(** ** The absent helpers, modelled from the specification

    Neither [data_vis/utils/data_utils.py] nor [data_vis/general.py] is
    among the verified sources.  Where a property depends on what these helpers
    compute (and not only on how [execute] uses them), they are modelled
    from the specification, §4.2 (RangeResolver) and §4.3 (Normalizer). *)
Module SpecModel.

Definition EmptyDataError : exn := Exception_ "EmptyDataError".

(** Modelled from the spec: [normalize_value] of [data_utils].  §4.3: the
    linear map [(value-min)/(max-min)], with no guard of its own against a
    zero span (that is the resolver's duty): dividing by zero raises. *)
Definition normalize_value (value minimum maximum : Value) : result Qc :=
  v ← as_number value;
  lo ← as_number minimum;
  hi ← as_number maximum;
  if decide (hi - lo = 0) then Raise ZeroDivisionError
  else Ok ((v - lo) / (hi - lo)).

Definition Qc_min (a b : Qc) : Qc := if bool_decide (a ≤ b) then a else b.
Definition Qc_max (a b : Qc) : Qc := if bool_decide (a ≤ b) then b else a.

(** §4.2: the running minimum and maximum of a column, in one pass. *)
Fixpoint running_range (lo hi : Qc) (col : list Qc) : Range :=
  match col with
  | [] => (lo, hi)
  | v :: col' => running_range (Qc_min lo v) (Qc_max hi v) col'
  end.

(** §4.2: no row is [EmptyDataError]; a range with [min = max] is widened
    by half a unit on each side.  No padding (the default policy). *)
Definition resolve (col : list Qc) : result Range :=
  match col with
  | [] => Raise EmptyDataError
  | v :: col' =>
      let '(lo, hi) := running_range v v col' in
      if decide (lo = hi) then Ok (lo - half, hi + half) else Ok (lo, hi)
  end.

(** Modelled from the spec: [find_axis_range] of [data_utils]:
    [resolve(table, axis_index)] of §4.2 without an explicit range. *)
Definition find_axis_range (data : list Entry) (axis : nat) : result Range :=
  col ← column axis data;
  resolve col.

Definition in_range (r : Range) (v : Qc) : bool :=
  bool_decide (r.1 ≤ v) && bool_decide (v ≤ r.2).

(** The bounds filter of §4.2 on one row: X inside [x_range] and, when a
    Y range is in use, Y inside it. *)
Definition row_in_bounds (range_x : Range) (range_y : option Range)
    (entry : Entry) : result bool :=
  e0 ← getitem entry 0;
  x ← as_number e0;
  if negb (in_range range_x x) then Ok false
  else
    match range_y with
    | None => Ok true
    | Some ry => e1 ← getitem entry 1; y ← as_number e1; Ok (in_range ry y)
    end.

(** Modelled from the spec: [in_axis_range_bounds_new] of the absent base
    class.  §4.2 and §4.5: a numerical row is retained when it lies inside
    the active ranges (Y only in 3D); the raw X of a categorical row is its
    index, inside [0, n-1] by construction, so it is always retained. *)
Definition in_axis_range_bounds_new (s : OBJECT_OT_BarChart) (entry : Entry)
    : result bool :=
  match data_type s with
  | Type1 => Ok true
  | Type0 =>
      row_in_bounds (x_range (axis_settings s))
        (if decide (dimensions s = Dim3) then Some (y_range (axis_settings s))
         else None) entry
  end.

(** Modelled from the spec: [find_data_range] of [data_utils]: the range of
    the value axis (§4.5 step 2), resolved as in §4.2 without an explicit
    range: the value column (the last one in use) is scanned across all
    rows, it fails with [EmptyDataError] only for a table without rows, and
    a range with [min = max] is widened.  The X and Y ranges it is given
    decide nothing but which column holds the values. *)
Definition find_data_range (data : list Entry) (range_x : Range)
    (range_y : option Range) : result (Value * Value) :=
  col ← column (match range_y with Some _ => 2 | None => 1 end)%nat data;
  '(lo, hi) ← resolve col;
  mret (VNum lo, VNum hi).

(** For the statements: a row of numbers, and whether its values lie inside
    the ranges the operator has in use (X, and Y in 3D). *)
Definition numeric_row (qs : list Qc) : Entry := VNum <$> qs.

Definition inside (s : OBJECT_OT_BarChart) (qs : list Qc) : bool :=
  match qs with
  | [] => false
  | x :: qs' =>
      in_range (x_range (axis_settings s)) x &&
      match dimensions s with
      | Dim2 => true
      | Dim3 =>
          match qs' with
          | y :: _ => in_range (y_range (axis_settings s)) y
          | [] => false
          end
      end
  end.

(** A row of a categorical table: the category and its value. *)
Definition category_row (c : Value * Qc) : Entry := [c.1; VNum c.2].

(** The number of columns a chart of these dimensions reads. *)
Definition arity (s : OBJECT_OT_BarChart) : nat :=
  match dimensions s with Dim2 => 2 | Dim3 => 3 end.

(** The Y range the operator has in use, if any. *)
Definition range_y_in_use (s : OBJECT_OT_BarChart) : option Range :=
  if decide (dimensions s = Dim3) then Some (y_range (axis_settings s)) else None.

(** The shader and the axis factory build scene data only: they succeed.
    The ranges of the examples are numbers a 32-bit float holds exactly,
    and their 3D cursor sits at (1, 2, 3). *)
Definition imports : Imports :=
  Build_Imports find_axis_range find_data_range normalize_value
    in_axis_range_bounds_new (λ _ _ _ _, Ok 0%N) (λ _, Ok ())
    (λ q, q) (Qc_of_Z 1, Qc_of_Z 2, Qc_of_Z 3).
End SpecModel.

(** C2 as the specification states it, for a numerical chart over explicit
    ranges and the rows of its table: the run raises and reports nothing,
    and the rows inside the ranges, and only they, get a placement each. *)
Definition bounds_filter_as_stated (dm : DataManager) (st : St)
    (rows : list (list Qc)) : Prop :=
  ∃ st' container bars,
    execute SpecModel.imports dm st = (Ok FINISHED, st') ∧
    reports st' = reports st ∧
    objects st' = objects st ++ container :: bars ∧
    length bars = length (filter (λ qs, SpecModel.inside (self st) qs) rows).

(** ** [geonodes/components.py] *)
Module Components.

(** *** [DUPLICATE_SUFFIX_RE] and [remove_duplicate_suffix]

    A Python [str] is a sequence of code points.  The fragment of [re] the
    pattern needs: a literal, [\d], greedy [+], sequence, a group and [$],
    matched by backtracking; [k] is what has to match after [r], and the
    answer is the input left after the whole match. *)
Definition str := list N.

Definition str_of_string (s : string) : str :=
  N_of_ascii <$> String.list_ascii_of_string s.

Inductive regex :=
  | Lit (c : N)
  | Digit
  | Plus (r : regex)
  | Seq (r1 r2 : regex)
  | Group (r : regex)
  | Dollar.

Section Regex.
(** [\d] on a [str] pattern is every decimal digit of Unicode (category
    Nd): the ASCII digits and, above ASCII, those of the table. *)
Context (unicode_Nd : N → bool).

Definition is_digit (c : N) : bool :=
  if (c <? 128)%N then (48 <=? c)%N && (c <=? 57)%N else unicode_Nd c.

(** [$] without [re.MULTILINE]: at the end of the string, or just before
    a newline that is the last character. *)
Definition at_dollar (s : str) : bool :=
  match s with
  | [] => true
  | [c] => (c =? 10)%N
  | _ => false
  end.

Fixpoint rmatch (r : regex) (s : str) (k : str → option str) {struct r}
    : option str :=
  match r with
  | Lit c =>
      match s with
      | c' :: s' => if (c =? c')%N then k s' else None
      | [] => None
      end
  | Digit =>
      match s with
      | c' :: s' => if is_digit c' then k s' else None
      | [] => None
      end
  | Plus r' =>
      (fix iterate (n : nat) (s : str) {struct n} : option str :=
         rmatch r' s (λ s',
           match n with
           | O => k s'
           | S n' =>
               match iterate n' s' with
               | Some rest => Some rest
               | None => k s'
               end
           end)) (length s) s
  | Seq r1 r2 => rmatch r1 s (λ s', rmatch r2 s' k)
  | Group r' => rmatch r' s k
  | Dollar => if at_dollar s then k s else None
  end.

(** [pattern.sub("", s)]: scanning from the left, a match that starts
    at the current position is dropped ([skip] counts what is left of it)
    and the scan goes on after it; otherwise the character is kept. *)
Fixpoint sub_empty (r : regex) (skip : nat) (s : str) : str :=
  match s with
  | [] => []
  | c :: s' =>
      match skip with
      | S skip' => sub_empty r skip' s'
      | O =>
          match rmatch r s Some with
          | Some rest =>
              if (length rest <? length s)%nat
              then sub_empty r (length s' - length rest) s'
              else c :: sub_empty r 0 s'
          | None => c :: sub_empty r 0 s'
          end
      end
  end.

(** [re.compile(r"(\.\d+)$")] *)
Definition DUPLICATE_SUFFIX_RE : regex :=
  Seq (Group (Seq (Lit 46) (Plus Digit))) Dollar.

Definition remove_duplicate_suffix (name : str) : str :=
  sub_empty DUPLICATE_SUFFIX_RE 0 name.

(** For the proofs: the greedy loop of [\d+] on its own, what is left of a
    string after its leading digits, and the match of the whole pattern at
    the head of a string, written out. *)
Fixpoint iterate_digits (k : str → option str) (n : nat) (s : str) : option str :=
  match s with
  | c :: s' =>
      if is_digit c then
        match n with
        | O => k s'
        | S n' =>
            match iterate_digits k n' s' with
            | Some rest => Some rest
            | None => k s'
            end
        end
      else None
  | [] => None
  end.

Fixpoint skip_digits (s : str) : str :=
  match s with
  | c :: s' => if is_digit c then skip_digits s' else s
  | [] => []
  end.

Definition match_here (s : str) : option str :=
  match s with
  | dot :: c :: s' =>
      if (46 =? dot)%N && is_digit c && at_dollar (skip_digits s')
      then Some (skip_digits s') else None
  | _ => None
  end.

(** The shapes of a name, for the statements: [name] ends in a dot and
    one or more digits exactly when [duplicate_suffix name] is [Some]
    of what precedes that dot. *)
Fixpoint duplicate_suffix (name : str) : option str :=
  match name with
  | [] => None
  | c :: name' =>
      match duplicate_suffix name' with
      | Some stem => Some (c :: stem)
      | None =>
          if (c =? 46)%N && forallb is_digit name'
             && negb (bool_decide (name' = []))
          then Some [] else None
      end
  end.

(** [name] without the newline it ends in, if it ends in one. *)
Definition without_final_newline (name : str) : option str :=
  match reverse name with
  | c :: body => if (c =? 10)%N then Some (reverse body) else None
  | [] => None
  end.

(** What [remove_duplicate_suffix] returns, said directly: the stem when the
    name ends in a duplicate suffix; the stem and the newline when it ends
    in a duplicate suffix and one newline; the name otherwise. *)
Definition suffix_removed (name : str) : str :=
  match duplicate_suffix name with
  | Some stem => stem
  | None =>
      match without_final_newline name ≫= duplicate_suffix with
      | Some stem => stem ++ [10%N]
      | None => name
      end
  end.
End Regex.

(** *** [DV_AddAxis._setup_categorical_axis] *)

Definition DV_COMPONENT_PROPERTY : string := "DV_Component".

(** A chart object: its custom properties, and the data information the
    absent [data.get_chart_data_info] reads from it ([None] when it has
    none), a dict of string lists. *)
Record ChartObject := {
  custom_properties : gset string;
  chart_data_info : option (gmap string (list string));
}.

Inductive InputValue :=
  | InInt (n : Z)
  | InStr (s : string).

Record NodesModifier := {
  mod_name : string;
  inputs : gmap string InputValue;
}.

(** [is_chart], lines 28-31. *)
Definition is_chart (obj : option ChartObject) : bool :=
  match obj with
  | None => false
  | Some o => bool_decide (DV_COMPONENT_PROPERTY ∈ custom_properties o)
  end.

(** Modelled from the spec: [modifier_utils.set_input], absent from
    the sources: the named input of the modifier takes the value. *)
Definition set_input (modifier : NodesModifier) (name : string) (v : InputValue)
    : NodesModifier :=
  {| mod_name := mod_name modifier; inputs := <[name := v]> (inputs modifier) |}.

Inductive setup_error := AssertionError | KeyError (key : string).

(** Lines 175-185.  The result is the modifier after the call and the
    lines logged. *)
Definition _setup_categorical_axis (obj : ChartObject) (modifier : NodesModifier)
    : setup_error + NodesModifier * list string :=
  if negb (is_chart (Some obj)) then inl AssertionError
  else
    match chart_data_info obj with
    | None => inr (modifier, ["No data found on the chart {obj.name}"])
    | Some data_from_obj =>
        match data_from_obj !! "categories" with
        | None => inl (KeyError "categories")
        | Some categories =>
            let modifier := set_input modifier "Tick Count"
                         (InInt (Z.of_nat (length categories))) in
            let modifier := set_input modifier "Labels"
                         (InStr (String.concat "," categories)) in
            inr (modifier, [])
        end
    end.

(** C6 as the specification states it, on this path: the label of each
    tick is the category as it is, so the categories can be told from the
    modifier that was set up: some way [labels_of] of reading its inputs
    gives them back, whatever they are. *)
Definition labels_verbatim_as_stated : Prop :=
  ∃ labels_of : NodesModifier → list string,
    ∀ obj modifier modifier' info categories,
      chart_data_info obj = Some info →
      info !! "categories" = Some categories →
      _setup_categorical_axis obj modifier = inr (modifier', []) →
      labels_of modifier' = categories.

(** [s.split(",")], to read the labels back from the joined input. *)
Fixpoint split_commas (s : string) : list string :=
  match s with
  | EmptyString => [EmptyString]
  | String c s' =>
      if Ascii.eqb c ","%char then EmptyString :: split_commas s'
      else
        match split_commas s' with
        | field :: fields => String c field :: fields
        | [] => [String c EmptyString]
        end
  end.

Fixpoint comma_free (s : string) : bool :=
  match s with
  | EmptyString => true
  | String c s' => negb (Ascii.eqb c ","%char) && comma_free s'
  end.
End Components.

(** ** Concrete charts *)
Module Examples.
Definition num (z : Z) : Value := VNum (Qc_of_Z z).

Definition axis (auto : bool) (rx ry : Z * Z) : DV_AxisPropertyGroup :=
  {| auto_ranges := auto;
     x_range := (Qc_of_Z rx.1, Qc_of_Z rx.2);
     y_range := (Qc_of_Z ry.1, Qc_of_Z ry.2);
     x_step := 1; y_step := 1; z_step := 1;
     padding := 0; auto_steps := true |}.

Definition operator (d : Dimensions) (t : ChartType) (a : DV_AxisPropertyGroup)
    : OBJECT_OT_BarChart :=
  {| dimensions := d; data_type := t; bar_size := (half, half);
     axis_settings := a;
     color_settings := {| color_shade := (1, 1, 1); color_type := "0" |};
     data := []; labels := []; chart_origin := (0, 0, 0);
     container_object := None |}.

Definition scene (s : OBJECT_OT_BarChart) : St :=
  {| self := s; objects := []; axis_calls := []; reports := [] |}.

Definition table (rows : list Entry) : DataManager :=
  {| parsed_data := rows; parsed_labels := ["x"; "y"; "z"] |}.

(** X = 1, 5, 9 with values 0, 7, 14, drawn over the X range [1, 9]. *)
Definition low_high : DataManager :=
  table [[num 1; num 0]; [num 5; num 7]; [num 9; num 14]].

(** X = 1, 3, 5, 9, drawn over the X range [2, 8]. *)
Definition four_rows : DataManager :=
  table [[num 1; num 10]; [num 3; num 20]; [num 5; num 30]; [num 9; num 40]].

(** Three categories, in an order that is not the sorted one. *)
Definition categories : DataManager :=
  table [[VStr "B"; num 4]; [VStr "A"; num 2]; [VStr "C"; num 8]].

(** The rows of [four_rows] asked for over the X range [10, 20]. *)
Definition out_of_range : St :=
  scene (operator Dim2 Type0 (axis false (10, 20)%Z (0, 1)%Z)).

(** A chart object of the geometry-nodes side with three categories. *)
Definition chart_abc : Components.ChartObject :=
  {| Components.custom_properties := {[Components.DV_COMPONENT_PROPERTY]};
     Components.chart_data_info := Some {["categories" := ["A"; "B"; "C"]]} |}.

Definition fresh_axis_modifier : Components.NodesModifier :=
  {| Components.mod_name := "Categorical Axis X"; Components.inputs := ∅ |}.

(** Two columns only. *)
Definition flat : DataManager :=
  table [[num 1; num 10]; [num 2; num 20]].
End Examples.

(** ** [geonodes/components.py]: chart objects, their modifiers, the panels *)
Module ChartComponents.

Definition AttributeError : exn := Exception_ "AttributeError".
Definition KeyError : exn := Exception_ "KeyError".

(** A modifier of an object, as far as [components.py] reads it;
    [md_node_group] is the name of [mod.node_group], [None] when the
    modifier has no node group. *)
Record Modifier := {
  md_type : string;
  md_name : Components.str;
  md_node_group : option Components.str;
  md_show_expanded : bool;
}.

(** An object of the scene: what makes it a chart (its custom properties
    and data), its type, its parent and its modifiers, first to last. *)
Record BObject := {
  ob_chart : Components.ChartObject;
  ob_type : string;
  ob_parent : option Components.str;
  ob_modifiers : list Modifier;
}.

Global Instance Modifier_eq_dec : EqDecision Modifier.
Proof. solve_decision. Defined.

Definition is_chart (obj : option BObject) : bool :=
  Components.is_chart (ob_chart <$> obj).

(** [is_chart_root], lines 34-37. *)
Definition is_chart_root (obj : option BObject) : bool :=
  match obj with
  | None => false
  | Some o =>
      is_chart obj && bool_decide (ob_type o = "EMPTY")
      && bool_decide (ob_parent o = None)
  end.

(** [obj[DV_COMPONENT_PROPERTY] = True] *)
Definition with_component_property (o : BObject) : BObject :=
  {| ob_chart :=
       {| Components.custom_properties :=
            {[Components.DV_COMPONENT_PROPERTY]}
            ∪ Components.custom_properties (ob_chart o);
          Components.chart_data_info := Components.chart_data_info (ob_chart o) |};
     ob_type := ob_type o; ob_parent := ob_parent o;
     ob_modifiers := ob_modifiers o |}.

(** [mark_as_chart], lines 40-42: the objects after the call. *)
Definition mark_as_chart (objs : list BObject) : list BObject :=
  with_component_property <$> objs.

(** A Python [dict] with [str] keys: the items in insertion order. *)
Definition dict (V : Type) : Type := list (Components.str * V).

Fixpoint dict_get {V} (d : dict V) (k : Components.str) : option V :=
  match d with
  | [] => None
  | (k', v) :: d' => if decide (k' = k) then Some v else dict_get d' k
  end.

(** [d[k] = v]: the value of an existing key is replaced in place, a new
    key goes to the end. *)
Fixpoint dict_set {V} (k : Components.str) (v : V) (d : dict V) : dict V :=
  match d with
  | [] => [(k, v)]
  | (k', v') :: d' =>
      if decide (k' = k) then (k', v) :: d' else (k', v') :: dict_set k v d'
  end.

(** [s.rsplit(sep, 1)] for a separator of one character: [s] cut at its
    last [sep], or [s] alone when it holds none. *)
Fixpoint rsplit_last (sep : N) (s : Components.str)
    : option (Components.str * Components.str) :=
  match s with
  | [] => None
  | c :: s' =>
      match rsplit_last sep s' with
      | Some (a, b) => Some (c :: a, b)
      | None => if (c =? sep)%N then Some ([], s') else None
      end
  end.

Definition rsplit1 (sep : N) (s : Components.str) : list Components.str :=
  match rsplit_last sep s with
  | Some (a, b) => [a; b]
  | None => [s]
  end.

Definition AXIS_NODE_GROUPS : list Components.str :=
  [Components.str_of_string "DV_CategoricalAxis";
   Components.str_of_string "DV_NumericAxis"].

Module AxisType.
Definition NUMERIC : Components.str := Components.str_of_string "Numeric".
Definition CATEGORICAL : Components.str := Components.str_of_string "Categorical".
End AxisType.

Definition axis_X : Components.str := Components.str_of_string "X".
Definition axis_Y : Components.str := Components.str_of_string "Y".
Definition axis_Z : Components.str := Components.str_of_string "Z".

(** [mod.node_group.name] *)
Definition node_group_name (m : Modifier) : result Components.str :=
  match md_node_group m with
  | Some name => Ok name
  | None => Raise AttributeError
  end.

(** What a panel has drawn: the widgets of a layout, in order. *)
Inductive PropValue :=
  | PStr (s : Components.str)
  | PBool (b : bool)
  | PNone.

#[local] Unset Elimination Schemes.
Inductive Widget :=
  | Label (text : Components.str)
  | PropField (owner : Modifier) (property : string) (text : Components.str)
  | Operator (idname : string) (text : Components.str) (icon : string)
      (props : list (string * PropValue))
  | OperatorProp (property : string)
  | ModifierInputs (m : Modifier)
  | Row (content : list Widget)
  | Column (align : bool) (content : list Widget)
  | Box (content : list Widget).
#[local] Set Elimination Schemes.

Definition DV_AddAxis_bl_idname : string := "data_vis.add_axis".

Section Panels.
Context (unicode_Nd : N → bool).
(** What the module takes from [geonodes/data.py] and
    [geonodes/modifier_utils.py], which are not at hand: the data type of a
    chart with its two tests, and the identifier of the operator that
    removes a modifier. *)
Context {DataTypeValue : Type}.
Context (get_chart_data_type : BObject → result DataTypeValue).
Context (is_3d is_categorical : DataTypeValue → bool).
Context (DV_RemoveModifier_bl_idname : string).

(** One turn of the loop of [get_axis_on_chart], lines 53-62. *)
Definition get_axis_on_chart_step (ret : dict (option Modifier)) (m : Modifier)
    : result (dict (option Modifier)) :=
  if bool_decide (md_type m = "NODES") then
    group ← node_group_name m;
    if bool_decide (Components.remove_duplicate_suffix unicode_Nd group
                    ∈ AXIS_NODE_GROUPS) then
      let split := rsplit1 32 (md_name m) in
      if (length split =? 1)%nat then Ok ret
      else
        axis ← getitem split 1;
        if bool_decide (axis ∈ [axis_X; axis_Y; axis_Z]) then Ok (dict_set axis (Some m) ret)
        else Ok ret
    else Ok ret
  else Ok ret.

Fixpoint get_axis_on_chart_loop (ret : dict (option Modifier))
    (modifiers : list Modifier) : result (dict (option Modifier)) :=
  match modifiers with
  | [] => Ok ret
  | m :: modifiers' =>
      ret ← get_axis_on_chart_step ret m;
      get_axis_on_chart_loop ret modifiers'
  end.

(** [get_axis_on_chart], lines 49-63. *)
Definition get_axis_on_chart (obj : BObject) : result (dict (option Modifier)) :=
  let ret := [(axis_X, None); (axis_Y, None); (axis_Z, None)] in
  get_axis_on_chart_loop ret (ob_modifiers obj).

(** [get_compatible_axis], lines 66-78. *)
Definition get_compatible_axis (obj : BObject)
    : result (dict (option Components.str)) :=
  let ret := [(axis_X, None); (axis_Y, None); (axis_Z, None)] in
  data_type ← get_chart_data_type obj;
  let ret := dict_set axis_Z (Some AxisType.NUMERIC) ret in
  let ret := if is_3d data_type then dict_set axis_Y (Some AxisType.NUMERIC) ret
             else ret in
  let ret := if is_categorical data_type
             then dict_set axis_X (Some AxisType.CATEGORICAL) ret
             else dict_set axis_X (Some AxisType.NUMERIC) ret in
  Ok ret.

(** The box of one modifier: [DV_AxisPanel.draw_axis_inputs], lines
    240-251, and the same lines 307-315 of [DV_DataLabelsPanel.draw]. *)
Definition modifier_box (m : Modifier) : Widget :=
  Box (Row [PropField m "show_expanded" [];
            Label (md_name m);
            Operator DV_RemoveModifier_bl_idname [] "X"
              [("modifier_name", PStr (md_name m))]]
       :: if md_show_expanded m then [ModifierInputs m] else []).

Definition draw_axis_inputs (m : Modifier) : Widget := modifier_box m.

(** The button of lines 269-276. *)
Definition add_axis_button (axis axis_type : Components.str)
    (props : list (string * PropValue)) : Widget :=
  Operator DV_AddAxis_bl_idname
    (Components.str_of_string "Add " ++ axis ++ Components.str_of_string " ("
     ++ axis_type ++ Components.str_of_string ")")
    "ADD" props.

(** The loop of [DV_AxisPanel.draw], lines 265-278: the outcome and what
    was drawn. *)
Fixpoint draw_axes (compatible_axis : dict (option Components.str))
    (items : dict (option Modifier)) : result unit * list Widget :=
  match items with
  | [] => (Ok (), [])
  | (axis, None) :: items' =>
      match default None (dict_get compatible_axis axis) with
      | Some axis_type =>
          match dict_get compatible_axis axis with
          | Some value =>
              let '(r, drawn) := draw_axes compatible_axis items' in
              (r, add_axis_button axis axis_type
                    [("axis", PStr axis);
                     ("axis_type", from_option PStr PNone value);
                     ("pass_invoke", PBool true)] :: drawn)
          | None =>
              (Raise KeyError,
               [add_axis_button axis axis_type [("axis", PStr axis)]])
          end
      | None => draw_axes compatible_axis items'
      end
  | (axis, Some m) :: items' =>
      let '(r, drawn) := draw_axes compatible_axis items' in
      (r, draw_axis_inputs m :: drawn)
  end.

(** [DV_AxisPanel.draw], lines 253-278. *)
Definition DV_AxisPanel_draw (active_object : option BObject)
    : result unit * list Widget :=
  match active_object with
  | None => (Ok (), [Label (Components.str_of_string "No active object")])
  | Some obj =>
      if negb (is_chart (Some obj)) then
        (Ok (), [Label (Components.str_of_string
                          "Active object is not a valid chart")])
      else
        match get_compatible_axis obj with
        | Raise e => (Raise e, [])
        | Ok compatible_axis =>
            match get_axis_on_chart obj with
            | Raise e => (Raise e, [])
            | Ok axes => draw_axes compatible_axis axes
            end
        end
  end.

(** The test of lines 302-305. *)
Definition is_data_labels (m : Modifier) : result bool :=
  if bool_decide (md_type m = "NODES") then
    group ← node_group_name m;
    Ok (bool_decide (Components.remove_duplicate_suffix unicode_Nd group
                     = Components.str_of_string "DV_DataLabels"))
  else Ok false.

(** The loop of [DV_DataLabelsPanel.draw] over the lazy [filter]. *)
Fixpoint draw_data_labels (modifiers : list Modifier) : result unit * list Widget :=
  match modifiers with
  | [] => (Ok (), [])
  | m :: modifiers' =>
      match is_data_labels m with
      | Raise e => (Raise e, [])
      | Ok false => draw_data_labels modifiers'
      | Ok true =>
          let '(r, drawn) := draw_data_labels modifiers' in
          (r, modifier_box m :: drawn)
      end
  end.

(** [DV_DataLabelsPanel.draw], lines 291-315. *)
Definition DV_DataLabelsPanel_draw (active_object : option BObject)
    : result unit * list Widget :=
  match active_object with
  | None => (Ok (), [Label (Components.str_of_string "No active object")])
  | Some obj =>
      if negb (is_chart (Some obj)) then
        (Ok (), [Label (Components.str_of_string
                          "Active object is not a valid chart")])
      else draw_data_labels (ob_modifiers obj)
  end.

(** The operator [DV_AddAxis]: its properties, and [existing_axis], an
    attribute that exists only once [invoke] has set it. *)
Record DV_AddAxis := {
  op_axis : Components.str;
  op_axis_type : Components.str;
  op_pass_invoke : bool;
  op_existing_axis : option (dict (option Modifier));
}.

(** [DV_AddAxis.invoke], lines 160-165: it hands over to [execute], or
    looks up the axes of the active object and opens the dialog. *)
Inductive InvokeStep :=
  | CallsExecute
  | OpensDialog (self : DV_AddAxis)
  | Raises (e : exn).

Definition DV_AddAxis_invoke (self : DV_AddAxis) (active_object : option BObject)
    : InvokeStep :=
  if op_pass_invoke self then CallsExecute
  else
    match active_object with
    | None => Raises AttributeError
    | Some obj =>
        match get_axis_on_chart obj with
        | Raise e => Raises e
        | Ok existing =>
            OpensDialog {| op_axis := op_axis self;
                           op_axis_type := op_axis_type self;
                           op_pass_invoke := op_pass_invoke self;
                           op_existing_axis := Some existing |}
        end
    end.

(** The loop of [DV_AddAxis.draw], lines 117-121. *)
Fixpoint existing_axis_labels (items : dict (option Modifier)) : list Widget :=
  match items with
  | [] => []
  | (axis, None) :: items' => existing_axis_labels items'
  | (axis, Some m) :: items' =>
      Label (Components.str_of_string "[" ++ axis ++ Components.str_of_string "] "
             ++ md_name m)
      :: existing_axis_labels items'
  end.

(** [DV_AddAxis.draw], lines 109-121: the outcome and what was drawn. *)
Definition DV_AddAxis_draw (self : DV_AddAxis) : result unit * list Widget :=
  let heading := Row [Label (Components.str_of_string "Existing Axis")] in
  match op_existing_axis self with
  | None =>
      (Raise AttributeError,
       [OperatorProp "axis"; OperatorProp "axis_type"; Column true [heading]])
  | Some existing =>
      (Ok (),
       [OperatorProp "axis"; OperatorProp "axis_type";
        Column true (heading :: existing_axis_labels existing)])
  end.

(** For the statements: the line of the dialog for one axis. *)
Definition existing_axis_label (axis : Components.str) (found : option Modifier)
    : list Widget :=
  match found with
  | Some m =>
      [Label (Components.str_of_string "[" ++ axis ++ Components.str_of_string "] "
              ++ md_name m)]
  | None => []
  end.

(** For the statements: what [DV_AxisPanel.draw] shows for one axis: the
    box of the modifier found for it or, when there is none and the chart
    can have the axis, the button that adds it. *)
Definition axis_slot (axis : Components.str) (found : option Modifier)
    (compatible : option Components.str) : list Widget :=
  match found, compatible with
  | Some m, _ => [draw_axis_inputs m]
  | None, Some axis_type =>
      [add_axis_button axis axis_type
         [("axis", PStr axis); ("axis_type", PStr axis_type);
          ("pass_invoke", PBool true)]]
  | None, None => []
  end.

(** For the statements: [m] is an axis modifier that stands for [axis]: a
    nodes modifier whose node group is an axis group or a numbered copy of
    one, and whose name ends in a space and [axis]. *)
Definition stands_for (m : Modifier) (axis : Components.str) : Prop :=
  md_type m = "NODES" ∧
  (∃ group, md_node_group m = Some group ∧
     Components.remove_duplicate_suffix unicode_Nd group ∈ AXIS_NODE_GROUPS) ∧
  ∃ prefix, md_name m = prefix ++ 32%N :: axis.

(** A nodes modifier without node group. *)
Definition without_node_group (m : Modifier) : Prop :=
  md_type m = "NODES" ∧ md_node_group m = None.

(** [found] is the last of the modifiers that stands for [axis], or [None]
    when none does. *)
Definition last_for (modifiers : list Modifier) (axis : Components.str)
    (found : option Modifier) : Prop :=
  match found with
  | None => Forall (λ m, ¬ stands_for m axis) modifiers
  | Some m =>
      ∃ before after,
        modifiers = before ++ m :: after ∧ stands_for m axis ∧
        Forall (λ m', ¬ stands_for m' axis) after
  end.
End Panels.

(** Lines 130 and 140-150 of [DV_AddAxis.execute]: the name the operator
    gives to the modifier it adds, [f"{axis_type} Axis"] followed by a space
    and the axis. *)
Definition axis_modifier_name (axis_type axis : Components.str) : Components.str :=
  (axis_type ++ Components.str_of_string " Axis")
  ++ Components.str_of_string " " ++ axis.
End ChartComponents.

(** ** [geonodes/__init__.py] *)
Module Geonodes.

(** [CLASSES], lines 27-44: the classes by name. *)
Definition CLASSES : list string :=
  ["DV_DataProperties"; "DV_RemoveModifier"; "DV_GN_BarChart";
   "DV_GN_PointChart"; "DV_GN_LineChart"; "DV_GN_SurfaceChart";
   "DV_GN_PieChart"; "DV_AddAxis"; "DV_AddDataLabels"; "DV_ChartPanel";
   "DV_AxisPanel"; "DV_DataLabelsPanel"; "DV_AnimateAxis";
   "DV_AnimateAboveDataLabels"; "DV_AnimateData";
   "DV_AddDataTransitionAnimation"].

Section Registry.
(** The registry of the host and its two calls, [bpy.utils.register_class]
    and [bpy.utils.unregister_class]: a call returns the registry with the
    class added or removed, or raises and leaves the registry alone. *)
Context {Registry : Type}.
Context (register_class unregister_class : string → Registry → result Registry).

(** [for cls in classes: call(cls)]: the outcome and the registry reached. *)
Fixpoint for_each (call : string → Registry → result Registry)
    (classes : list string) (registry : Registry) : result unit * Registry :=
  match classes with
  | [] => (Ok (), registry)
  | cls :: classes' =>
      match call cls registry with
      | Ok registry' => for_each call classes' registry'
      | Raise e => (Raise e, registry)
      end
  end.

(** [register], lines 47-49, and [unregister], lines 52-54. *)
Definition register (registry : Registry) : result unit * Registry :=
  for_each register_class CLASSES registry.

Definition unregister (registry : Registry) : result unit * Registry :=
  for_each unregister_class (reverse CLASSES) registry.
End Registry.

(** A host for the examples: the registry is the stack of the registered
    classes, and only the class on top can be unregistered. *)
Definition stack_register_class (cls : string) (registry : list string)
    : result (list string) := Ok (cls :: registry).

Definition stack_unregister_class (cls : string) (registry : list string)
    : result (list string) :=
  match registry with
  | top :: registry' =>
      if decide (top = cls) then Ok registry' else Raise (Exception_ "RuntimeError")
  | [] => Raise (Exception_ "RuntimeError")
  end.
End Geonodes.

(** ** Concrete chart objects *)
Module ChartExamples.
(** Names in ASCII only: no digit of Unicode beyond [0]-[9] is needed. *)
Definition ascii_digits : N → bool := λ _, false.

Definition nodes_modifier (name group : string) : ChartComponents.Modifier :=
  {| ChartComponents.md_type := "NODES";
     ChartComponents.md_name := Components.str_of_string name;
     ChartComponents.md_node_group := Some (Components.str_of_string group);
     ChartComponents.md_show_expanded := false |}.

(** A nodes modifier that has lost its node group. *)
Definition broken_modifier (name : string) : ChartComponents.Modifier :=
  {| ChartComponents.md_type := "NODES";
     ChartComponents.md_name := Components.str_of_string name;
     ChartComponents.md_node_group := None;
     ChartComponents.md_show_expanded := false |}.

Definition chart (modifiers : list ChartComponents.Modifier)
    : ChartComponents.BObject :=
  {| ChartComponents.ob_chart := Examples.chart_abc;
     ChartComponents.ob_type := "EMPTY";
     ChartComponents.ob_parent := None;
     ChartComponents.ob_modifiers := modifiers |}.

Definition numeric_x := nodes_modifier "Numeric Axis X" "DV_NumericAxis".
Definition categorical_x :=
  nodes_modifier "Categorical Axis X" "DV_CategoricalAxis.001".
(** A second Z axis as the host renames it. *)
Definition numeric_z_copy := nodes_modifier "Numeric Axis Z.001" "DV_NumericAxis".
Definition numeric_z := nodes_modifier "Numeric Axis Z" "DV_NumericAxis".
Definition data_labels := nodes_modifier "Data Labels" "DV_DataLabels".
Definition data_labels_copy := nodes_modifier "Data Labels.001" "DV_DataLabels.002".
End ChartExamples.

(** * Properties *)

(** ** The loop of [execute] and its pure form *)

Lemma alter_app_last {A} (f : A → A) (l : list A) (x : A) :
  alter f (length l) (l ++ [x]) = l ++ [f x].
Proof.
  rewrite <-(Nat.add_0_r (length l)) at 1. by rewrite alter_app_r.
Qed.

Ltac unfold_monad :=
  unfold mbind, mret, M_bind, M_ret, result_bind, result_ret, lift, get_self,
    modify_self, modify_objects, set_object, report, try_except,
    primitive_cube_add, record_axis_call in *.

Lemma bind_Ok_inv {A B} (m : M A) (f : A → M B) st b st' :
  (m ≫= f) st = (Ok b, st') ↔ ∃ a st1, m st = (Ok a, st1) ∧ f a st1 = (Ok b, st').
Proof.
  unfold mbind, M_bind. destruct (m st) as [[a|e] st1]; simpl.
  - split; [intros; by exists a, st1|]. by intros (? & ? & [= <- <-] & ?).
  - split; [done|]. by intros (? & ? & ? & ?).
Qed.

Lemma bind_Raise_inv {A B} (m : M A) (f : A → M B) st e st' :
  (m ≫= f) st = (Raise e, st') ↔
  m st = (Raise e, st') ∨ ∃ a st1, m st = (Ok a, st1) ∧ f a st1 = (Raise e, st').
Proof.
  unfold mbind, M_bind. destruct (m st) as [[a|e1] st1]; simpl.
  - split; [intros; right; by exists a, st1|].
    intros [|(? & ? & [= <- <-] & ?)]; done.
  - split; [intros [= -> ->]; by left|].
    intros [[= -> ->]|(? & ? & ? & ?)]; done.
Qed.

Section BarChartLoop.
Context (imp : Imports).

Lemma execute_bar_eq shader value_index data_min data_max i entry tick_labels st :
  execute_bar imp shader value_index data_min data_max i entry tick_labels st =
  let '(r, objs) := bar_pure imp (self st) shader value_index data_min data_max
                      i entry tick_labels in
  (r, add_objects objs st).
Proof.
  destruct st as [s objs acs reps].
  unfold execute_bar, bar_pure, bar_values, add_objects, bar_object.
  unfold_monad; simpl.
  destruct (in_axis_range_bounds_new imp s entry) as [[]|]; simpl;
    rewrite ?app_nil_r; try done.
  destruct (data_type_as_enum s); simpl;
    (destruct (getitem entry 0); simpl; [|done]);
    (destruct (normalize_value imp _ _ _); simpl; [|done]);
    (destruct (getitem entry value_index); simpl; [|done]);
    (destruct (normalize_value imp _ data_min data_max); simpl; [|done]);
    (destruct (decide (dimensions s = Dim2)); simpl;
      [by rewrite !alter_app_last|]);
    (destruct (getitem entry 1); simpl; [|done]);
    (destruct (normalize_value imp _ _ _); simpl; [|done]);
    by rewrite !alter_app_last.
Qed.

Lemma add_objects_app objs objs' st :
  add_objects objs' (add_objects objs st) = add_objects (objs ++ objs') st.
Proof. unfold add_objects; simpl. by rewrite (assoc_L (++)). Qed.

Lemma execute_bars_eq shader value_index data_min data_max entries :
  ∀ i tick_labels st,
  execute_bars imp shader value_index data_min data_max i entries tick_labels st =
  let '(r, objs) := bars_pure imp (self st) shader value_index data_min data_max
                      i entries tick_labels in
  (r, add_objects objs st).
Proof.
  induction entries as [|entry entries IH]; intros i tick_labels st; simpl.
  - destruct st; unfold add_objects; unfold_monad; simpl. by rewrite app_nil_r.
  - cbn [execute_bars bars_pure]. unfold mbind at 1. unfold M_bind at 1.
    rewrite execute_bar_eq.
    destruct (bar_pure imp (self st) shader value_index data_min data_max i
                entry tick_labels) as [[tl|e] objs]; [|done].
    rewrite IH. simpl.
    destruct (bars_pure imp (self st) shader value_index data_min data_max
                (S i) entries tl) as [r objs'].
    by rewrite add_objects_app.
Qed.

Lemma bars_pure_placements s shader value_index data_min data_max entries :
  ∀ i tick_labels tick_labels' objs,
  bars_pure imp s shader value_index data_min data_max i entries tick_labels
    = (Ok tick_labels', objs) ↔
  placements imp s shader value_index data_min data_max i entries tick_labels
    objs tick_labels'.
Proof.
  induction entries as [|entry entries IH]; intros i tl tl' objs; simpl.
  - split.
    + intros [= <- <-]. constructor.
    + inversion 1; by subst.
  - unfold bar_pure. split.
    + destruct (in_axis_range_bounds_new imp s entry) as [[]|] eqn:Hin;
        simpl; [| |done].
      * destruct (bar_values imp s value_index data_min data_max i entry tl)
          as [[[[x y] z] tl1]|] eqn:Hv; [|done].
        destruct (bars_pure imp s shader value_index data_min data_max (S i)
                    entries tl1) as [r objs'] eqn:Hrest.
        intros [= -> <-]. eapply placements_bar; [done..|]. by apply IH.
      * destruct (bars_pure imp s shader value_index data_min data_max (S i)
                    entries tl) as [r objs'] eqn:Hrest.
        intros [= -> <-]. apply placements_skip; [done|]. by apply IH.
    + inversion 1 as [|? ? ? ? ? ? Hin Hrest|? ? ? ? ? ? ? ? ? ? Hin Hv Hrest];
        subst; rewrite Hin; simpl.
      * apply IH in Hrest. by rewrite Hrest.
      * rewrite Hv. apply IH in Hrest. by rewrite Hrest.
Qed.

Lemma placements_Forall s shader value_index data_min data_max i entries
    tick_labels objs tick_labels' :
  placements imp s shader value_index data_min data_max i entries tick_labels
    objs tick_labels' →
  Forall (λ bar, ∃ j entry, entries !! j = Some entry ∧
            bar_of_row imp s shader value_index data_min data_max (i + j) entry bar)
    objs.
Proof.
  induction 1 as [|i entry entries tl objs tl' Hin _ IH
                  |i entry entries tl x y z tl1 objs tl' Hin Hv _ IH].
  - constructor.
  - eapply Forall_impl; [exact IH|]. intros bar (j & e & Hj & Hb).
    exists (S j), e. split; [done|]. by replace (i + S j)%nat with (S i + j)%nat by lia.
  - constructor.
    + exists 0%nat, entry. split; [done|]. rewrite Nat.add_0_r.
      by exists tl, x, y, z, tl1.
    + eapply Forall_impl; [exact IH|]. intros bar (j & e & Hj & Hb).
      exists (S j), e. split; [done|].
      by replace (i + S j)%nat with (S i + j)%nat by lia.
Qed.

(** The values of a bar: each one is what [normalize_value] returned. *)
Lemma bar_values_Ok s value_index data_min data_max i entry tick_labels
    x y z labels1 :
  bar_values imp s value_index data_min data_max i entry tick_labels
    = Ok (x, y, z, labels1) →
  ∃ e0 ev,
    entry !! 0%nat = Some e0 ∧ entry !! value_index = Some ev ∧
    normalize_value imp
      (match data_type_as_enum s with
       | Numerical => e0
       | Categorical => VNum (Qc_of_Z (Z.of_nat i))
       end)
      (VNum (x_range (axis_settings s)).1) (VNum (x_range (axis_settings s)).2)
      = Ok x ∧
    normalize_value imp ev data_min data_max = Ok z ∧
    labels1 = match data_type_as_enum s with
              | Numerical => tick_labels
              | Categorical => tick_labels ++ [e0]
              end ∧
    match dimensions s with
    | Dim2 => y = 0
    | Dim3 => ∃ e1, entry !! 1%nat = Some e1 ∧
                normalize_value imp e1 (VNum (y_range (axis_settings s)).1)
                  (VNum (y_range (axis_settings s)).2) = Ok y
    end.
Proof.
  unfold bar_values, getitem; unfold_monad.
  destruct (entry !! 0%nat) as [e0|] eqn:H0;
    [|destruct (data_type_as_enum s); simpl; by intros].
  destruct (entry !! value_index) as [ev|] eqn:Hv.
  - intros H. exists e0, ev.
    destruct (data_type_as_enum s); simpl in H;
      (destruct (normalize_value imp _ _ _) as [x'|] eqn:Hx; simpl in H; [|done]);
      (destruct (normalize_value imp ev _ _) as [z'|] eqn:Hz; simpl in H; [|done]);
      (destruct (dimensions s) eqn:Hd; simpl in H;
        [destruct (entry !! 1%nat) as [e1|] eqn:H1; simpl in H; [|done];
         destruct (normalize_value imp e1 _ _) as [y'|] eqn:Hy; simpl in H; [|done];
         injection H as <- <- <- <-; split_and!; try done; by exists e1
        |injection H as <- <- <- <-; by split_and!]).
  - intros H. exfalso.
    destruct (data_type_as_enum s); simpl in H;
      by destruct (normalize_value imp _ _ _).
Qed.

(** One bar for each retained row, in the order of the table, and nothing
    for the others. *)
Lemma placements_retained s shader value_index data_min data_max i entries
    tick_labels objs tick_labels' :
  placements imp s shader value_index data_min data_max i entries tick_labels
    objs tick_labels' →
  Forall2 (λ entry bar, ∃ j, entries !! j = Some entry ∧
             bar_of_row imp s shader value_index data_min data_max (i + j) entry bar)
    (retained imp s entries) objs.
Proof.
  unfold retained.
  induction 1 as [|i entry entries tl objs tl' Hin _ IH
                  |i entry entries tl x y z tl1 objs tl' Hin Hv _ IH].
  - constructor.
  - rewrite filter_cons_False by (rewrite Hin; done).
    eapply Forall2_impl; [exact IH|]. intros e bar (j & Hj & Hb).
    exists (S j). split; [done|].
    by replace (i + S j)%nat with (S i + j)%nat by lia.
  - rewrite filter_cons_True by done. constructor.
    + exists 0%nat. split; [done|]. rewrite Nat.add_0_r.
      by exists tl, x, y, z, tl1.
    + eapply Forall2_impl; [exact IH|]. intros e bar (j & Hj & Hb).
      exists (S j). split; [done|].
      by replace (i + S j)%nat with (S i + j)%nat by lia.
Qed.

(** With categorical data, the tick labels are the first cells of the
    retained rows, in the order of the table. *)
Lemma placements_tick_labels s shader value_index data_min data_max i entries
    tick_labels objs tick_labels' :
  data_type s = Type1 →
  placements imp s shader value_index data_min data_max i entries tick_labels
    objs tick_labels' →
  tick_labels' = tick_labels ++ omap (λ entry, entry !! 0%nat) (retained imp s entries).
Proof.
  intros Ht. unfold retained.
  induction 1 as [|i entry entries tl objs tl' Hin _ IH
                  |i entry entries tl x y z tl1 objs tl' Hin Hv _ IH].
  - by rewrite app_nil_r.
  - by rewrite filter_cons_False by (rewrite Hin; done).
  - rewrite filter_cons_True by done.
    apply bar_values_Ok in Hv as (e0 & ev & H0 & _ & _ & _ & -> & _).
    unfold data_type_as_enum in IH. rewrite Ht in IH.
    simpl. rewrite H0. simpl. by rewrite IH, <-(assoc_L (++)).
Qed.

(** The loop runs to its end when every row is either rejected or gives
    all its values. *)
Lemma bars_pure_total s shader value_index data_min data_max entries :
  ∀ i tick_labels,
  (∀ j entry, entries !! j = Some entry →
     in_axis_range_bounds_new imp s entry = Ok false ∨
     (in_axis_range_bounds_new imp s entry = Ok true ∧
      ∀ tl, ∃ x y z tl1,
        bar_values imp s value_index data_min data_max (i + j) entry tl
          = Ok (x, y, z, tl1))) →
  ∃ tick_labels' objs,
    bars_pure imp s shader value_index data_min data_max i entries tick_labels
      = (Ok tick_labels', objs).
Proof.
  induction entries as [|entry entries IH]; intros i tl Hrows; simpl.
  - by eexists _, _.
  - unfold bar_pure.
    destruct (Hrows 0%nat entry eq_refl) as [Hin|[Hin Hv]]; rewrite Hin; simpl.
    + destruct (IH (S i) tl) as (tl' & objs & ->).
      { intros j e Hj. replace (S i + j)%nat with (i + S j)%nat by lia.
        by apply Hrows. }
      by eexists _, _.
    + destruct (Hv tl) as (x & y & z & tl1 & Hv'). rewrite Nat.add_0_r in Hv'.
      rewrite Hv'.
      destruct (IH (S i) tl1) as (tl' & objs & ->).
      { intros j e Hj. replace (S i + j)%nat with (i + S j)%nat by lia.
        by apply Hrows. }
      by eexists _, _.
Qed.

(** When no row is rejected, the bar of index [j] is the bar of row [j]. *)
Lemma placements_all_retained s shader value_index data_min data_max i entries
    tick_labels objs tick_labels' :
  placements imp s shader value_index data_min data_max i entries tick_labels
    objs tick_labels' →
  (∀ entry, entry ∈ entries → in_axis_range_bounds_new imp s entry = Ok true) →
  length objs = length entries ∧
  ∀ j bar, objs !! j = Some bar →
    ∃ entry, entries !! j = Some entry ∧
      bar_of_row imp s shader value_index data_min data_max (i + j) entry bar.
Proof.
  induction 1 as [|i entry entries tl objs tl' Hin _ IH
                  |i entry entries tl x y z tl1 objs tl' Hin Hv _ IH];
    intros Hall.
  - split; [done|]. by intros j bar.
  - rewrite Hall in Hin by (by left). done.
  - destruct IH as [Hlen IH]; [intros e He; apply Hall; by right|].
    split; [simpl; by rewrite Hlen|].
    intros [|j] bar Hj; simpl in Hj.
    + injection Hj as <-. exists entry. split; [done|]. rewrite Nat.add_0_r.
      by exists tl, x, y, z, tl1.
    + destruct (IH j bar Hj) as (e & He & Hb). exists e. split; [done|].
      by replace (i + S j)%nat with (S i + j)%nat by lia.
Qed.
End BarChartLoop.

(** ** The runs of [execute] *)

Section BarChartRuns.
Context (imp : Imports) (dm : DataManager).

(** The condition of line 86 reads the operator and changes nothing. *)
Lemma execute_dimension_mismatch_state st :
  (execute_dimension_mismatch st).2 = st.
Proof.
  unfold execute_dimension_mismatch; unfold_monad; simpl.
  destruct (decide _); [|done]. by destruct (getitem _ _).
Qed.

(** Lines 78-84 write the ranges and the dimensions, nothing else. *)
Lemma execute_ranges_frame st :
  let st' := (execute_ranges imp st).2 in
  objects st' = objects st ∧ axis_calls st' = axis_calls st ∧
  reports st' = reports st ∧ data (self st') = data (self st) ∧
  data_type (self st') = data_type (self st) ∧
  labels (self st') = labels (self st) ∧
  container_object (self st') = container_object (self st).
Proof.
  unfold execute_ranges, init_range, data_type_as_enum; unfold_monad; simpl.
  destruct (data_type (self st)) eqn:Ht; simpl; [|by rewrite Ht].
  destruct (auto_ranges _); simpl; [|by rewrite Ht].
  destruct (find_axis_range imp _ 0); simpl; [|by rewrite Ht].
  by destruct (find_axis_range imp _ 1); simpl; rewrite Ht.
Qed.

(** Lines 77-84 leave the scene alone and load the table. *)
Lemma setup_frame st r st1 :
  (init_data dm;; execute_ranges imp) st = (r, st1) →
  objects st1 = objects st ∧ axis_calls st1 = axis_calls st ∧
  reports st1 = reports st ∧ data (self st1) = parsed_data dm ∧
  data_type (self st1) = data_type (self st) ∧
  labels (self st1) = parsed_labels dm.
Proof.
  intros H.
  assert (st1 = (execute_ranges imp (init_data dm st).2).2) as ->.
  { revert H. unfold mbind, M_bind, init_data, modify_self. simpl.
    destruct (execute_ranges imp _) as [[[]|] ?]; by intros [= _ <-]. }
  destruct (execute_ranges_frame (init_data dm st).2)
    as (-> & -> & -> & -> & -> & -> & _).
  done.
Qed.

(** With numerical data, lines 77-84 leave the dimensions as requested. *)
Lemma setup_dimensions st r st1 :
  (init_data dm;; execute_ranges imp) st = (r, st1) →
  data_type (self st) = Type0 →
  dimensions (self st1) = dimensions (self st).
Proof.
  unfold init_data, execute_ranges, init_range, data_type_as_enum.
  unfold_monad. simpl. intros H Ht. rewrite Ht in H. simpl in H.
  destruct (auto_ranges _); simpl in H; [|by injection H as _ <-].
  destruct (find_axis_range imp _ 0); simpl in H; [|by injection H as _ <-].
  destruct (find_axis_range imp _ 1); simpl in H; by injection H as _ <-.
Qed.

(** A value range, once found, has changed nothing. *)
Lemma execute_data_range_Some st r st' :
  execute_data_range imp st = (Ok (Some r), st') → st' = st.
Proof.
  unfold execute_data_range; unfold_monad; simpl.
  destruct (data_type_as_enum (self st)).
  - destruct (find_data_range imp _ _ _); simpl; [|done]. by intros [= _ <-].
  - destruct (py_min _ _) as [lo|]; simpl; [|done].
    destruct (getitem lo 1); simpl; [|done].
    destruct (py_max _ _) as [hi|]; simpl; [|done].
    destruct (getitem hi 1); simpl; [|done]. by intros [= _ <-].
Qed.

(** A finished run, step by step. *)
Lemma execute_finished st st' :
  execute imp dm st = (Ok FINISHED, st') ↔
  ∃ st1 data_min data_max shader tick_labels bars,
    (init_data dm;; execute_ranges imp) st = (Ok (), st1) ∧
    execute_dimension_mismatch st1 = (Ok false, st1) ∧
    let st2 := (create_container st1).2 in
    let s := self st2 in
    execute_data_range imp st2 = (Ok (Some (data_min, data_max)), st2) ∧
    NodeShader imp (color_shade (color_settings s))
      (color_type (color_settings s)) 2 (chart_origin s).2 = Ok shader ∧
    bars_pure imp s shader (value_index s) data_min data_max 0 (data s) []
      = (Ok tick_labels, bars) ∧
    AxisFactory_create imp (axis_args s data_min data_max tick_labels) = Ok () ∧
    record_axis_call (axis_args s data_min data_max tick_labels)
      (add_objects bars st2) = (Ok (), st').
Proof.
  unfold execute, execute_build. split.
  - intros H.
    apply bind_Ok_inv in H as ([] & st0 & H0 & H).
    apply bind_Ok_inv in H as ([] & st1 & H1 & H).
    apply bind_Ok_inv in H as (mismatch & st1' & Hm & H).
    pose proof (execute_dimension_mismatch_state st1) as Hst1.
    rewrite Hm in Hst1; simpl in Hst1; subst st1'.
    destruct mismatch.
    { apply bind_Ok_inv in H as ([] & ? & _ & H). by inversion H. }
    apply bind_Ok_inv in H as ([] & st2 & H2 & H).
    apply bind_Ok_inv in H as (r & st2' & Hr & H).
    destruct r as [[data_min data_max]|]; [|by inversion H].
    pose proof (execute_data_range_Some _ _ _ Hr) as ->.
    apply bind_Ok_inv in H as (s & ? & [= <- <-] & H).
    apply bind_Ok_inv in H as (shader & ? & Hs & H).
    unfold lift in Hs. injection Hs as Hs <-.
    apply bind_Ok_inv in H as (tick_labels & st3 & Hb & H).
    rewrite execute_bars_eq in Hb.
    destruct (bars_pure _ _ _ _ _ _ _ _ _) as [rb bars] eqn:Hbars.
    injection Hb as -> <-.
    apply bind_Ok_inv in H as ([] & st4 & Ha & [= <-]).
    unfold execute_axis in Ha.
    apply bind_Ok_inv in Ha as (s' & ? & [= <- <-] & Ha).
    apply bind_Ok_inv in Ha as ([] & ? & Hf & Ha).
    unfold lift in Hf. injection Hf as Hf <-.
    assert (st2 = (create_container st1).2) as -> by (by rewrite H2).
    exists st1, data_min, data_max, shader, tick_labels, bars.
    split_and!; try done.
    apply bind_Ok_inv. by exists (), st0.
  - intros (st1 & data_min & data_max & shader & tick_labels & bars &
            H1 & Hm & Hr & Hs & Hb & Hf & Ha).
    apply bind_Ok_inv in H1 as ([] & st0 & H0 & H1).
    apply bind_Ok_inv. exists (), st0. split; [done|].
    apply bind_Ok_inv. exists (), st1. split; [done|].
    apply bind_Ok_inv. exists false, st1. split; [done|].
    apply bind_Ok_inv. exists (), (create_container st1).2. split; [done|].
    set (st2 := (create_container st1).2) in *.
    apply bind_Ok_inv. eexists _, _. split; [exact Hr|]. cbv beta iota.
    apply bind_Ok_inv. exists (self st2), st2. split; [done|].
    apply bind_Ok_inv. exists shader, st2. split; [unfold lift; by rewrite Hs|].
    apply bind_Ok_inv. exists tick_labels, (add_objects bars st2). split.
    { rewrite execute_bars_eq. by rewrite Hb. }
    apply bind_Ok_inv. exists (), st'. split; [|done].
    unfold execute_axis.
    apply bind_Ok_inv. exists (self st2), (add_objects bars st2). split; [done|].
    apply bind_Ok_inv. exists (), (add_objects bars st2).
    split; [unfold lift; by rewrite Hf|]. done.
Qed.

(** The value range either leaves the state alone or, when
    [find_data_range] raised, reports and gives up (lines 94-96). *)
Lemma execute_data_range_state st :
  ((execute_data_range imp st).2 = st ∧
   (execute_data_range imp st).1 ≠ Ok None) ∨
  (data_type_as_enum (self st) = Numerical ∧
   execute_data_range imp st =
     (Ok None, (report "ERROR" "Cannot find data in this range!" st).2) ∧
   ∃ e, find_data_range imp (data (self st)) (x_range (axis_settings (self st)))
          (if decide (dimensions (self st) = Dim3)
           then Some (y_range (axis_settings (self st))) else None) = Raise e).
Proof.
  unfold execute_data_range; unfold_monad; simpl.
  destruct (data_type_as_enum (self st)).
  - destruct (find_data_range imp _ _ _) as [r|e]; simpl.
    + by left.
    + right. split_and!; [done..|]. by exists e.
  - left.
    destruct (py_min _ _) as [lo|]; simpl; [|done].
    destruct (getitem lo 1); simpl; [|done].
    destruct (py_max _ _) as [hi|]; simpl; [|done].
    by destruct (getitem hi 1).
Qed.

(** What lines 89-149 can do: give up on the value range, having added
    the container and a report; or go on, adding objects and at most the
    axis call, and then not end [CANCELLED]. *)
Lemma execute_build_outcome st1 r st' :
  execute_build imp st1 = (r, st') →
  let st2 := (create_container st1).2 in
  (r = Ok CANCELLED ∧
   st' = (report "ERROR" "Cannot find data in this range!" st2).2 ∧
   data_type_as_enum (self st1) = Numerical ∧
   ∃ e, find_data_range imp (data (self st1)) (x_range (axis_settings (self st1)))
          (if decide (dimensions (self st1) = Dim3)
           then Some (y_range (axis_settings (self st1))) else None) = Raise e) ∨
  (r ≠ Ok CANCELLED ∧
   ∃ bars acs,
     st' = {| self := self st2; objects := objects st2 ++ bars;
              axis_calls := axis_calls st2 ++ acs; reports := reports st2 |}).
Proof.
  intros H st2. unfold execute_build in H.
  unfold mbind at 1 in H; unfold M_bind at 1 in H.
  change (create_container st1) with (Ok (), st2) in H. cbv beta iota in H.
  unfold mbind at 1 in H; unfold M_bind at 1 in H.
  destruct (execute_data_range_state st2) as [[Hst Hr]|(Hnum & Heq & e & He)].
  - right.
    destruct (execute_data_range imp st2) as [[[[data_min data_max]|]|e] st2'];
      simpl in Hst, Hr; subst st2'; [|done|].
    + unfold mbind at 1 in H; unfold M_bind at 1 in H.
      unfold get_self at 1 in H. cbv beta iota in H.
      unfold mbind at 1 in H; unfold M_bind at 1 in H. unfold lift at 1 in H.
      match type of H with
      | context [NodeShader imp ?a ?b ?c ?d] =>
          destruct (NodeShader imp a b c d) as [shader|e]
      end; cbv beta iota in H.
      * unfold mbind at 1 in H; unfold M_bind at 1 in H.
        rewrite execute_bars_eq in H.
        match type of H with
        | context [bars_pure imp ?a ?b ?c ?d ?e ?f ?g ?h] =>
            destruct (bars_pure imp a b c d e f g h) as [[tick_labels|e'] bars]
        end; cbv beta iota in H.
        -- unfold mbind at 1 in H; unfold M_bind at 1 in H.
           unfold execute_axis in H. unfold_monad; simpl in H.
           destruct (AxisFactory_create imp _); simpl in H;
             injection H as <- <-.
           ++ split; [done|]. by eexists bars, [_].
           ++ split; [done|]. exists bars, []. by rewrite app_nil_r.
        -- injection H as <- <-.
           split; [done|]. exists bars, []. by rewrite app_nil_r.
      * injection H as <- <-.
        split; [done|]. exists [], []. simpl. by rewrite !app_nil_r.
    + injection H as <- <-.
      split; [done|]. exists [], []. simpl. by rewrite !app_nil_r.
  - left. rewrite Heq in H. injection H as <- <-.
    by split_and!; [|..|exists e].
Qed.

(** Every run of [execute], by the place where it ends. *)
Lemma execute_outcome st r st' :
  execute imp dm st = (r, st') →
  ∃ r1 st1,
    (init_data dm;; execute_ranges imp) st = (r1, st1) ∧
    ((∃ e, r1 = Raise e ∧ r = Raise e ∧ st' = st1) ∨
     (r1 = Ok () ∧
      ∃ e, execute_dimension_mismatch st1 = (Raise e, st1) ∧
           r = Raise e ∧ st' = st1) ∨
     (r1 = Ok () ∧ execute_dimension_mismatch st1 = (Ok true, st1) ∧
      r = Ok CANCELLED ∧ st' = (report "ERROR" "Data are only 2D!" st1).2) ∨
     (r1 = Ok () ∧ execute_dimension_mismatch st1 = (Ok false, st1) ∧
      execute_build imp st1 = (r, st'))).
Proof.
  unfold execute. intros H.
  unfold mbind at 1 in H; unfold M_bind at 1 in H.
  unfold mbind at 1; unfold M_bind at 1.
  destruct (init_data dm st) as [[[]|e0] st0] eqn:H0; [|done].
  unfold mbind at 1 in H; unfold M_bind at 1 in H.
  destruct (execute_ranges imp st0) as [[[]|e1] st1] eqn:H1.
  - exists (Ok ()), st1. split; [done|]. right.
    unfold mbind at 1 in H; unfold M_bind at 1 in H.
    pose proof (execute_dimension_mismatch_state st1) as Hst1.
    destruct (execute_dimension_mismatch st1) as [[[]|e] st1'];
      simpl in Hst1; subst st1'.
    + right; left. split_and!; [done..| |].
      * by injection H as <- _.
      * by injection H as _ <-.
    + right; right. done.
    + left. split; [done|]. exists e. by injection H as <- <-.
  - exists (Raise e1), st1. split; [done|]. left. exists e1.
    by injection H as <- <-.
Qed.

(** With categorical data, lines 77-88 cannot fail: the dimensions are
    forced to ['2'], X ranges over the row indices, and the check of
    line 86 is passed. *)
Lemma execute_categorical st :
  data_type (self st) = Type1 →
  execute imp dm st =
  execute_build imp
    {| self := categorical_operator dm (self st); objects := objects st;
       axis_calls := axis_calls st; reports := reports st |}.
Proof.
  intros Ht. unfold execute, execute_ranges, data_type_as_enum,
    execute_dimension_mismatch, init_data.
  unfold_monad. simpl. rewrite Ht. simpl. reflexivity.
Qed.

(** [execute], by the outcome of lines 77-84 and of the check of line 86. *)
Lemma execute_unfold st :
  execute imp dm st =
  let '(r1, st1) := (init_data dm;; execute_ranges imp) st in
  match r1 with
  | Raise e => (Raise e, st1)
  | Ok _ =>
      let '(rm, stm) := execute_dimension_mismatch st1 in
      match rm with
      | Raise e => (Raise e, stm)
      | Ok true => (Ok CANCELLED, (report "ERROR" "Data are only 2D!" stm).2)
      | Ok false => execute_build imp stm
      end
  end.
Proof.
  unfold execute. unfold mbind, M_bind.
  unfold init_data, modify_self. cbv beta iota.
  destruct (execute_ranges imp _) as [[[]|e1] st1]; [|done].
  by destruct (execute_dimension_mismatch st1) as [[[]|e] st1'].
Qed.

(** Lines 77-84 run again on their own result, whatever the container
    handle: the same outcome, and nothing changes any more. *)
Lemma setup_again st r1 st1 c :
  (init_data dm;; execute_ranges imp) st = (r1, st1) →
  (init_data dm;; execute_ranges imp)
    (with_self (with_container_object c (self st1)) st1)
  = (r1, with_self (with_container_object c (self st1)) st1).
Proof.
  destruct st as [s objs acs reps].
  unfold init_data, execute_ranges, init_range, data_type_as_enum, with_self.
  unfold_monad. simpl.
  destruct (data_type s) eqn:Ht; simpl.
  - destruct (auto_ranges (axis_settings s)) eqn:Ha; simpl.
    + destruct (find_axis_range imp (parsed_data dm) 0) as [xr|e]; simpl.
      * destruct (find_axis_range imp (parsed_data dm) 1) as [yr|e]; simpl;
          intros [= <- <-]; simpl; rewrite Ht; simpl; rewrite Ha; reflexivity.
      * intros [= <- <-]; simpl. rewrite Ht; simpl. rewrite Ha. reflexivity.
    + intros [= <- <-]; simpl. rewrite Ht; simpl. rewrite Ha. reflexivity.
  - intros [= <- <-]; simpl. rewrite Ht; simpl. reflexivity.
Qed.

(** The check of line 86 and the container do not look at the handle of a
    former container. *)
Lemma execute_dimension_mismatch_container st c :
  execute_dimension_mismatch (with_self (with_container_object c (self st)) st)
  = ((execute_dimension_mismatch st).1,
     with_self (with_container_object c (self st)) st).
Proof.
  unfold execute_dimension_mismatch, with_self. unfold_monad. simpl.
  destruct (decide _); [|done]. by destruct (getitem _ _).
Qed.

Lemma execute_build_container st c :
  execute_build imp (with_self (with_container_object c (self st)) st)
  = execute_build imp st.
Proof. reflexivity. Qed.

Lemma with_self_eta st : with_self (self st) st = st.
Proof. by destruct st. Qed.

Lemma with_container_object_eta s :
  with_container_object (container_object s) s = s.
Proof. by destruct s. Qed.

(** A value range that was found, read back. *)
Lemma execute_data_range_value_range st data_min data_max st' :
  execute_data_range imp st = (Ok (Some (data_min, data_max)), st') →
  value_range_of imp (self st) data_min data_max.
Proof.
  unfold execute_data_range, value_range_of; unfold_monad; simpl.
  destruct (data_type_as_enum (self st)).
  - destruct (find_data_range imp _ _ _) as [[]|]; simpl; [|done].
    by intros [= -> -> _].
  - destruct (py_min _ _) as [lo|]; simpl; [|done].
    destruct (getitem lo 1) eqn:Hlo; simpl; [|done].
    destruct (py_max _ _) as [hi|]; simpl; [|done].
    destruct (getitem hi 1) eqn:Hhi; simpl; [|done].
    intros [= -> -> _]. by exists lo, hi.
Qed.

(** A finished run as a whole: the container, one bar for each retained row
    and one call of the axis factory. *)
Lemma finished_run st st' :
  execute imp dm st = (Ok FINISHED, st') →
  ∃ shader data_min data_max tick_labels container bars,
    data (self st') = parsed_data dm ∧
    data_type (self st') = data_type (self st) ∧
    labels (self st') = parsed_labels dm ∧
    value_range_of imp (self st') data_min data_max ∧
    reports st' = reports st ∧
    objects st' = objects st ++ container :: bars ∧
    type container = EMPTY ∧
    placements imp (self st') shader (value_index (self st')) data_min data_max
      0 (parsed_data dm) [] bars tick_labels ∧
    axis_calls st' = axis_calls st ++
      [axis_args (self st') data_min data_max tick_labels].
Proof.
  intros H. apply execute_finished in H
    as (st1 & data_min & data_max & shader & tick_labels & bars &
        H1 & Hm & Hr & Hs & Hb & Hf & Ha).
  apply setup_frame in H1 as (Hobjs & Hacs & Hreps & Hdata & Htype & Hlabels).
  apply execute_data_range_value_range in Hr.
  apply bars_pure_placements in Hb.
  injection Ha as <-.
  eexists shader, data_min, data_max, tick_labels, _, bars. simpl in *.
  rewrite Hdata in Hb.
  split_and!; [done..|by rewrite Hobjs, <-(assoc_L (++))|done|done|by rewrite Hacs].
Qed.

(** A run on categorical data: never [CANCELLED], no report, 2D, and X
    ranging over the row indices. *)
Lemma categorical_run st r st' :
  data_type (self st) = Type1 →
  execute imp dm st = (r, st') →
  r ≠ Ok CANCELLED ∧ reports st' = reports st ∧
  dimensions (self st') = Dim2 ∧
  x_range (axis_settings (self st'))
    = (0, Qc_of_Z (Z.of_nat (length (parsed_data dm)) - 1)).
Proof.
  intros Ht H. rewrite execute_categorical in H by done.
  apply execute_build_outcome in H as [(_ & _ & Hnum & _)|(? & ? & ? & ->)]; [|done].
  unfold data_type_as_enum in Hnum; simpl in Hnum. by rewrite Ht in Hnum.
Qed.

(** A run finishes when every step returns. *)
Lemma execute_runs_to_end st st1 data_min data_max :
  (init_data dm;; execute_ranges imp) st = (Ok (), st1) →
  execute_dimension_mismatch st1 = (Ok false, st1) →
  let st2 := (create_container st1).2 in
  let s := self st2 in
  execute_data_range imp st2 = (Ok (Some (data_min, data_max)), st2) →
  (∃ shader, NodeShader imp (color_shade (color_settings s))
               (color_type (color_settings s)) 2 (chart_origin s).2 = Ok shader) →
  (∀ j entry, data s !! j = Some entry →
     in_axis_range_bounds_new imp s entry = Ok false ∨
     (in_axis_range_bounds_new imp s entry = Ok true ∧
      ∀ tl, ∃ x y z tl1,
        bar_values imp s (value_index s) data_min data_max j entry tl
          = Ok (x, y, z, tl1))) →
  (∀ args, AxisFactory_create imp args = Ok ()) →
  ∃ st', execute imp dm st = (Ok FINISHED, st').
Proof.
  intros H1 Hm st2 s Hr [shader Hs] Hrows Hf.
  destruct (bars_pure_total imp s shader (value_index s) data_min data_max
              (data s) 0 []) as (tick_labels & bars & Hb); [done|].
  eexists. apply execute_finished.
  exists st1, data_min, data_max, shader, tick_labels, bars.
  split_and!; done.
Qed.
End BarChartRuns.

(** ** The clamp of the bar height *)

Lemma min_height_pos : 0 < min_height.
Proof. done. Qed.

Lemma raise_to_min_height_small z :
  0 ≤ z ≤ min_height → raise_to_min_height z = min_height.
Proof.
  intros [H0 H1]. unfold raise_to_min_height.
  by rewrite !bool_decide_eq_true_2.
Qed.

Lemma raise_to_min_height_other z :
  ¬ (0 ≤ z ≤ min_height) → raise_to_min_height z = z.
Proof.
  intros H. unfold raise_to_min_height.
  destruct (bool_decide (0 ≤ z)) eqn:H0; [|done].
  destruct (bool_decide (z ≤ min_height)) eqn:H1; [|done].
  apply bool_decide_eq_true in H0, H1. by destruct H.
Qed.

Lemma raise_to_min_height_nonzero z : raise_to_min_height z ≠ 0.
Proof.
  destruct (decide (0 ≤ z ≤ min_height)) as [H|H].
  - rewrite raise_to_min_height_small by done. done.
  - rewrite raise_to_min_height_other by done. intros ->.
    destruct H. split; [done|]. apply Qclt_le_weak, min_height_pos.
Qed.


(** The bars of a finished run, one by one: each comes from a row of the
    table, and its coordinates are the values [normalize_value] returned for
    that row. *)
Lemma finished_bars imp dm st st' :
  execute imp dm st = (Ok FINISHED, st') →
  ∃ s shader data_min data_max container bars,
    self st' = s ∧ data s = parsed_data dm ∧
    data_type s = data_type (self st) ∧
    objects st' = objects st ++ container :: bars ∧
    Forall (λ bar, ∃ i entry, parsed_data dm !! i = Some entry ∧
              bar_of_row imp s shader (value_index s) data_min data_max i entry bar)
      bars.
Proof.
  intros H. apply execute_finished in H
    as (st1 & data_min & data_max & shader & tick_labels & bars &
        H1 & Hm & Hr & Hs & Hb & Hf & Ha).
  apply setup_frame in H1 as (Hobjs & _ & _ & Hdata & Htype & _).
  injection Ha as <-.
  eexists _, shader, data_min, data_max, _, bars. simpl.
  split_and!; [done|done|done|by rewrite Hobjs, <-(assoc_L (++))|].
  apply bars_pure_placements, placements_Forall in Hb. simpl in Hb.
  by rewrite Hdata in Hb.
Qed.

(** C1.  In every finished run the bars are the rows the bounds check
    retained, one bar for each such row and in the order of the table.  The
    value of the row is normalised over the value range of the run, and the
    height of its bar (half of it as the scale, half of it as the height of
    the centre) is that result raised to 0.0001 when it lies in
    [0, 0.0001], so it is never 0; the X (and, in 3D, Y) position of the bar
    is the normalised value as [normalize_value] returned it, with no
    clamp. *)
Theorem value_axis_clamp_only imp dm st st' :
  execute imp dm st = (Ok FINISHED, st') →
  ∃ data_min data_max container bars,
    let s := self st' in
    value_range_of imp s data_min data_max ∧
    objects st' = objects st ++ container :: bars ∧
    Forall2 (λ entry bar, ∃ i e0 ev x z,
      parsed_data dm !! i = Some entry ∧
      entry !! 0%nat = Some e0 ∧ entry !! value_index s = Some ev ∧
      (* the value axis: clamped *)
      normalize_value imp ev data_min data_max = Ok z ∧
      (location bar).2 = raise_to_min_height z * half ∧
      (scale bar).2 = raise_to_min_height z * half ∧
      (0 ≤ z ≤ min_height → raise_to_min_height z = min_height) ∧
      (¬ (0 ≤ z ≤ min_height) → raise_to_min_height z = z) ∧
      raise_to_min_height z ≠ 0 ∧
      (* the positional axes: as normalised *)
      normalize_value imp
        (match data_type_as_enum s with
         | Numerical => e0
         | Categorical => VNum (Qc_of_Z (Z.of_nat i))
         end)
        (VNum (x_range (axis_settings s)).1) (VNum (x_range (axis_settings s)).2)
        = Ok x ∧
      (location bar).1.1 = x ∧
      match dimensions s with
      | Dim2 => (location bar).1.2 = 0
      | Dim3 => ∃ e1, entry !! 1%nat = Some e1 ∧
                  normalize_value imp e1 (VNum (y_range (axis_settings s)).1)
                    (VNum (y_range (axis_settings s)).2) = Ok (location bar).1.2
      end)
      (retained imp s (parsed_data dm)) bars.
Proof.
  intros H. apply finished_run in H
    as (shader & data_min & data_max & tick_labels & container & bars &
        _ & _ & _ & Hrange & _ & Hobjs & _ & Hbars & _).
  exists data_min, data_max, container, bars. split; [done|]. split; [done|].
  apply placements_retained in Hbars.
  eapply Forall2_impl; [exact Hbars|]. cbv beta.
  intros entry bar (i & Hi & tl & x & y & z & tl1 & _ & Hv & ->).
  apply bar_values_Ok in Hv as (e0 & ev & H0 & Hev & Hx & Hz & _ & Hy).
  exists i, e0, ev, x, z. simpl.
  split_and!; try done.
  - apply raise_to_min_height_small.
  - apply raise_to_min_height_other.
  - apply raise_to_min_height_nonzero.
Qed.

(** The table [low_high] over the X range [1, 9]: the first row, X = 1
    with the value 0, stands at X = 0 (no clamp) and gets the height
    0.0001, not 0; the last row, with the largest value, gets the height 1. *)
Lemma value_axis_clamp_only_witness :
  let st := Examples.scene (Examples.operator Dim2 Type0
                              (Examples.axis false (1, 9)%Z (0, 1)%Z)) in
  ∃ st' container bar1 bar5 bar9,
    execute SpecModel.imports Examples.low_high st = (Ok FINISHED, st') ∧
    objects st' = [container; bar1; bar5; bar9] ∧
    (location bar1).1.1 = 0 ∧
    (scale bar1).2 = min_height * half ∧
    (location bar1).2 = min_height * half ∧
    (scale bar9).2 = 1 * half.
Proof.
  intros st.
  destruct (execute SpecModel.imports Examples.low_high st) as [r st'] eqn:H.
  assert (r = Ok FINISHED) as ->.
  { change r with (r, st').1. rewrite <-H. vm_compute. reflexivity. }
  assert (self st' = with_container_object (Some 0%nat)
                       (with_data (parsed_data Examples.low_high)
                          (parsed_labels Examples.low_high) (self st)))
    as Hself.
  { change st' with (Ok FINISHED, st').2. rewrite <-H. vm_compute. reflexivity. }
  destruct (value_axis_clamp_only _ _ _ _ H)
    as (data_min & data_max & container & bars & Hrange & Hobjs & Hbars).
  clear H. cbv zeta in Hrange, Hbars. rewrite Hself in Hrange, Hbars. clear Hself.
  assert (data_min = Examples.num 0 ∧ data_max = Examples.num 14) as [-> ->].
  { unfold value_range_of in Hrange. vm_compute in Hrange.
    by injection Hrange as <- <-. }
  clear Hrange.
  assert (retained SpecModel.imports
            (with_container_object (Some 0%nat)
               (with_data (parsed_data Examples.low_high)
                  (parsed_labels Examples.low_high) (self st)))
            (parsed_data Examples.low_high)
          = parsed_data Examples.low_high) as Hret by (vm_compute; reflexivity).
  rewrite Hret in Hbars. clear Hret.
  apply Forall2_cons_inv_l in Hbars as (bar1 & bars1 & H1 & Hbars & ->).
  apply Forall2_cons_inv_l in Hbars as (bar5 & bars2 & _ & Hbars & ->).
  apply Forall2_cons_inv_l in Hbars as (bar9 & bars3 & H9 & Hbars & ->).
  apply Forall2_nil_inv_l in Hbars as ->.
  exists st', container, bar1, bar5, bar9.
  split; [reflexivity|]. split; [exact Hobjs|]. clear Hobjs.
  destruct H1 as (i1 & e0 & ev & x & z & _ & He0 & Hev & Hz & Hloc & Hscale &
                  Hsmall & _ & _ & Hx & Hlocx & _).
  destruct H9 as (i9 & e0' & ev' & x' & z' & _ & _ & Hev' & Hz' & _ & Hscale' &
                  _ & Hother & _).
  injection He0 as <-. injection Hev as <-. injection Hev' as <-.
  vm_compute in Hz. injection Hz as <-.
  vm_compute in Hx. injection Hx as <-.
  vm_compute in Hz'. injection Hz' as <-.
  split; [rewrite Hlocx; apply Qc_is_canon; reflexivity|].
  rewrite Hloc, Hscale, Hscale'.
  rewrite Hsmall by (split; intros Hc; vm_compute in Hc; discriminate Hc).
  split; [reflexivity|]. split; [reflexivity|].
  rewrite Hother.
  - f_equal; try (apply Qc_is_canon; reflexivity).
  - intros [_ Hc]. vm_compute in Hc. by apply Hc.
Defined.

(** ** Categorical data *)

(** C3.  With categorical data the requested dimensionality does not count:
    a run asked for 3D is the run asked for 2D.  It never ends [CANCELLED],
    it reports nothing (so not the ['Data are only 2D!'] of the dimension
    check), it leaves [dimensions = '2'], and when it finishes the axis
    factory is asked for 2 dimensions and every bar lies at Y = 0. *)
Theorem categorical_forces_2d imp dm st r st' :
  data_type (self st) = Type1 →
  execute imp dm st = (r, st') →
  execute imp dm
    {| self := with_dimensions Dim2 (self st); objects := objects st;
       axis_calls := axis_calls st; reports := reports st |} = (r, st') ∧
  execute imp dm
    {| self := with_dimensions Dim3 (self st); objects := objects st;
       axis_calls := axis_calls st; reports := reports st |} = (r, st') ∧
  r ≠ Ok CANCELLED ∧
  reports st' = reports st ∧
  dimensions (self st') = Dim2 ∧
  (r = Ok FINISHED →
   ∃ args container bars,
     axis_calls st' = axis_calls st ++ [args] ∧ ax_dim args = 2%Z ∧
     objects st' = objects st ++ container :: bars ∧
     Forall (λ bar, (location bar).1.2 = 0) bars).
Proof.
  intros Ht H.
  destruct (categorical_run imp dm st r st' Ht H) as (Hr & Hreps & Hd & _).
  split_and!; [| |done..|].
  - rewrite <-H, !execute_categorical by done. done.
  - rewrite <-H, !execute_categorical by done. done.
  - intros ->.
    assert (∃ args, axis_calls st' = axis_calls st ++ [args] ∧ ax_dim args = 2%Z)
      as (args & Hacs & Hargs).
    { pose proof H as Hf. apply execute_finished in Hf
        as (st1 & data_min & data_max & shader & tick_labels & bars &
            H1 & _ & _ & _ & _ & _ & Ha).
      apply setup_frame in H1 as (_ & Hacs & _).
      injection Ha as <-. eexists. split; [by rewrite <-Hacs|].
      simpl in Hd |- *. by rewrite Hd. }
    apply finished_bars in H
      as (s & shader & data_min & data_max & container & bars &
          <- & _ & _ & Hobjs & Hbars).
    exists args, container, bars. split_and!; [done..|].
    eapply Forall_impl; [exact Hbars|]. cbv beta.
    intros bar (i & entry & Hi & tl & x & y & z & tl1 & _ & Hv & ->).
    apply bar_values_Ok in Hv as (e0 & ev & _ & _ & _ & _ & _ & Hy).
    rewrite Hd in Hy. by subst y.
Qed.

Lemma categorical_forces_2d_witness :
  let st := Examples.scene (Examples.operator Dim3 Type1
                              (Examples.axis false (0, 1)%Z (0, 1)%Z)) in
  ∃ st',
    execute SpecModel.imports Examples.categories st = (Ok FINISHED, st') ∧
    reports st' = [] ∧ dimensions (self st') = Dim2 ∧
    ∃ args, axis_calls st' = [args] ∧ ax_dim args = 2%Z.
Proof.
  intros st.
  destruct (execute SpecModel.imports Examples.categories st) as [r st'] eqn:H.
  assert (r = Ok FINISHED) as ->.
  { change r with (r, st').1. rewrite <-H. vm_compute. reflexivity. }
  exists st'. split; [reflexivity|].
  destruct (categorical_forces_2d SpecModel.imports Examples.categories st
              (Ok FINISHED) st' eq_refl H)
    as (_ & _ & _ & Hreps & Hdim & Hfin).
  destruct (Hfin eq_refl) as (args & _ & _ & Hacs & Hargs & _).
  clear H Hfin.
  split_and!; [exact Hreps|exact Hdim|]. exists args. split; assumption.
Defined.

(** ** The dimension check *)

(** C4.  Numerical data, a 3D request and a table whose first row has fewer
    than three columns.  However the run ends, the scene is as it was: no
    container, no bar, no axis.  And once the ranges are set (line 80
    returned, or [auto_ranges] is off), the run ends [CANCELLED] with the
    error report ['Data are only 2D!']. *)
Theorem dimension_mismatch_cancels imp dm st row rows :
  data_type (self st) = Type0 →
  dimensions (self st) = Dim3 →
  parsed_data dm = row :: rows →
  (length row < 3)%nat →
  (∀ r st', execute imp dm st = (r, st') →
     r ≠ Ok FINISHED ∧ objects st' = objects st ∧ axis_calls st' = axis_calls st) ∧
  ((auto_ranges (axis_settings (self st)) = true →
    ∃ xr yr, find_axis_range imp (parsed_data dm) 0 = Ok xr ∧
             find_axis_range imp (parsed_data dm) 1 = Ok yr) →
   ∃ st',
     execute imp dm st = (Ok CANCELLED, st') ∧
     reports st' = reports st ++ [("ERROR", "Data are only 2D!")]).
Proof.
  intros Ht Hd Hrows Hlen.
  assert ((length row =? 3)%nat = false) as Hne by (apply Nat.eqb_neq; lia).
  split.
  - intros r st' H. apply execute_outcome in H as (r1 & st1 & H1 & Hcases).
    pose proof (setup_dimensions _ _ _ _ _ H1 Ht) as Hd1.
    apply setup_frame in H1 as (Hobjs & Hacs & _ & Hdata & _).
    assert (execute_dimension_mismatch st1 = (Ok true, st1)) as Hm.
    { unfold execute_dimension_mismatch, getitem. unfold_monad. simpl.
      rewrite Hd1, Hd, Hdata, Hrows. simpl. by rewrite Hne. }
    destruct Hcases as [(e & _ & -> & ->)|[(_ & e & _ & -> & ->)|
      [(_ & _ & -> & ->)|(_ & Hm' & _)]]]; [done..|].
    by rewrite Hm in Hm'.
  - intros Hauto.
    unfold execute, execute_ranges, init_range, data_type_as_enum,
      execute_dimension_mismatch, init_data, getitem.
    unfold_monad. simpl. rewrite Ht. simpl.
    destruct (auto_ranges (axis_settings (self st))).
    + destruct (Hauto eq_refl) as (xr & yr & -> & ->). simpl.
      rewrite Hd, Hrows. simpl. rewrite Hne. simpl. by eexists.
    + simpl. rewrite Hd, Hrows. simpl. rewrite Hne. simpl. by eexists.
Qed.

Lemma dimension_mismatch_cancels_witness :
  let st := Examples.scene (Examples.operator Dim3 Type0
                              (Examples.axis true (0, 1)%Z (0, 1)%Z)) in
  ∃ st',
    execute SpecModel.imports Examples.flat st = (Ok CANCELLED, st') ∧
    reports st' = reports st ++ [("ERROR", "Data are only 2D!")] ∧
    objects st' = objects st ∧
    axis_calls st' = axis_calls st.
Proof.
  intros st.
  destruct (dimension_mismatch_cancels SpecModel.imports Examples.flat st
              [Examples.num 1; Examples.num 10]
              [[Examples.num 2; Examples.num 20]]) as [Hscene Hrun];
    [reflexivity|reflexivity|reflexivity|simpl; lia|].
  destruct Hrun as (st' & H & Hreps).
  { intros _. eexists _, _. split; vm_compute; reflexivity. }
  destruct (Hscene _ _ H) as (_ & Hobjs & Hacs).
  exists st'. split_and!; assumption.
Defined.

(** ** Running the operator again *)

(** X19.  A run changes the operator itself ([data], the ranges,
    [dimensions], [container_object]).  Run again with the operator as the
    first run left it, on the scene as it was before, [execute] ends the
    same way, with the same exception if it raised, and leaves the same
    state: the same objects, axis call, reports and operator.  So what a
    run writes into the operator does not change what the next run
    builds. *)
Theorem execute_again_same imp dm st :
  execute imp dm (with_self (self (execute imp dm st).2) st) = execute imp dm st.
Proof.
  destruct (execute imp dm st) as [r st'] eqn:H. cbn [snd].
  pose proof H as Hcases.
  apply execute_outcome in Hcases as (r1 & st1 & H1 & Hcases).
  pose proof (setup_frame _ _ _ _ _ H1) as (Hobjs & Hacs & Hreps & _).
  assert (∀ s, with_self s st = with_self s st1) as Hscene.
  { intros s. unfold with_self. by rewrite Hobjs, Hacs, Hreps. }
  assert (∀ c, execute imp dm (with_self (with_container_object c (self st1)) st1)
               = match r1 with
                 | Raise e => (Raise e, with_self (with_container_object c (self st1)) st1)
                 | Ok _ =>
                     match (execute_dimension_mismatch st1).1 with
                     | Raise e =>
                         (Raise e, with_self (with_container_object c (self st1)) st1)
                     | Ok true =>
                         (Ok CANCELLED,
                          (report "ERROR" "Data are only 2D!"
                             (with_self (with_container_object c (self st1)) st1)).2)
                     | Ok false => execute_build imp st1
                     end
                 end) as Hrun.
  { intros c. rewrite execute_unfold, (setup_again _ _ _ _ _ c H1).
    destruct r1; [|done].
    rewrite execute_dimension_mismatch_container.
    by destruct (execute_dimension_mismatch st1).1 as [[]|]. }
  destruct Hcases as [(e & -> & -> & ->)|[(-> & e & Hm & -> & ->)|
    [(-> & Hm & -> & ->)|(-> & Hm & Hb)]]].
  - rewrite Hscene, <-(with_container_object_eta (self st1)), Hrun.
    by rewrite with_container_object_eta, with_self_eta.
  - rewrite Hscene, <-(with_container_object_eta (self st1)), Hrun, Hm.
    by rewrite with_container_object_eta, with_self_eta.
  - change (self (report "ERROR" "Data are only 2D!" st1).2) with (self st1).
    rewrite Hscene, <-(with_container_object_eta (self st1)), Hrun, Hm.
    by rewrite with_container_object_eta, with_self_eta.
  - assert (self st' = with_container_object (Some (length (objects st1))) (self st1))
      as ->.
    { pose proof Hb as Ho.
      apply execute_build_outcome in Ho as [(_ & -> & _)|(_ & ? & ? & ->)]; done. }
    by rewrite Hscene, Hrun, Hm.
Qed.

(** ** [min] and [max] over the value column *)

Section MinMaxColumn.
Context (better : Value → Value → result bool) (R : relation Qc).
Context `{!Reflexive R, !Transitive R}.
Context (Hbetter : ∀ x y, ∃ b : bool,
           better (VNum x) (VNum y) = Ok b ∧ if b then R x y else R y x).

Lemma min_max_loop_column rows :
  ∀ col best b,
  column 1 rows = Ok col →
  getitem best 1 = Ok (VNum b) →
  ∃ row m,
    min_max_loop better (λ val, getitem val 1) best (VNum b) rows = Ok row ∧
    getitem row 1 = Ok (VNum m) ∧ m ∈ b :: col ∧ ∀ x, x ∈ b :: col → R m x.
Proof.
  induction rows as [|r rows IH]; intros col best b Hcol Hbest; simpl in *.
  - injection Hcol as <-. exists best, b. split_and!; [done..|by left|].
    intros x ->%list_elem_of_singleton. reflexivity.
  - unfold mbind, result_bind in Hcol |- *.
    destruct (getitem r 1) as [[v|]|] eqn:Hr; simpl in Hcol; [|done..].
    destruct (column 1 rows) as [col'|] eqn:Hcol'; [|done].
    injection Hcol as <-.
    destruct (Hbetter v b) as (c & -> & Hc). destruct c.
    + destruct (IH col' r v eq_refl Hr) as (row & m & Hloop & Hrow & Hel & Hmin).
      exists row, m. split_and!; [done..|by right|].
      intros x [->|Hx]%elem_of_cons; [|by apply Hmin].
      trans v; [apply Hmin; by left|done].
    + destruct (IH col' best b eq_refl Hbest) as (row & m & Hloop & Hrow & Hel & Hmin).
      exists row, m. split_and!; [done..| |].
      { apply elem_of_cons in Hel as [->|Hel]; [by left|by do 2 right]. }
      intros x [->|[->|Hx]%elem_of_cons]%elem_of_cons.
      * apply Hmin; by left.
      * trans b; [apply Hmin; by left|done].
      * apply Hmin; by right.
Qed.

Lemma min_max_column rows v col :
  column 1 rows = Ok (v :: col) →
  ∃ row m,
    min_max better (λ val, getitem val 1) rows = Ok row ∧
    getitem row 1 = Ok (VNum m) ∧ m ∈ v :: col ∧ ∀ x, x ∈ v :: col → R m x.
Proof.
  destruct rows as [|r rows]; simpl; [done|].
  unfold mbind, result_bind.
  destruct (getitem r 1) as [[v'|]|] eqn:Hr; simpl; [|done..].
  destruct (column 1 rows) as [col'|] eqn:Hcol'; [|done].
  intros [= -> ->]. by apply min_max_loop_column.
Qed.
End MinMaxColumn.

Lemma py_min_column rows v col :
  column 1 rows = Ok (v :: col) →
  ∃ row m,
    py_min (λ val, getitem val 1) rows = Ok row ∧
    getitem row 1 = Ok (VNum m) ∧ m ∈ v :: col ∧ ∀ x, x ∈ v :: col → m ≤ x.
Proof.
  apply (min_max_column py_lt Qcle). intros x y. eexists. split; [done|].
  case_bool_decide; [by apply Qclt_le_weak|by apply Qcnot_lt_le].
Qed.

Lemma py_max_column rows v col :
  column 1 rows = Ok (v :: col) →
  ∃ row m,
    py_max (λ val, getitem val 1) rows = Ok row ∧
    getitem row 1 = Ok (VNum m) ∧ m ∈ v :: col ∧ ∀ x, x ∈ v :: col → x ≤ m.
Proof.
  apply (min_max_column py_gt (flip Qcle)). intros x y. eexists. split; [done|].
  unfold flip. case_bool_decide; [by apply Qclt_le_weak|by apply Qcnot_lt_le].
Qed.

(** The minimum and the maximum of a column are those [min] and [max]
    find. *)
Lemma value_range_of_categorical imp s col lo hi data_min data_max :
  data_type s = Type1 →
  column 1 (data s) = Ok col →
  lo ∈ col → (∀ x, x ∈ col → lo ≤ x) →
  hi ∈ col → (∀ x, x ∈ col → x ≤ hi) →
  value_range_of imp s data_min data_max ↔
  data_min = VNum lo ∧ data_max = VNum hi.
Proof.
  intros Ht Hcol Hlo Hlo_min Hhi Hhi_max.
  destruct col as [|v col]; [by apply elem_of_nil in Hlo|].
  destruct (py_min_column _ _ _ Hcol) as (rlo & lo' & Hmin & Hrlo & Hlo' & Hlo'_min).
  destruct (py_max_column _ _ _ Hcol) as (rhi & hi' & Hmax & Hrhi & Hhi' & Hhi'_max).
  assert (lo' = lo) as -> by (apply Qcle_antisym; auto).
  assert (hi' = hi) as -> by (apply Qcle_antisym; auto).
  unfold value_range_of, data_type_as_enum. rewrite Ht, Hmin, Hmax. split.
  - intros (? & ? & [= <-] & Ha & [= <-] & Hb).
    rewrite Hrlo in Ha. rewrite Hrhi in Hb.
    by injection Ha as <-; injection Hb as <-.
  - intros [-> ->]. by exists rlo, rhi.
Qed.

Lemma execute_data_range_categorical imp st data_min data_max :
  data_type (self st) = Type1 →
  value_range_of imp (self st) data_min data_max →
  execute_data_range imp st = (Ok (Some (data_min, data_max)), st).
Proof.
  intros Ht. unfold value_range_of, execute_data_range, data_type_as_enum.
  rewrite Ht. intros (lo & hi & Hmin & Hlo & Hmax & Hhi).
  unfold_monad. simpl. rewrite Ht, Hmin. simpl. rewrite Hlo. simpl.
  rewrite Hmax. simpl. by rewrite Hhi.
Qed.

(** C7.  Categorical data whose value column (index 1) holds the numbers
    [col], with minimum [lo] and maximum [hi].  Lines 98-99 find the range
    [(lo, hi)] in any state of the operator, whatever its [axis_settings];
    and in a finished run this is the range every bar height is normalised
    against and the value range handed to the axis factory. *)
Theorem categorical_value_range imp dm st col lo hi :
  data_type (self st) = Type1 →
  column 1 (parsed_data dm) = Ok col →
  lo ∈ col → (∀ x, x ∈ col → lo ≤ x) →
  hi ∈ col → (∀ x, x ∈ col → x ≤ hi) →
  (∀ st1, data_type (self st1) = Type1 → data (self st1) = parsed_data dm →
     execute_data_range imp st1 = (Ok (Some (VNum lo, VNum hi)), st1)) ∧
  (∀ st', execute imp dm st = (Ok FINISHED, st') →
     ∃ shader tick_labels container bars,
       axis_calls st' = axis_calls st ++
         [axis_args (self st') (VNum lo) (VNum hi) tick_labels] ∧
       objects st' = objects st ++ container :: bars ∧
       placements imp (self st') shader 1 (VNum lo) (VNum hi) 0
         (parsed_data dm) [] bars tick_labels).
Proof.
  intros Ht Hcol Hlo Hlo_min Hhi Hhi_max. split.
  - intros st1 Ht1 Hd1. apply execute_data_range_categorical; [done|].
    rewrite <-Hd1 in Hcol.
    by apply (value_range_of_categorical imp (self st1) col lo hi).
  - intros st' H. pose proof H as Hf. apply finished_run in Hf
      as (shader & data_min & data_max & tick_labels & container & bars &
          Hdata & Htype & _ & Hr & _ & Hobjs & _ & Hbars & Hacs).
    rewrite Ht in Htype. rewrite <-Hdata in Hcol.
    apply (value_range_of_categorical imp (self st') col lo hi) in Hr
      as [-> ->]; [|done..].
    assert (value_index (self st') = 1%nat) as Hvi.
    { unfold value_index.
      by destruct (categorical_run imp dm st (Ok FINISHED) st' Ht H)
        as (_ & _ & -> & _). }
    rewrite Hvi in Hbars. by exists shader, tick_labels, container, bars.
Qed.

Lemma categorical_value_range_witness :
  let st := Examples.scene (Examples.operator Dim2 Type1
                              (Examples.axis false (100, 200)%Z (0, 1)%Z)) in
  ∃ st' tick_labels,
    execute SpecModel.imports Examples.categories st = (Ok FINISHED, st') ∧
    axis_calls st' =
      [axis_args (self st') (Examples.num 2) (Examples.num 8) tick_labels].
Proof.
  intros st.
  destruct (categorical_value_range SpecModel.imports Examples.categories st
              [Qc_of_Z 4; Qc_of_Z 2; Qc_of_Z 8] (Qc_of_Z 2) (Qc_of_Z 8))
    as [_ Hrun].
  - reflexivity.
  - reflexivity.
  - set_solver.
  - intros x Hx. repeat (apply elem_of_cons in Hx as [->|Hx]); try done.
    by apply elem_of_nil in Hx.
  - set_solver.
  - intros x Hx. repeat (apply elem_of_cons in Hx as [->|Hx]); try done.
    by apply elem_of_nil in Hx.
  - destruct (execute SpecModel.imports Examples.categories st) as [r st'] eqn:H.
    assert (r = Ok FINISHED) as ->.
    { change r with (r, st').1. rewrite <-H. vm_compute. reflexivity. }
    destruct (Hrun st' eq_refl) as (shader & tick_labels & _ & _ & Hacs & _).
    clear H Hrun. exists st', tick_labels. split; [reflexivity|exact Hacs].
Defined.

(** ** Runs with the helpers of the specification *)

Lemma normalize_value_numbers v lo hi :
  hi - lo ≠ 0 →
  SpecModel.normalize_value (VNum v) (VNum lo) (VNum hi) = Ok ((v - lo) / (hi - lo)).
Proof.
  intros H. unfold SpecModel.normalize_value. simpl. by rewrite decide_False.
Qed.

Lemma Qc_lt_minus_ne lo hi : lo < hi → hi - lo ≠ 0.
Proof.
  intros Hlt Heq. assert (hi = lo) as -> by (rewrite <-(Qcplus_0_l lo), <-Heq; ring).
  by apply Qclt_not_eq in Hlt.
Qed.

Lemma Qc_ne_minus_ne lo hi : lo ≠ hi → hi - lo ≠ 0.
Proof.
  intros Hne Heq. apply Hne.
  by assert (hi = lo) as -> by (rewrite <-(Qcplus_0_l lo), <-Heq; ring).
Qed.

Lemma running_range_le lo hi col lo' hi' :
  lo ≤ hi → SpecModel.running_range lo hi col = (lo', hi') → lo' ≤ hi'.
Proof.
  revert lo hi. induction col as [|v col IH]; intros lo hi Hle; simpl.
  - by intros [= <- <-].
  - apply IH. unfold SpecModel.Qc_min, SpecModel.Qc_max.
    repeat case_bool_decide; try done.
    by apply Qclt_le_weak, Qclt_nge.
Qed.

(** §4.2: a resolved range is never degenerate. *)
Lemma resolve_lt v col :
  ∃ lo hi, SpecModel.resolve (v :: col) = Ok (lo, hi) ∧ lo < hi.
Proof.
  unfold SpecModel.resolve.
  destruct (SpecModel.running_range v v col) as [lo hi] eqn:Hrun.
  apply running_range_le in Hrun; [|done].
  destruct (decide (lo = hi)) as [->|Hne].
  - eexists _, _. split; [done|].
    apply Qclt_minus_iff.
    replace (hi + half + - (hi - half)) with (Q2Qc 1) by (unfold half; ring_simplify; apply Qc_is_canon; reflexivity).
    done.
  - exists lo, hi. split; [done|]. by apply Qcle_lt_or_eq in Hrun as [|].
Qed.

Section NumericRows.
Import SpecModel.
Context (s : OBJECT_OT_BarChart).

Lemma row_in_bounds_numeric qs :
  length qs = arity s →
  row_in_bounds (x_range (axis_settings s)) (range_y_in_use s) (numeric_row qs)
  = Ok (inside s qs).
Proof.
  unfold arity, range_y_in_use, row_in_bounds, inside, numeric_row, getitem.
  unfold mbind, result_bind.
  destruct qs as [|x [|y qs]]; simpl; destruct (dimensions s); simpl; try done.
  - destruct (in_range _ x); simpl; [|done]. by intros _.
  - destruct (in_range _ x); simpl; done.
Qed.

Lemma in_axis_range_bounds_new_numeric qs :
  data_type s = Type0 → length qs = arity s →
  in_axis_range_bounds_new s (numeric_row qs) = Ok (inside s qs).
Proof.
  intros Ht Hlen. unfold in_axis_range_bounds_new. rewrite Ht.
  by apply row_in_bounds_numeric.
Qed.

Lemma column_numeric c rows :
  Forall (λ qs, (c < length qs)%nat) rows →
  ∃ col, column c (numeric_row <$> rows) = Ok col ∧ length col = length rows.
Proof.
  induction 1 as [|qs rows Hqs _ (col & IH & Hlen)]; [by exists []|].
  rewrite fmap_cons. cbn [column]. rewrite IH.
  unfold getitem, numeric_row. rewrite list_lookup_fmap.
  destruct (lookup_lt_is_Some_2 qs c Hqs) as [v ->]. simpl.
  exists (v :: col). split; [done|]. simpl. by rewrite Hlen.
Qed.

(** The value range of a table with rows is found, and it is not
    degenerate. *)
Lemma find_data_range_numeric rows :
  rows ≠ [] →
  Forall (λ qs, length qs = arity s) rows →
  ∃ lo hi,
    find_data_range (numeric_row <$> rows) (x_range (axis_settings s))
      (range_y_in_use s) = Ok (VNum lo, VNum hi) ∧ lo < hi.
Proof.
  intros Hne Hrows. unfold find_data_range.
  destruct (column_numeric
              (match range_y_in_use s with Some _ => 2 | None => 1 end)%nat
              rows) as (col & -> & Hlen).
  { eapply Forall_impl; [exact Hrows|]. cbv beta. intros qs ->.
    unfold arity, range_y_in_use. destruct (dimensions s); simpl; lia. }
  simpl. destruct col as [|v col]; [by destruct rows|].
  destruct (resolve_lt v col) as (lo & hi & -> & Hlt). simpl. by exists lo, hi.
Qed.
End NumericRows.

Lemma retained_numeric s rows :
  data_type s = Type0 →
  Forall (λ qs, length qs = SpecModel.arity s) rows →
  retained SpecModel.imports s (SpecModel.numeric_row <$> rows)
  = SpecModel.numeric_row <$> filter (λ qs, SpecModel.inside s qs) rows.
Proof.
  intros Ht. unfold retained.
  induction 1 as [|qs rows Hqs _ IH]; [done|].
  rewrite fmap_cons.
  pose proof (in_axis_range_bounds_new_numeric s qs Ht Hqs) as Hin.
  change (in_axis_range_bounds_new SpecModel.imports)
    with SpecModel.in_axis_range_bounds_new in *.
  destruct (SpecModel.inside s qs) eqn:Hi.
  - assert (filter (λ qs, SpecModel.inside s qs) (qs :: rows)
            = qs :: filter (λ qs, SpecModel.inside s qs) rows) as ->
      by (apply filter_cons_True; rewrite Hi; exact I).
    rewrite filter_cons_True by done. by rewrite IH.
  - assert (filter (λ qs, SpecModel.inside s qs) (qs :: rows)
            = filter (λ qs, SpecModel.inside s qs) rows) as ->
      by (apply filter_cons_False; rewrite Hi; intros []).
    rewrite filter_cons_False by (by rewrite Hin). by rewrite IH.
Qed.

(** A numeric row of the right width gives all its values. *)
Lemma bar_values_numeric s qs lo hi j tl :
  data_type s = Type0 →
  length qs = SpecModel.arity s →
  (x_range (axis_settings s)).1 ≠ (x_range (axis_settings s)).2 →
  (dimensions s = Dim3 →
   (y_range (axis_settings s)).1 ≠ (y_range (axis_settings s)).2) →
  lo < hi →
  ∃ x y z,
    bar_values SpecModel.imports s (value_index s) (VNum lo) (VNum hi) j
      (SpecModel.numeric_row qs) tl = Ok (x, y, z, tl).
Proof.
  intros Ht Hlen Hx Hy Hz.
  apply Qc_ne_minus_ne in Hx. apply Qc_lt_minus_ne in Hz.
  unfold bar_values, data_type_as_enum, value_index, SpecModel.arity in *.
  rewrite Ht. unfold mbind, mret, result_bind, result_ret, getitem.
  change (normalize_value SpecModel.imports) with SpecModel.normalize_value.
  destruct (dimensions s) eqn:Hd; simpl in *.
  - destruct qs as [|x [|y [|z [|? ?]]]]; try done. simpl.
    rewrite !normalize_value_numbers by (done || by apply Qc_ne_minus_ne, Hy).
    by eexists _, _, _.
  - destruct qs as [|x [|z [|? ?]]]; try done. simpl.
    rewrite !normalize_value_numbers by done.
    by eexists _, _, _.
Qed.

(** A numerical chart over explicit ranges that are not a single point, on
    a table of numeric rows that is not empty: the run finishes and reports
    nothing, and its bars are the rows inside the ranges, one for each and
    in the order of the table. *)
Lemma bounds_filter_rows dm st rows :
  data_type (self st) = Type0 →
  auto_ranges (axis_settings (self st)) = false →
  parsed_data dm = SpecModel.numeric_row <$> rows →
  rows ≠ [] →
  Forall (λ qs, length qs = SpecModel.arity (self st)) rows →
  (x_range (axis_settings (self st))).1 ≠ (x_range (axis_settings (self st))).2 →
  (dimensions (self st) = Dim3 →
   (y_range (axis_settings (self st))).1 ≠ (y_range (axis_settings (self st))).2) →
  ∃ st' container bars,
    execute SpecModel.imports dm st = (Ok FINISHED, st') ∧
    reports st' = reports st ∧
    objects st' = objects st ++ container :: bars ∧
    Forall2 (λ qs bar, ∃ x,
               qs !! 0%nat = Some x ∧
               type bar = MESH ∧
               (location bar).1.1 =
                 (x - (x_range (axis_settings (self st))).1) /
                 ((x_range (axis_settings (self st))).2 -
                  (x_range (axis_settings (self st))).1))
      (filter (λ qs, SpecModel.inside (self st) qs) rows) bars.
Proof.
  intros Ht Ha Hdata Hne Hrows Hx Hy.
  set (st1 := with_self (with_data (parsed_data dm) (parsed_labels dm) (self st)) st).
  assert ((init_data dm;; execute_ranges SpecModel.imports) st = (Ok (), st1)) as H1.
  { unfold init_data, execute_ranges, data_type_as_enum. unfold_monad. simpl.
    rewrite Ht. simpl. by rewrite Ha. }
  assert (execute_dimension_mismatch st1 = (Ok false, st1)) as Hm.
  { unfold execute_dimension_mismatch, getitem. unfold_monad. simpl.
    destruct (decide _) as [Hd|]; [|done]. rewrite Hdata.
    destruct rows as [|qs0 rows']; [done|].
    apply Forall_cons in Hrows as [Hlen _].
    unfold SpecModel.arity in Hlen. rewrite Hd in Hlen.
    simpl. unfold SpecModel.numeric_row. by rewrite length_fmap, Hlen. }
  set (st2 := (create_container st1).2). set (s := self st2).
  assert (SpecModel.inside s = SpecModel.inside (self st)) as Hinside by done.
  assert (SpecModel.arity s = SpecModel.arity (self st)) as Harity by done.
  assert (data_type s = Type0) as Hts by done.
  destruct (find_data_range_numeric (self st) rows Hne Hrows)
    as (lo & hi & Hfd & Hlt).
  assert (execute_data_range SpecModel.imports st2
          = (Ok (Some (VNum lo, VNum hi)), st2)) as Hr.
  { unfold execute_data_range, data_type_as_enum. unfold_monad.
    change (data_type (self st2)) with (data_type (self st)). rewrite Ht.
    change (find_data_range SpecModel.imports (data (self st2))
              (x_range (axis_settings (self st2)))
              (if decide (dimensions (self st2) = Dim3)
               then Some (y_range (axis_settings (self st2))) else None))
      with (SpecModel.find_data_range (parsed_data dm)
              (x_range (axis_settings (self st)))
              (SpecModel.range_y_in_use (self st))).
    by rewrite Hdata, Hfd. }
  destruct (bars_pure_total SpecModel.imports s 0%N (value_index s)
              (VNum lo) (VNum hi) (data s) 0 []) as (tick_labels & bars & Hb).
  { intros j entry. change (data s) with (parsed_data dm). rewrite Hdata.
    intros (qs & -> & Hqs)%list_lookup_fmap_Some.
    apply list_elem_of_lookup_2 in Hqs. rewrite Forall_forall in Hrows.
    change (in_axis_range_bounds_new SpecModel.imports)
      with SpecModel.in_axis_range_bounds_new.
    rewrite in_axis_range_bounds_new_numeric by (done || by apply Hrows).
    destruct (SpecModel.inside s qs); [right|by left]. split; [done|].
    intros tl.
    destruct (bar_values_numeric s qs lo hi (0 + j) tl) as (x & y & z & ->);
      [done|by apply Hrows|done..|by exists x, y, z, tl]. }
  eexists _, _, bars. split_and!.
  - apply execute_finished.
    exists st1, (VNum lo), (VNum hi), 0%N, tick_labels, bars.
    split_and!; done.
  - done.
  - simpl. by rewrite <-(assoc_L (++)).
  - apply bars_pure_placements, placements_retained in Hb.
    change (data s) with (parsed_data dm) in Hb.
    rewrite Hdata, retained_numeric, Hinside in Hb by (done || by rewrite Harity).
    apply Forall2_fmap_l in Hb.
    eapply Forall2_impl; [exact Hb|]. cbv beta.
    intros qs bar (j & _ & tl & x & y & z & tl1 & _ & Hv & ->).
    apply bar_values_Ok in Hv as (e0 & ev & H0 & _ & Hxn & _).
    unfold SpecModel.numeric_row in H0. rewrite list_lookup_fmap in H0.
    destruct (qs !! 0%nat) as [x0|]; [|done]. injection H0 as <-.
    exists x0. split_and!; [done..|].
    unfold data_type_as_enum in Hxn. rewrite Hts in Hxn.
    change (normalize_value SpecModel.imports) with SpecModel.normalize_value in Hxn.
    rewrite normalize_value_numbers in Hxn by (by apply Qc_ne_minus_ne).
    by injection Hxn as <-.
Qed.

(** C2, as the code has it, with the helpers of the specification.  A
    numerical chart over explicit ranges (the bounds filter) that are not a
    single point, on a table of numeric rows.  When the table has a row,
    the run finishes and reports nothing; a row outside the ranges leaves
    no bar, and each row inside leaves exactly one, in the order of the
    table, at the normalised X of that row.  This holds too when no row is
    inside: the chart is then empty.  A table without rows has no row to
    place, and its run adds no bar: any object it adds is an empty. *)
Theorem bounds_filter_keeps_rows_in_range dm st rows :
  data_type (self st) = Type0 →
  auto_ranges (axis_settings (self st)) = false →
  parsed_data dm = SpecModel.numeric_row <$> rows →
  Forall (λ qs, length qs = SpecModel.arity (self st)) rows →
  (x_range (axis_settings (self st))).1 ≠ (x_range (axis_settings (self st))).2 →
  (dimensions (self st) = Dim3 →
   (y_range (axis_settings (self st))).1 ≠ (y_range (axis_settings (self st))).2) →
  (rows ≠ [] →
   ∃ st' container bars,
     execute SpecModel.imports dm st = (Ok FINISHED, st') ∧
     reports st' = reports st ∧
     objects st' = objects st ++ container :: bars ∧
     Forall2 (λ qs bar, ∃ x,
                qs !! 0%nat = Some x ∧
                type bar = MESH ∧
                (location bar).1.1 =
                  (x - (x_range (axis_settings (self st))).1) /
                  ((x_range (axis_settings (self st))).2 -
                   (x_range (axis_settings (self st))).1))
       (filter (λ qs, SpecModel.inside (self st) qs) rows) bars) ∧
  (rows = [] →
   ∃ r st' added,
     execute SpecModel.imports dm st = (r, st') ∧
     r ≠ Ok FINISHED ∧
     objects st' = objects st ++ added ∧
     Forall (λ o, type o = EMPTY) added).
Proof.
  intros Ht Ha Hdata Hrows Hx Hy. split.
  - intros Hne. by apply bounds_filter_rows.
  - intros ->. rewrite fmap_nil in Hdata.
    pose proof (execute_outcome SpecModel.imports dm st) as Hcases.
    destruct (execute SpecModel.imports dm st) as [r st'].
    destruct (Hcases r st' eq_refl) as (r1 & st1 & H1 & Hrun). clear Hcases.
    apply setup_frame in H1 as (Hobjs & _ & _ & Hd1 & Ht1 & _).
    exists r, st'.
    destruct Hrun as [(e & _ & -> & ->)|[(_ & e & _ & -> & ->)|
      [(_ & _ & -> & ->)|(_ & _ & Hb)]]].
    + exists []. split_and!; [done|done|by rewrite app_nil_r|done].
    + exists []. split_and!; [done|done|by rewrite app_nil_r|done].
    + exists []. split_and!; [done|done|by rewrite app_nil_r|done].
    + pose (st2 := (create_container st1).2).
      assert (execute_data_range SpecModel.imports st2
              = (Ok None, (report "ERROR" "Cannot find data in this range!" st2).2))
        as Hr.
      { unfold execute_data_range, data_type_as_enum. unfold_monad. simpl.
        rewrite Ht1, Ht, Hd1, Hdata. simpl. done. }
      unfold execute_build in Hb.
      unfold mbind at 1 in Hb; unfold M_bind at 1 in Hb.
      change (create_container st1) with (Ok (), st2) in Hb. cbv beta iota in Hb.
      unfold mbind at 1 in Hb; unfold M_bind at 1 in Hb.
      rewrite Hr in Hb. injection Hb as <- <-.
      eexists [_]. split_and!; [done|done|simpl; by rewrite Hobjs|].
      by repeat constructor.
Qed.

(** The rows X = 1, 3, 5, 9 over the X range [2, 8]: two bars, for X = 3
    and X = 5; over the X range [10, 20]: no bar, and no report. *)
Lemma bounds_filter_keeps_rows_in_range_witness :
  let st := Examples.scene (Examples.operator Dim2 Type0
                              (Examples.axis false (2, 8)%Z (0, 1)%Z)) in
  (∃ st' container bar3 bar5,
     execute SpecModel.imports Examples.four_rows st = (Ok FINISHED, st') ∧
     reports st' = [] ∧
     objects st' = [container; bar3; bar5] ∧
     (location bar3).1.1 = Q2Qc (1 # 6) ∧
     (location bar5).1.1 = Q2Qc (1 # 2)) ∧
  (∃ st' container,
     execute SpecModel.imports Examples.four_rows Examples.out_of_range
       = (Ok FINISHED, st') ∧
     reports st' = [] ∧ objects st' = [container]).
Proof.
  intros st. split.
  - destruct (bounds_filter_keeps_rows_in_range Examples.four_rows st
                [[Qc_of_Z 1; Qc_of_Z 10]; [Qc_of_Z 3; Qc_of_Z 20];
                 [Qc_of_Z 5; Qc_of_Z 30]; [Qc_of_Z 9; Qc_of_Z 40]])
      as [Hrows _].
    + reflexivity.
    + reflexivity.
    + reflexivity.
    + repeat constructor.
    + intros Heq. vm_compute in Heq. discriminate Heq.
    + intros [=].
    + destruct Hrows as (st' & container & bars & H & Hreps & Hobjs & Hbars);
        [discriminate|].
      revert Hbars.
      assert (filter (λ qs, SpecModel.inside (self st) qs)
                [[Qc_of_Z 1; Qc_of_Z 10]; [Qc_of_Z 3; Qc_of_Z 20];
                 [Qc_of_Z 5; Qc_of_Z 30]; [Qc_of_Z 9; Qc_of_Z 40]]
              = [[Qc_of_Z 3; Qc_of_Z 20]; [Qc_of_Z 5; Qc_of_Z 30]]) as ->
        by (vm_compute; reflexivity).
      intros Hbars.
      apply Forall2_cons_inv_l in Hbars
        as (bar3 & bars1 & (x3 & [= <-] & _ & H3) & Hbars & ->).
      apply Forall2_cons_inv_l in Hbars
        as (bar5 & bars2 & (x5 & [= <-] & _ & H5) & Hbars & ->).
      apply Forall2_nil_inv_l in Hbars as ->.
      exists st', container, bar3, bar5.
      split_and!; [exact H|exact Hreps|exact Hobjs| |].
      * rewrite H3. apply Qc_is_canon. reflexivity.
      * rewrite H5. apply Qc_is_canon. reflexivity.
  - destruct (bounds_filter_keeps_rows_in_range Examples.four_rows
                Examples.out_of_range
                [[Qc_of_Z 1; Qc_of_Z 10]; [Qc_of_Z 3; Qc_of_Z 20];
                 [Qc_of_Z 5; Qc_of_Z 30]; [Qc_of_Z 9; Qc_of_Z 40]])
      as [Hrows _].
    + reflexivity.
    + reflexivity.
    + reflexivity.
    + repeat constructor.
    + intros Heq. vm_compute in Heq. discriminate Heq.
    + intros [=].
    + destruct Hrows as (st' & container & bars & H & Hreps & Hobjs & Hbars);
        [discriminate|].
      revert Hbars.
      assert (filter (λ qs, SpecModel.inside (self Examples.out_of_range) qs)
                [[Qc_of_Z 1; Qc_of_Z 10]; [Qc_of_Z 3; Qc_of_Z 20];
                 [Qc_of_Z 5; Qc_of_Z 30]; [Qc_of_Z 9; Qc_of_Z 40]]
              = []) as -> by (vm_compute; reflexivity).
      intros Hbars. apply Forall2_nil_inv_l in Hbars as ->.
      exists st', container. split_and!; [exact H|exact Hreps|exact Hobjs].
Defined.

(** C2 as the specification states it does not hold for an explicit range
    that is a single point: over the X range [3, 3] the row X = 3 lies
    inside the range, and instead of giving it a placement the run ends with
    [ZeroDivisionError] (the normalisation of its X divides by the span of
    the range). *)
Lemma bounds_filter_counterexample :
  let st := Examples.scene (Examples.operator Dim2 Type0
                              (Examples.axis false (3, 3)%Z (0, 1)%Z)) in
  SpecModel.inside (self st) [Qc_of_Z 3; Qc_of_Z 20] = true ∧
  ¬ bounds_filter_as_stated Examples.four_rows st
      [[Qc_of_Z 1; Qc_of_Z 10]; [Qc_of_Z 3; Qc_of_Z 20];
       [Qc_of_Z 5; Qc_of_Z 30]; [Qc_of_Z 9; Qc_of_Z 40]].
Proof.
  intros st. split; [vm_compute; reflexivity|].
  intros (st' & container & bars & H & _).
  assert ((execute SpecModel.imports Examples.four_rows st).1
          = Raise ZeroDivisionError) as Hr by (vm_compute; reflexivity).
  rewrite H in Hr. discriminate Hr.
Qed.

(** ** Categorical charts with the helpers of the specification *)

Lemma column_category_rows cats :
  column 1 (SpecModel.category_row <$> cats) = Ok (snd <$> cats).
Proof.
  induction cats as [|c cats IH]; [done|].
  rewrite !fmap_cons. cbn [column]. rewrite IH. reflexivity.
Qed.

Lemma in_axis_range_bounds_new_categorical s entry :
  data_type s = Type1 →
  in_axis_range_bounds_new SpecModel.imports s entry = Ok true.
Proof.
  intros Ht. change (SpecModel.in_axis_range_bounds_new s entry = Ok true).
  unfold SpecModel.in_axis_range_bounds_new. by rewrite Ht.
Qed.

Lemma Qc_div_minus_0 a b : (a - 0) / (b - 0) = a / b.
Proof.
  replace (a - 0) with a by ring. by replace (b - 0) with b by ring.
Qed.

Lemma bar_values_category s c lo hi m j tl :
  data_type s = Type1 →
  dimensions s = Dim2 →
  x_range (axis_settings s) = (0, m) → m ≠ 0 →
  lo < hi →
  bar_values SpecModel.imports s 1 (VNum lo) (VNum hi) j
    (SpecModel.category_row c) tl
  = Ok (Qc_of_Z (Z.of_nat j) / m, 0, (c.2 - lo) / (hi - lo), tl ++ [c.1]).
Proof.
  intros Ht Hd Hx Hm Hz. apply Qc_lt_minus_ne in Hz.
  unfold bar_values, data_type_as_enum. rewrite Ht, Hd, Hx.
  unfold mbind, mret, result_bind, result_ret, getitem.
  change (normalize_value SpecModel.imports) with SpecModel.normalize_value.
  simpl. rewrite !normalize_value_numbers; [|done|].
  - simpl. by rewrite Qc_div_minus_0.
  - by replace (m - 0) with m by ring.
Qed.

(** C5.  A categorical chart of [n >= 2] rows whose values are not all
    equal, with the helpers of the specification.  The run finishes; the X
    range is [0, n-1]; there is one bar for each row, in the order of the
    table, and the bar of row [i] stands at the normalised value of the
    raw X [i] over that range, which is [i / (n-1)]. *)
Theorem categorical_positions dm st cats lo hi :
  data_type (self st) = Type1 →
  parsed_data dm = SpecModel.category_row <$> cats →
  (2 ≤ length cats)%nat →
  lo ∈ snd <$> cats → (∀ x, x ∈ snd <$> cats → lo ≤ x) →
  hi ∈ snd <$> cats → (∀ x, x ∈ snd <$> cats → x ≤ hi) →
  lo < hi →
  let n := Z.of_nat (length cats) in
  ∃ st' container bars,
    execute SpecModel.imports dm st = (Ok FINISHED, st') ∧
    x_range (axis_settings (self st')) = (0, Qc_of_Z (n - 1)) ∧
    objects st' = objects st ++ container :: bars ∧
    length bars = length cats ∧
    ∀ i bar, bars !! i = Some bar →
      SpecModel.normalize_value (VNum (Qc_of_Z (Z.of_nat i)))
        (VNum (x_range (axis_settings (self st'))).1)
        (VNum (x_range (axis_settings (self st'))).2)
        = Ok (location bar).1.1 ∧
      (location bar).1.1 = Qc_of_Z (Z.of_nat i) / Qc_of_Z (n - 1).
Proof.
  intros Ht Hdata Hn Hlo Hlo_min Hhi Hhi_max Hlt n.
  set (st1 := with_self (categorical_operator dm (self st)) st).
  assert ((init_data dm;; execute_ranges SpecModel.imports) st = (Ok (), st1)) as H1.
  { unfold init_data, execute_ranges, data_type_as_enum. unfold_monad. simpl.
    by rewrite Ht. }
  assert (execute_dimension_mismatch st1 = (Ok false, st1)) as Hm by done.
  set (st2 := (create_container st1).2). set (s := self st2).
  assert (data_type s = Type1) as Hts by done.
  assert (x_range (axis_settings s) = (0, Qc_of_Z (n - 1))) as Hxr.
  { subst n. simpl. by rewrite Hdata, length_fmap. }
  assert (Qc_of_Z (n - 1) ≠ 0) as Hn1.
  { rewrite <-Z2Qc_inj_0. intros ?%Z2Qc_inj. lia. }
  assert (execute_data_range SpecModel.imports st2
          = (Ok (Some (VNum lo, VNum hi)), st2)) as Hr.
  { apply execute_data_range_categorical; [done|].
    apply (value_range_of_categorical _ s (snd <$> cats) lo hi); try done.
    change (data s) with (parsed_data dm).
    rewrite Hdata. apply column_category_rows. }
  assert (∀ j entry, data s !! j = Some entry →
            ∃ c, entry = SpecModel.category_row c) as Hrow.
  { intros j entry. change (data s) with (parsed_data dm). rewrite Hdata.
    intros (c & -> & _)%list_lookup_fmap_Some. by exists c. }
  destruct (bars_pure_total SpecModel.imports s 0%N (value_index s)
              (VNum lo) (VNum hi) (data s) 0 []) as (tick_labels & bars & Hb).
  { intros j entry [c ->]%Hrow. right.
    split; [by apply in_axis_range_bounds_new_categorical|]. intros tl.
    eexists _, _, _, _. by apply (bar_values_category s c lo hi (Qc_of_Z (n - 1))). }
  apply bars_pure_placements in Hb.
  destruct (placements_all_retained _ _ _ _ _ _ _ _ _ _ _ Hb) as [Hlen Hbars];
    [intros; by apply in_axis_range_bounds_new_categorical|].
  set (st' := (record_axis_call (axis_args s (VNum lo) (VNum hi) tick_labels)
                 (add_objects bars st2)).2).
  assert (self st' = s) as Hself by done.
  eexists st', _, bars. split_and!.
  - apply execute_finished.
    exists st1, (VNum lo), (VNum hi), 0%N, tick_labels, bars.
    split; [exact H1|]. split; [exact Hm|]. cbv zeta.
    split_and!; [exact Hr|done|by apply bars_pure_placements|done..].
  - by rewrite Hself.
  - simpl. by rewrite <-(assoc_L (++)).
  - rewrite Hlen. change (data s) with (parsed_data dm).
    by rewrite Hdata, length_fmap.
  - intros i bar Hi.
    destruct (Hbars i bar Hi)
      as (entry & [c ->]%Hrow & tl & x & y & z & tl1 & _ & Hv & ->).
    rewrite (bar_values_category s c lo hi (Qc_of_Z (n - 1))) in Hv by done.
    injection Hv as <- <- <- <-.
    rewrite Hself, Hxr. cbn [fst snd location bar_object].
    rewrite normalize_value_numbers by (by replace (Qc_of_Z (n - 1) - 0)
                                             with (Qc_of_Z (n - 1)) by ring).
    by rewrite Qc_div_minus_0.
Qed.

Lemma categorical_positions_witness :
  let st := Examples.scene (Examples.operator Dim3 Type1
                              (Examples.axis false (5, 7)%Z (0, 1)%Z)) in
  ∃ st' container bar0 bar1 bar2,
    execute SpecModel.imports Examples.categories st = (Ok FINISHED, st') ∧
    x_range (axis_settings (self st')) = (0, Qc_of_Z 2) ∧
    objects st' = [container; bar0; bar1; bar2] ∧
    (location bar0).1.1 = 0 ∧
    (location bar1).1.1 = Q2Qc (1 # 2) ∧
    (location bar2).1.1 = 1.
Proof.
  intros st.
  destruct (categorical_positions Examples.categories st
              [(VStr "B", Qc_of_Z 4); (VStr "A", Qc_of_Z 2); (VStr "C", Qc_of_Z 8)]
              (Qc_of_Z 2) (Qc_of_Z 8))
    as (st' & container & bars & H & Hxr & Hobjs & Hlen & Hpos).
  - reflexivity.
  - reflexivity.
  - simpl. lia.
  - apply list_elem_of_In. simpl. auto.
  - intros x Hx. repeat (apply elem_of_cons in Hx as [->|Hx]); try done.
    by apply elem_of_nil in Hx.
  - apply list_elem_of_In. simpl. auto.
  - intros x Hx. repeat (apply elem_of_cons in Hx as [->|Hx]); try done.
    by apply elem_of_nil in Hx.
  - done.
  - simpl in Hlen.
    destruct bars as [|bar0 [|bar1 [|bar2 [|? ?]]]]; try discriminate Hlen.
    exists st', container, bar0, bar1, bar2.
    split_and!; [exact H|exact Hxr|exact Hobjs|..].
    + destruct (Hpos 0%nat bar0 eq_refl) as [_ ->]. apply Qc_is_canon. reflexivity.
    + destruct (Hpos 1%nat bar1 eq_refl) as [_ ->]. apply Qc_is_canon. reflexivity.
    + destruct (Hpos 2%nat bar2 eq_refl) as [_ ->]. apply Qc_is_canon. reflexivity.
Defined.

(** ** The ticks of a categorical axis *)

Section Ticks.
Import Components.

Lemma split_commas_comma_free s :
  comma_free s → split_commas s = [s].
Proof.
  induction s as [|c s IH]; simpl; [done|].
  destruct (Ascii.eqb c ","); simpl; [done|].
  intros Hs. by rewrite IH.
Qed.

Lemma split_commas_append s t :
  comma_free s →
  split_commas (String.append s (String "," t)) = s :: split_commas t.
Proof.
  induction s as [|c s IH]; simpl; [done|].
  destruct (Ascii.eqb c ","); simpl; [done|].
  intros Hs. by rewrite IH.
Qed.

(** The labels are read back from the joined input, one by one and in
    order, as long as no category holds a comma. *)
Lemma split_commas_concat categories :
  categories ≠ [] →
  Forall (λ s, comma_free s) categories →
  split_commas (String.concat "," categories) = categories.
Proof.
  intros Hne Hfree. induction Hfree as [|c cs Hc Hcs IH]; [done|].
  destruct cs as [|c' cs].
  - simpl. by apply split_commas_comma_free.
  - change (String.concat "," (c :: c' :: cs))
      with (String.append c (String "," (String.concat "," (c' :: cs)))).
    rewrite split_commas_append by done. by rewrite IH.
Qed.

(** With categorical data, the first list of tick labels handed to the axis
    factory holds the first cell of each retained row, in the order of the
    table, and there are as many bars. *)
Lemma categorical_tick_labels imp dm st st' :
  data_type (self st) = Type1 →
  execute imp dm st = (Ok FINISHED, st') →
  ∃ args container bars,
    axis_calls st' = axis_calls st ++ [args] ∧
    objects st' = objects st ++ container :: bars ∧
    ax_tick_labels args
      = (omap (λ entry, entry !! 0%nat) (retained imp (self st') (parsed_data dm)),
         [], []) ∧
    length bars = length (retained imp (self st') (parsed_data dm)).
Proof.
  intros Ht H. apply finished_run in H
    as (shader & data_min & data_max & tick_labels & container & bars &
        _ & Htype & _ & _ & _ & Hobjs & _ & Hbars & Hacs).
  rewrite Ht in Htype.
  eexists _, container, bars. split_and!; [done..| |].
  - simpl. f_equal. f_equal.
    by rewrite (placements_tick_labels _ _ _ _ _ _ _ _ _ _ _ Htype Hbars).
  - apply placements_retained, Forall2_length in Hbars. done.
Qed.
End Ticks.

(** What comes out of [split_commas]: at least one field, and no field
    with a comma. *)
Lemma split_commas_fields s :
  Components.split_commas s ≠ [] ∧
  Forall (λ field, Components.comma_free field) (Components.split_commas s).
Proof.
  induction s as [|c s [Hne Hall]]; simpl.
  - split; [done|]. by repeat constructor.
  - destruct (Ascii.eqb c ","%char) eqn:Hc.
    + split; [done|]. by constructor.
    + destruct (Components.split_commas s) as [|field fields]; [done|].
      split; [done|]. apply Forall_cons in Hall as [Hfield Hall].
      constructor; [|done]. simpl. by rewrite Hc.
Qed.

(** C6, as the code has it.  A categorical axis has one tick for each
    category, in the order of the data.  [_setup_categorical_axis] sets the
    input ["Tick Count"] to the number of categories and ["Labels"] to the
    categories joined by commas; read back by splitting at the commas, the
    labels are the categories as they are exactly when there is a category
    and none holds a comma.  The bar chart, when the bounds check retains
    the rows of a categorical table, hands the axis factory the first cells
    of the rows as they are, in the order of the table, and builds as many
    bars. *)
Theorem categorical_axis_ticks :
  (∀ obj modifier info categories,
     Components.is_chart (Some obj) →
     Components.chart_data_info obj = Some info →
     info !! "categories" = Some categories →
     ∃ modifier',
       Components._setup_categorical_axis obj modifier = inr (modifier', []) ∧
       Components.inputs modifier' !! "Tick Count"
         = Some (Components.InInt (Z.of_nat (length categories))) ∧
       Components.inputs modifier' !! "Labels"
         = Some (Components.InStr (String.concat "," categories)) ∧
       (Components.split_commas (String.concat "," categories) = categories ↔
        categories ≠ [] ∧
        Forall (λ s, Components.comma_free s) categories)) ∧
  (∀ imp dm st cats st',
     data_type (self st) = Type1 →
     parsed_data dm = SpecModel.category_row <$> cats →
     (∀ entry, entry ∈ parsed_data dm →
        in_axis_range_bounds_new imp (self st') entry = Ok true) →
     execute imp dm st = (Ok FINISHED, st') →
     ∃ args container bars,
       axis_calls st' = axis_calls st ++ [args] ∧
       ax_tick_labels args = (fst <$> cats, [], []) ∧
       objects st' = objects st ++ container :: bars ∧
       length bars = length cats).
Proof.
  split.
  - intros obj modifier info categories Hchart Hinfo Hcats.
    unfold Components._setup_categorical_axis.
    rewrite Hinfo, Hcats.
    destruct (Components.is_chart (Some obj)); [|done]. simpl.
    eexists. split; [done|]. simpl. split_and!.
    + by rewrite lookup_insert_ne, lookup_insert_eq.
    + by rewrite lookup_insert_eq.
    + split.
      * intros Hsplit.
        destruct (split_commas_fields (String.concat "," categories))
          as [Hne Hall].
        by rewrite Hsplit in Hne, Hall.
      * intros [Hne Hall]. by apply split_commas_concat.
  - intros imp dm st cats st' Ht Hdata Hall H.
    destruct (categorical_tick_labels _ _ _ _ Ht H)
      as (args & container & bars & Hacs & Hobjs & Hlabels & Hlen).
    assert (retained imp (self st') (parsed_data dm) = parsed_data dm) as Hret.
    { unfold retained. clear -Hall.
      induction (parsed_data dm) as [|e l IH]; [done|].
      rewrite filter_cons_True by (apply Hall; by left).
      rewrite IH; [done|]. intros e' He'. apply Hall. by right. }
    rewrite Hret, Hdata in Hlabels, Hlen.
    exists args, container, bars.
    split_and!; [done| |done|by rewrite Hlen, length_fmap].
    rewrite Hlabels. f_equal. f_equal. clear.
    induction cats as [|c cats IH]; [done|]. csimpl. by rewrite IH.
Qed.

Lemma categorical_axis_ticks_witness :
  (∃ modifier',
     Components._setup_categorical_axis Examples.chart_abc
       Examples.fresh_axis_modifier = inr (modifier', []) ∧
     Components.inputs modifier' !! "Tick Count" = Some (Components.InInt 3) ∧
     Components.inputs modifier' !! "Labels" = Some (Components.InStr "A,B,C") ∧
     Components.split_commas "A,B,C" = ["A"; "B"; "C"]) ∧
  (let st := Examples.scene (Examples.operator Dim2 Type1
                               (Examples.axis false (0, 1)%Z (0, 1)%Z)) in
   ∃ st' args,
     execute SpecModel.imports Examples.categories st = (Ok FINISHED, st') ∧
     axis_calls st' = [args] ∧
     ax_tick_labels args = ([VStr "B"; VStr "A"; VStr "C"], [], [])).
Proof.
  destruct categorical_axis_ticks as [Hsetup Hbars]. split.
  - destruct (Hsetup Examples.chart_abc Examples.fresh_axis_modifier
                {["categories" := ["A"; "B"; "C"]]} ["A"; "B"; "C"])
      as (modifier' & Hrun & Hcount & Hlabels & Hsplit).
    + vm_compute. exact I.
    + reflexivity.
    + apply lookup_singleton_eq.
    + exists modifier'. split_and!; [exact Hrun|exact Hcount|exact Hlabels|].
      apply Hsplit. split; [discriminate|]. repeat constructor.
  - intros st.
    destruct (execute SpecModel.imports Examples.categories st) as [r st'] eqn:H.
    assert (r = Ok FINISHED) as ->.
    { change r with (r, st').1. rewrite <-H. vm_compute. reflexivity. }
    destruct (Hbars SpecModel.imports Examples.categories st
                [(VStr "B", Qc_of_Z 4); (VStr "A", Qc_of_Z 2); (VStr "C", Qc_of_Z 8)]
                st' eq_refl eq_refl)
      as (args & _ & _ & Hacs & Hlabels & _); [|exact H|].
    { intros entry _. apply in_axis_range_bounds_new_categorical.
      change st' with (Ok FINISHED, st').2. rewrite <-H. vm_compute. reflexivity. }
    clear H. exists st', args. split_and!; [reflexivity|exact Hacs|exact Hlabels].
Defined.

(** C6 as the specification states it does not hold on the path of
    [components.py]: the categories ["a,b"; "c"] and ["a"; "b,c"] leave the
    axis modifier with the same inputs, ["Tick Count"] 2 and ["Labels"]
    ["a,b,c"], so the labels cannot be both lists. *)
Lemma labels_verbatim_counterexample : ¬ Components.labels_verbatim_as_stated.
Proof.
  intros [labels_of Hlabels].
  set (chart := λ categories,
         {| Components.custom_properties := {[Components.DV_COMPONENT_PROPERTY]};
            Components.chart_data_info := Some {["categories" := categories]} |}).
  set (modifier' :=
         Components.set_input
           (Components.set_input Examples.fresh_axis_modifier "Tick Count"
              (Components.InInt 2))
           "Labels" (Components.InStr "a,b,c")).
  assert (labels_of modifier' = ["a,b"; "c"]) as H1.
  { apply (Hlabels (chart ["a,b"; "c"]) Examples.fresh_axis_modifier modifier'
             {["categories" := ["a,b"; "c"]]}); [done|apply lookup_singleton_eq|].
    unfold Components._setup_categorical_axis. simpl.
    rewrite bool_decide_eq_true_2 by (by apply elem_of_singleton).
    simpl. by rewrite lookup_singleton_eq. }
  assert (labels_of modifier' = ["a"; "b,c"]) as H2.
  { apply (Hlabels (chart ["a"; "b,c"]) Examples.fresh_axis_modifier modifier'
             {["categories" := ["a"; "b,c"]]}); [done|apply lookup_singleton_eq|].
    unfold Components._setup_categorical_axis. simpl.
    rewrite bool_decide_eq_true_2 by (by apply elem_of_singleton).
    simpl. by rewrite lookup_singleton_eq. }
  rewrite H1 in H2. discriminate H2.
Qed.

(** ** [remove_duplicate_suffix] *)

Section DuplicateSuffix.
Import Components.
Context (unicode_Nd : N → bool).

Local Abbreviation digit := (is_digit unicode_Nd).
Local Abbreviation skip := (skip_digits unicode_Nd).
Local Abbreviation here := (match_here unicode_Nd).
Local Abbreviation remove := (remove_duplicate_suffix unicode_Nd).
Local Abbreviation dollar := (λ s' : str, if at_dollar s' then Some s' else None).

Lemma rmatch_plus_digit s k :
  rmatch unicode_Nd (Plus Digit) s k = iterate_digits unicode_Nd k (length s) s.
Proof.
  simpl. generalize (length s). intros n. revert s.
  induction n as [|n IH]; intros [|c s]; simpl; try done.
  destruct (digit c); [|done]. by rewrite IH.
Qed.

(** A newline is not a digit, so [$] never holds in front of a digit. *)
Lemma at_dollar_digit c s : digit c = true → at_dollar (c :: s) = false.
Proof.
  destruct s; [|done]. simpl. destruct (N.eqb_spec c 10) as [->|]; [|done].
  by vm_compute.
Qed.

Lemma skip_digits_split s :
  ∃ ds, forallb digit ds = true ∧ s = ds ++ skip s.
Proof.
  induction s as [|c s (ds & Hds & IH)]; [by exists []|]. simpl.
  destruct (digit c) eqn:Hc; [|by exists []].
  exists (c :: ds). simpl. rewrite Hc, Hds. split; [done|]. by rewrite <-IH.
Qed.

Lemma skip_digits_app ds rest :
  forallb digit ds = true → at_dollar rest = true → skip (ds ++ rest) = rest.
Proof.
  intros Hds Hrest. induction ds as [|c ds IH]; simpl in *.
  - destruct rest as [|c rest]; [done|]. simpl.
    destruct (digit c) eqn:Hc; [|done].
    by rewrite (at_dollar_digit c rest) in Hrest.
  - apply andb_true_iff in Hds as [-> Hds]. by apply IH.
Qed.

(** The greedy loop never has to give a digit back: in front of [$] it
    matches all the leading digits or nothing. *)
Lemma iterate_digits_dollar n s :
  (length s ≤ n)%nat →
  iterate_digits unicode_Nd dollar n s =
  match s with
  | c :: s' => if digit c && at_dollar (skip s') then Some (skip s') else None
  | [] => None
  end.
Proof.
  revert s. induction n as [|n IH]; intros [|c s] Hlen; simpl in *;
    try done; try lia.
  destruct (digit c) eqn:Hc; [|done]. simpl.
  rewrite IH by lia. destruct s as [|c' s]; [done|]. simpl.
  destruct (digit c') eqn:Hc'; simpl.
  - destruct (at_dollar (skip s)) eqn:Hd; [done|].
    pose proof (at_dollar_digit c' s Hc') as Hnd. simpl in Hnd. by rewrite Hnd.
  - done.
Qed.

(** The pattern at the head of a string. *)
Lemma rmatch_DUPLICATE_SUFFIX_RE s :
  rmatch unicode_Nd DUPLICATE_SUFFIX_RE s Some = here s.
Proof.
  destruct s as [|c0 s]; [done|].
  change (rmatch unicode_Nd DUPLICATE_SUFFIX_RE (c0 :: s) Some)
    with (if (46 =? c0)%N
          then rmatch unicode_Nd (Plus Digit) s (λ s', rmatch unicode_Nd Dollar s' Some)
          else None).
  unfold Components.match_here.
  destruct (46 =? c0)%N; [|by destruct s].
  rewrite rmatch_plus_digit.
  change (λ s', rmatch unicode_Nd Dollar s' Some) with dollar.
  by rewrite iterate_digits_dollar.
Qed.

Lemma match_here_Some s rest :
  here s = Some rest ↔
  ∃ ds, ds ≠ [] ∧ forallb digit ds = true ∧ at_dollar rest = true ∧
        s = 46%N :: ds ++ rest.
Proof.
  unfold Components.match_here. split.
  - destruct s as [|c0 [|c s]]; [done..|].
    destruct (N.eqb_spec 46 c0) as [<-|]; [|done]. simpl.
    destruct (digit c) eqn:Hc; [|done]. simpl.
    destruct (at_dollar (skip s)) eqn:Hd; [|done]. intros [= <-].
    destruct (skip_digits_split s) as (ds & Hds & Hs).
    exists (c :: ds). simpl. rewrite Hc, Hds. split_and!; [done..|].
    by rewrite <-Hs.
  - intros ([|c ds] & Hne & Hds & Hrest & ->); [done|]. simpl in *.
    apply andb_true_iff in Hds as [-> Hds].
    rewrite skip_digits_app by done. by rewrite Hrest.
Qed.

Lemma sub_empty_skip r x rest :
  sub_empty unicode_Nd r (length x) (x ++ rest) = sub_empty unicode_Nd r 0 rest.
Proof. induction x as [|c x IH]; [by destruct rest|done]. Qed.

Lemma at_dollar_cases rest :
  at_dollar rest = true ↔ rest = [] ∨ rest = [10%N].
Proof.
  destruct rest as [|c [|? ?]]; simpl.
  - split; [by left|done].
  - destruct (N.eqb_spec c 10) as [->|]; split; try done; [by right|].
    intros [|[= ?]]; done.
  - split; [done|]. intros [|]; done.
Qed.

(** [sub] on a name, one character at a time. *)
Lemma remove_duplicate_suffix_cons c s :
  remove (c :: s) =
  match here (c :: s) with
  | Some rest => rest
  | None => c :: remove s
  end.
Proof.
  unfold Components.remove_duplicate_suffix. cbn [sub_empty].
  rewrite rmatch_DUPLICATE_SUFFIX_RE.
  destruct (here (c :: s)) as [rest|] eqn:Hm; [|done].
  apply match_here_Some in Hm as (ds & Hne & Hds & Hrest & [= -> ->]).
  assert ((length rest <? length (46%N :: ds ++ rest))%nat = true) as ->
    by (apply Nat.ltb_lt; simpl; rewrite length_app; lia).
  assert ((length (ds ++ rest) - length rest)%nat = length ds) as ->
    by (rewrite length_app; lia).
  rewrite sub_empty_skip.
  apply at_dollar_cases in Hrest as [->| ->]; [done|].
  cbn [sub_empty]. rewrite rmatch_DUPLICATE_SUFFIX_RE. reflexivity.
Qed.

(** Nothing matches in front of a dot that is not the last character. *)
Lemma skip_digits_before_dot x tail :
  ∃ y, skip (x ++ 46%N :: tail) = y ++ 46%N :: tail.
Proof.
  induction x as [|c x [y IH]]; simpl.
  - by exists [].
  - destruct (digit c); [by exists y|by exists (c :: x)].
Qed.

Lemma match_here_before_dot c x tail :
  tail ≠ [] → here (c :: x ++ 46%N :: tail) = None.
Proof.
  intros Htail. unfold Components.match_here.
  destruct x as [|d x]; simpl.
  - by rewrite andb_false_r.
  - destruct (skip_digits_before_dot x tail) as [y ->].
    assert (at_dollar (y ++ 46%N :: tail) = false) as ->.
    { destruct tail; [done|]. by destruct y as [|? [|? ?]]. }
    by rewrite andb_false_r.
Qed.

Lemma remove_duplicate_suffix_before_dot stem tail :
  tail ≠ [] → remove (stem ++ 46%N :: tail) = stem ++ remove (46%N :: tail).
Proof.
  intros Htail. induction stem as [|c stem IH]; [done|].
  rewrite <-app_comm_cons, remove_duplicate_suffix_cons.
  rewrite match_here_before_dot by done. by rewrite IH.
Qed.

Lemma remove_duplicate_suffix_stem stem ds :
  ds ≠ [] → forallb digit ds = true →
  remove (stem ++ 46%N :: ds) = stem.
Proof.
  intros Hne Hds. rewrite remove_duplicate_suffix_before_dot by done.
  rewrite remove_duplicate_suffix_cons.
  assert (here (46%N :: ds) = Some []) as ->.
  { apply match_here_Some. exists ds. by rewrite app_nil_r. }
  by rewrite app_nil_r.
Qed.

Lemma remove_duplicate_suffix_stem_newline stem ds :
  ds ≠ [] → forallb digit ds = true →
  remove (stem ++ 46%N :: ds ++ [10%N]) = stem ++ [10%N].
Proof.
  intros Hne Hds.
  rewrite remove_duplicate_suffix_before_dot by (by destruct ds).
  rewrite remove_duplicate_suffix_cons.
  assert (here (46%N :: ds ++ [10%N]) = Some [10%N]) as ->.
  { apply match_here_Some. by exists ds. }
  done.
Qed.

Lemma remove_duplicate_suffix_unchanged name :
  (∀ stem ds, ds ≠ [] → forallb digit ds = true →
     name ≠ stem ++ 46%N :: ds ∧ name ≠ stem ++ 46%N :: ds ++ [10%N]) →
  remove name = name.
Proof.
  induction name as [|c name IH]; intros Hshape; [done|].
  rewrite remove_duplicate_suffix_cons.
  destruct (here (c :: name)) as [rest|] eqn:Hm.
  - apply match_here_Some in Hm as (ds & Hne & Hds & Hrest & Hname).
    destruct (Hshape [] ds Hne Hds) as [H1 H2].
    apply at_dollar_cases in Hrest as [->| ->]; [|done].
    by rewrite app_nil_r in Hname.
  - rewrite IH; [done|]. intros stem ds Hne Hds.
    destruct (Hshape (c :: stem) ds Hne Hds) as [H1 H2].
    split; intros ->; [by apply H1|by apply H2].
Qed.

(** The shape [duplicate_suffix] recognises. *)
Lemma duplicate_suffix_digits l :
  forallb digit l = true → duplicate_suffix unicode_Nd l = None.
Proof.
  induction l as [|c l IH]; [done|]. simpl.
  intros [Hc Hl]%andb_true_iff. rewrite IH by done.
  destruct (N.eqb_spec c 46) as [->|]; [|done]. by vm_compute in Hc.
Qed.

Lemma duplicate_suffix_Some name stem :
  duplicate_suffix unicode_Nd name = Some stem ↔
  ∃ ds, ds ≠ [] ∧ forallb digit ds = true ∧ name = stem ++ 46%N :: ds.
Proof.
  split.
  - revert stem. induction name as [|c name IH]; intros stem; [done|]. simpl.
    destruct (duplicate_suffix unicode_Nd name) as [stem'|].
    + intros [= <-]. destruct (IH stem' eq_refl) as (ds & Hne & Hds & ->).
      by exists ds.
    + destruct (N.eqb_spec c 46) as [->|]; [|done]. simpl.
      destruct (forallb digit name) eqn:Hds; [|done]. simpl.
      case_bool_decide; [done|]. intros [= <-]. by exists name.
  - intros (ds & Hne & Hds & ->). induction stem as [|c stem IH]; simpl.
    + rewrite duplicate_suffix_digits, Hds by done. simpl.
      by rewrite bool_decide_eq_false_2.
    + by rewrite IH.
Qed.

Lemma without_final_newline_Some name body :
  without_final_newline name = Some body ↔ name = body ++ [10%N].
Proof.
  unfold without_final_newline. split.
  - destruct (reverse name) as [|c l] eqn:Hrev; [done|].
    destruct (N.eqb_spec c 10) as [->|]; [|done]. intros [= <-].
    by rewrite <-(reverse_involutive name), Hrev, reverse_cons.
  - intros ->. by rewrite reverse_snoc, reverse_involutive.
Qed.

Lemma remove_duplicate_suffix_suffix_removed name :
  remove name = suffix_removed unicode_Nd name.
Proof.
  unfold suffix_removed.
  destruct (duplicate_suffix unicode_Nd name) as [stem|] eqn:Hsuffix.
  { apply duplicate_suffix_Some in Hsuffix as (ds & Hne & Hds & ->).
    by apply remove_duplicate_suffix_stem. }
  destruct (without_final_newline name) as [body|] eqn:Hbody; simpl.
  - apply without_final_newline_Some in Hbody as ->.
    destruct (duplicate_suffix unicode_Nd body) as [stem|] eqn:Hsuffix'.
    + apply duplicate_suffix_Some in Hsuffix' as (ds & Hne & Hds & ->).
      rewrite <-(assoc_L (++)). by apply remove_duplicate_suffix_stem_newline.
    + apply remove_duplicate_suffix_unchanged. intros stem ds Hne Hds. split.
      * intros Heq. rewrite Heq in Hsuffix.
        assert (duplicate_suffix unicode_Nd (stem ++ 46%N :: ds) = Some stem)
          as Hs by (apply duplicate_suffix_Some; by exists ds).
        by rewrite Hs in Hsuffix.
      * intros Heq.
        assert (body = stem ++ 46%N :: ds) as ->.
        { apply (inj (λ l, l ++ [10%N])). by rewrite Heq, <-(assoc_L (++)). }
        assert (duplicate_suffix unicode_Nd (stem ++ 46%N :: ds) = Some stem)
          as Hs by (apply duplicate_suffix_Some; by exists ds).
        by rewrite Hs in Hsuffix'.
  - apply remove_duplicate_suffix_unchanged. intros stem ds Hne Hds. split.
    + intros Heq. rewrite Heq in Hsuffix.
      assert (duplicate_suffix unicode_Nd (stem ++ 46%N :: ds) = Some stem)
        as Hs by (apply duplicate_suffix_Some; by exists ds).
      by rewrite Hs in Hsuffix.
    + intros Heq.
      assert (without_final_newline name = Some (stem ++ 46%N :: ds)) as Hb.
      { apply without_final_newline_Some. by rewrite Heq, <-(assoc_L (++)). }
      by rewrite Hb in Hbody.
Qed.
End DuplicateSuffix.

(** What [remove_duplicate_suffix] returns, by the shape of the name.  A
    name that ends in a dot and one or more digits loses that suffix, and
    only that one ([stem] may hold others, inside or at its end: they
    stay).  A name that ends in such a suffix followed by one newline loses
    the suffix and keeps the newline.  Every other name is returned as it
    is. *)
Lemma remove_duplicate_suffix_by_shape unicode_Nd name :
  (∀ stem ds,
     ds ≠ [] → forallb (Components.is_digit unicode_Nd) ds = true →
     name = stem ++ 46%N :: ds →
     Components.remove_duplicate_suffix unicode_Nd name = stem) ∧
  (∀ stem ds,
     ds ≠ [] → forallb (Components.is_digit unicode_Nd) ds = true →
     name = stem ++ 46%N :: ds ++ [10%N] →
     Components.remove_duplicate_suffix unicode_Nd name = stem ++ [10%N]) ∧
  ((∀ stem ds,
      ds ≠ [] → forallb (Components.is_digit unicode_Nd) ds = true →
      name ≠ stem ++ 46%N :: ds ∧ name ≠ stem ++ 46%N :: ds ++ [10%N]) →
   Components.remove_duplicate_suffix unicode_Nd name = name).
Proof.
  split_and!.
  - intros stem ds Hne Hds ->. by apply remove_duplicate_suffix_stem.
  - intros stem ds Hne Hds ->. by apply remove_duplicate_suffix_stem_newline.
  - apply remove_duplicate_suffix_unchanged.
Qed.

(** C10.  [remove_duplicate_suffix] on the name ["A.1\n"] (the characters
    65, 46, 49, 10), whatever the digits of Unicode.  The name does not end
    in a dot and digits: it ends in a newline.  It is not returned as it
    is: the suffix [".1"] before the newline is removed and ["A\n"] comes
    back, because the [$] of [DUPLICATE_SUFFIX_RE] also matches before a
    final newline.  The names the code handles (["DV_NumericAxis.001"],
    ["Chart.001.002"], ["DV_1.5x"]) come out as C10 says. *)
Theorem remove_duplicate_suffix_final_newline unicode_Nd :
  (∀ stem ds,
     ds ≠ [] → forallb (Components.is_digit unicode_Nd) ds = true →
     [65; 46; 49; 10]%N ≠ stem ++ 46%N :: ds) ∧
  Components.remove_duplicate_suffix unicode_Nd [65; 46; 49; 10]%N
  = [65; 10]%N ∧
  Components.remove_duplicate_suffix unicode_Nd
    (Components.str_of_string "DV_NumericAxis.001")
  = Components.str_of_string "DV_NumericAxis" ∧
  Components.remove_duplicate_suffix unicode_Nd
    (Components.str_of_string "Chart.001.002")
  = Components.str_of_string "Chart.001" ∧
  Components.remove_duplicate_suffix unicode_Nd
    (Components.str_of_string "DV_1.5x")
  = Components.str_of_string "DV_1.5x".
Proof.
  split_and!; [|reflexivity..].
  intros stem ds Hne Hds Heq.
  assert (Components.duplicate_suffix unicode_Nd [65; 46; 49; 10]%N = Some stem)
    as Hs by (apply duplicate_suffix_Some; by exists ds).
  discriminate Hs.
Qed.

(** * Further properties of the code *)

(** ** [OBJECT_OT_BarChart.execute]: the ranges *)

Section BarChartSetup.
Context (imp : Imports) (dm : DataManager).

(** Lines 77-84 with numerical data, by the outcome of [init_range]. *)
Lemma setup_numerical st :
  data_type (self st) = Type0 →
  (init_data dm;; execute_ranges imp) st =
  let s := with_data (parsed_data dm) (parsed_labels dm) (self st) in
  if auto_ranges (axis_settings (self st)) then
    match find_axis_range imp (parsed_data dm) 0 with
    | Raise e => (Raise e, with_self s st)
    | Ok xr =>
        match find_axis_range imp (parsed_data dm) 1 with
        | Raise e =>
            (Raise e,
             with_self (with_axis_settings (with_x_range (stored imp xr)) s) st)
        | Ok yr =>
            (Ok (),
             with_self (with_axis_settings (with_y_range (stored imp yr))
                          (with_axis_settings (with_x_range (stored imp xr)) s))
               st)
        end
    end
  else (Ok (), with_self s st).
Proof.
  intros Ht. unfold init_data, execute_ranges, init_range, data_type_as_enum.
  unfold_monad. simpl. rewrite Ht. simpl.
  destruct (auto_ranges _); simpl; [|done].
  destruct (find_axis_range imp _ 0); simpl; [|done].
  by destruct (find_axis_range imp _ 1).
Qed.

(** [execute] stops where lines 77-84 raise. *)
Lemma execute_setup_raises st e st1 :
  (init_data dm;; execute_ranges imp) st = (Raise e, st1) →
  execute imp dm st = (Raise e, st1).
Proof. intros H. by rewrite execute_unfold, H. Qed.
End BarChartSetup.

(** X1.  Automatic ranges are not set atomically (lines 66-68).  With
    numerical data and [auto_ranges] on, an exception of [find_axis_range]
    ends the run with that exception before anything is created or
    reported; when it is the Y range that fails, the X range has already
    been overwritten with the computed one (as the 32-bit property stores
    it), and the Y range is as it was. *)
Theorem auto_ranges_failure imp dm st :
  data_type (self st) = Type0 →
  auto_ranges (axis_settings (self st)) = true →
  (∀ e, find_axis_range imp (parsed_data dm) 0 = Raise e →
     ∃ st', execute imp dm st = (Raise e, st') ∧
       objects st' = objects st ∧ axis_calls st' = axis_calls st ∧
       reports st' = reports st ∧
       axis_settings (self st') = axis_settings (self st)) ∧
  (∀ xr e, find_axis_range imp (parsed_data dm) 0 = Ok xr →
     find_axis_range imp (parsed_data dm) 1 = Raise e →
     ∃ st', execute imp dm st = (Raise e, st') ∧
       objects st' = objects st ∧ axis_calls st' = axis_calls st ∧
       reports st' = reports st ∧
       axis_settings (self st')
       = with_x_range (stored imp xr) (axis_settings (self st))).
Proof.
  intros Ht Hauto. pose proof (setup_numerical imp dm st Ht) as Hsetup.
  rewrite Hauto in Hsetup. cbv zeta in Hsetup. split.
  - intros e He. rewrite He in Hsetup.
    eexists. split; [by apply execute_setup_raises|]. done.
  - intros xr e Hx Hy. rewrite Hx, Hy in Hsetup.
    eexists. split; [by apply execute_setup_raises|]. done.
Qed.

Lemma auto_ranges_failure_witness :
  let st := Examples.scene (Examples.operator Dim2 Type0
                              (Examples.axis true (0, 1)%Z (0, 1)%Z)) in
  let one_column := Examples.table [[Examples.num 1]; [Examples.num 5]] in
  ∃ st',
    execute SpecModel.imports one_column st = (Raise IndexError, st') ∧
    objects st' = [] ∧
    x_range (axis_settings (self st')) = (Qc_of_Z 1, Qc_of_Z 5) ∧
    y_range (axis_settings (self st')) = (Qc_of_Z 0, Qc_of_Z 1).
Proof.
  intros st one_column.
  destruct (auto_ranges_failure SpecModel.imports one_column st eq_refl eq_refl)
    as [_ Hy].
  destruct (Hy (Qc_of_Z 1, Qc_of_Z 5) IndexError) as (st' & H & Hobjs & _ & _ & Hax).
  - vm_compute. reflexivity.
  - vm_compute. reflexivity.
  - exists st'. split; [exact H|]. split; [exact Hobjs|]. clear H.
    rewrite Hax. split; reflexivity.
Defined.

(** With numerical data the loop leaves the tick labels as they are. *)
Lemma placements_numerical_tick_labels imp s shader value_index data_min data_max
    i entries tick_labels objs tick_labels' :
  data_type s = Type0 →
  placements imp s shader value_index data_min data_max i entries tick_labels
    objs tick_labels' →
  tick_labels' = tick_labels.
Proof.
  intros Ht.
  induction 1 as [|i entry entries tl objs tl' Hin _ IH
                  |i entry entries tl x y z tl1 objs tl' Hin Hv _ IH]; [done..|].
  apply bar_values_Ok in Hv as (e0 & ev & _ & _ & _ & _ & Htl & _).
  unfold data_type_as_enum in Htl. rewrite Ht in Htl. by rewrite IH, Htl.
Qed.

(** X2.  The ranges of a finished numerical chart.  The axis factory is
    called once, with no tick labels and the dimensions as requested.  With
    [auto_ranges] on, its X and Y ranges are what [find_axis_range] computed
    for columns 0 and 1 as the 32-bit properties [x_range] and [y_range]
    store it (rounded, that is: [float32] of each bound), whatever ranges
    the user had entered; with [auto_ranges] off they are the user's.  The
    value range is what [find_data_range] returned for those stored ranges
    (the Y range is passed only in 3D), and the steps, padding and
    [auto_steps] are the user's. *)
Theorem numerical_axis_ranges imp dm st st' :
  data_type (self st) = Type0 →
  execute imp dm st = (Ok FINISHED, st') →
  ∃ args,
    axis_calls st' = axis_calls st ++ [args] ∧
    ax_tick_labels args = ([], [], []) ∧
    ax_dim args = int_of_dimensions (dimensions (self st)) ∧
    (if auto_ranges (axis_settings (self st))
     then ∃ xr yr,
            find_axis_range imp (parsed_data dm) 0 = Ok xr ∧
            find_axis_range imp (parsed_data dm) 1 = Ok yr ∧
            (ax_ranges args).1.1 = (float32 imp xr.1, float32 imp xr.2) ∧
            (ax_ranges args).1.2 = (float32 imp yr.1, float32 imp yr.2)
     else (ax_ranges args).1.1 = x_range (axis_settings (self st)) ∧
          (ax_ranges args).1.2 = y_range (axis_settings (self st))) ∧
    find_data_range imp (parsed_data dm) (ax_ranges args).1.1
      (if decide (dimensions (self st) = Dim3) then Some (ax_ranges args).1.2
       else None) = Ok (ax_ranges args).2 ∧
    ax_steps args = (x_step (axis_settings (self st)),
                     y_step (axis_settings (self st)),
                     z_step (axis_settings (self st))) ∧
    ax_padding args = padding (axis_settings (self st)) ∧
    ax_auto_steps args = auto_steps (axis_settings (self st)) ∧
    ax_labels args = parsed_labels dm.
Proof.
  intros Ht H.
  apply execute_finished in H
    as (st1 & data_min & data_max & shader & tick_labels & bars &
        H1 & _ & Hr & _ & Hb & _ & Ha).
  apply execute_data_range_value_range in Hr.
  apply bars_pure_placements in Hb.
  rewrite setup_numerical in H1 by done. cbv zeta in H1.
  unfold value_range_of, data_type_as_enum in Hr.
  destruct (auto_ranges (axis_settings (self st)));
    [destruct (find_axis_range imp _ 0) as [xr|]; [|done];
     destruct (find_axis_range imp _ 1) as [yr|]; [|done]|];
    injection H1 as <-; simpl in Hr, Hb; rewrite Ht in Hr;
    apply placements_numerical_tick_labels in Hb as ->; try done;
    injection Ha as <-; eexists; (split; [reflexivity|]);
    split_and!; try done.
  by exists xr, yr.
Qed.

Lemma numerical_axis_ranges_witness :
  let st := Examples.scene (Examples.operator Dim2 Type0
                              (Examples.axis true (100, 200)%Z (0, 1)%Z)) in
  ∃ st' args,
    execute SpecModel.imports Examples.low_high st = (Ok FINISHED, st') ∧
    axis_calls st' = [args] ∧
    ax_tick_labels args = ([], [], []) ∧
    (ax_ranges args).1.1 = (Qc_of_Z 1, Qc_of_Z 9).
Proof.
  intros st.
  destruct (execute SpecModel.imports Examples.low_high st) as [r st'] eqn:H.
  assert (r = Ok FINISHED) as ->.
  { change r with (r, st').1. rewrite <-H. vm_compute. reflexivity. }
  destruct (numerical_axis_ranges SpecModel.imports Examples.low_high st st'
              eq_refl H) as (args & Hacs & Hlabels & _ & Hranges & _).
  clear H. exists st', args. split; [reflexivity|]. split; [exact Hacs|].
  split; [exact Hlabels|].
  destruct Hranges as (xr & yr & Hx & _ & -> & _).
  vm_compute in Hx. by injection Hx as <-.
Defined.

(** ** [OBJECT_OT_BarChart.execute]: a table with no rows *)

(** X3.  A categorical chart of an empty table raises [ValueError]: the
    dimension check of line 86 is skipped (the dimensions were forced to
    ['2'], so [self.data[0]] is not read), the container is created, and
    then [min] of line 98 has nothing to choose from.  The run leaves the
    container in the scene and the X range at [0, -1]; nothing is reported
    and the axis factory is not called. *)
Theorem empty_categorical_table imp dm st :
  data_type (self st) = Type1 →
  parsed_data dm = [] →
  ∃ st' container,
    execute imp dm st = (Raise ValueError, st') ∧
    objects st' = objects st ++ [container] ∧ type container = EMPTY ∧
    axis_calls st' = axis_calls st ∧ reports st' = reports st ∧
    x_range (axis_settings (self st')) = (0, Qc_of_Z (-1)).
Proof.
  intros Ht Hdata. rewrite execute_categorical by done.
  unfold execute_build, execute_data_range, create_container, data_type_as_enum,
    categorical_operator.
  unfold_monad. simpl. rewrite Ht, Hdata. simpl.
  eexists _, _. split; [reflexivity|]. done.
Qed.

Lemma empty_categorical_table_witness :
  let st := Examples.scene (Examples.operator Dim3 Type1
                              (Examples.axis false (0, 1)%Z (0, 1)%Z)) in
  ∃ st' container,
    execute SpecModel.imports (Examples.table []) st = (Raise ValueError, st') ∧
    objects st' = [container] ∧ reports st' = [].
Proof.
  intros st.
  destruct (empty_categorical_table SpecModel.imports (Examples.table []) st
              eq_refl eq_refl) as (st' & container & H & Hobjs & _ & _ & Hreps & _).
  exists st', container. split_and!; assumption.
Defined.

(** X4.  A numerical 3D chart of an empty table raises [IndexError]: the
    check of line 86 reads [self.data[0]].  Nothing has been created or
    reported.  (With [auto_ranges] on the run gets there only if
    [find_axis_range] returned for the empty table.) *)
Theorem empty_numerical_3d_table imp dm st :
  data_type (self st) = Type0 →
  dimensions (self st) = Dim3 →
  parsed_data dm = [] →
  (auto_ranges (axis_settings (self st)) = true →
   ∃ xr yr, find_axis_range imp [] 0 = Ok xr ∧ find_axis_range imp [] 1 = Ok yr) →
  ∃ st',
    execute imp dm st = (Raise IndexError, st') ∧
    objects st' = objects st ∧ axis_calls st' = axis_calls st ∧
    reports st' = reports st.
Proof.
  intros Ht Hd Hdata Hauto.
  rewrite execute_unfold, setup_numerical by done. cbv zeta. rewrite Hdata.
  unfold execute_dimension_mismatch, getitem. unfold_monad.
  destruct (auto_ranges (axis_settings (self st))).
  - destruct (Hauto eq_refl) as (xr & yr & -> & ->). simpl.
    rewrite Hd. simpl. by eexists.
  - simpl. rewrite Hd. simpl. by eexists.
Qed.

Lemma empty_numerical_3d_table_witness :
  let st := Examples.scene (Examples.operator Dim3 Type0
                              (Examples.axis false (0, 1)%Z (0, 1)%Z)) in
  ∃ st',
    execute SpecModel.imports (Examples.table []) st = (Raise IndexError, st') ∧
    objects st' = [] ∧ reports st' = [].
Proof.
  intros st.
  destruct (empty_numerical_3d_table SpecModel.imports (Examples.table []) st
              eq_refl eq_refl eq_refl) as (st' & H & Hobjs & _ & Hreps).
  - intros Hauto. discriminate Hauto.
  - exists st'. split_and!; assumption.
Defined.

(** ** [OBJECT_OT_BarChart.execute]: what a run adds to the scene *)

Section BarChartBuild.
Context (imp : Imports) (dm : DataManager).

(** Lines 89-149, by the outcome of each step. *)
Lemma execute_build_unfold st1 :
  execute_build imp st1 =
  let st2 := (create_container st1).2 in
  let s := self st2 in
  match execute_data_range imp st2 with
  | (Raise e, st3) => (Raise e, st3)
  | (Ok None, st3) => (Ok CANCELLED, st3)
  | (Ok (Some (data_min, data_max)), _) =>
      match NodeShader imp (color_shade (color_settings s))
              (color_type (color_settings s)) 2 (chart_origin s).2 with
      | Raise e => (Raise e, st2)
      | Ok shader =>
          match bars_pure imp s shader (value_index s) data_min data_max 0
                  (data s) [] with
          | (Raise e, bars) => (Raise e, add_objects bars st2)
          | (Ok tick_labels, bars) =>
              match AxisFactory_create imp
                      (axis_args s data_min data_max tick_labels) with
              | Raise e => (Raise e, add_objects bars st2)
              | Ok _ =>
                  (Ok FINISHED,
                   (record_axis_call (axis_args s data_min data_max tick_labels)
                      (add_objects bars st2)).2)
              end
          end
      end
  end.
Proof.
  cbv zeta. unfold execute_build. set (st2 := (create_container st1).2).
  unfold mbind at 1; unfold M_bind at 1.
  change (create_container st1) with (Ok (), st2). cbv beta iota.
  unfold mbind at 1; unfold M_bind at 1.
  destruct (execute_data_range imp st2) as [[[[data_min data_max]|]|e] st3] eqn:Hr;
    [|reflexivity..].
  apply execute_data_range_Some in Hr as ->.
  unfold mbind at 1; unfold M_bind at 1. unfold get_self at 1. cbv beta iota.
  unfold mbind at 1; unfold M_bind at 1. unfold lift at 1.
  destruct (NodeShader imp _ _ _ _) as [shader|e]; [|done]. cbv beta iota.
  unfold mbind at 1; unfold M_bind at 1.
  rewrite execute_bars_eq.
  destruct (bars_pure imp _ _ _ _ _ _ _ _) as [[tick_labels|e] bars]; [|done].
  cbv beta iota. unfold execute_axis. unfold_monad. simpl.
  by destruct (AxisFactory_create imp _).
Qed.

(** The loop adds cubes only, at most one for each row. *)
Lemma bars_pure_objects s shader value_index data_min data_max entries :
  ∀ i tick_labels r objs,
  bars_pure imp s shader value_index data_min data_max i entries tick_labels
    = (r, objs) →
  Forall (λ o, type o = MESH) objs ∧ (length objs ≤ length entries)%nat.
Proof.
  induction entries as [|entry entries IH]; intros i tl r objs; simpl.
  - intros [= _ <-]. by split.
  - unfold bar_pure.
    destruct (in_axis_range_bounds_new imp s entry) as [[]|]; simpl.
    + destruct (bar_values imp _ _ _ _ _ _ _) as [[[[x y] z] tl1]|].
      * destruct (bars_pure imp s shader value_index data_min data_max (S i)
                    entries tl1) as [r' objs'] eqn:Hrest.
        intros [= _ <-]. apply IH in Hrest as [Hall Hlen].
        split; [by constructor|simpl; lia].
      * intros [= _ <-]. split; [by repeat constructor|simpl; lia].
    + destruct (bars_pure imp s shader value_index data_min data_max (S i)
                  entries tl) as [r' objs'] eqn:Hrest.
      intros [= _ <-]. apply IH in Hrest as [Hall Hlen]. split; [done|simpl; lia].
    + intros [= _ <-]. split; [done|simpl; lia].
Qed.
End BarChartBuild.

(** ** Failed builds *)




Section BarChartFrame.
Context (imp : Imports) (dm : DataManager).

(** Lines 77-84 never touch the bar size, the colours, the origin, the
    steps or the padding. *)
Lemma setup_keeps st r st1 :
  (init_data dm;; execute_ranges imp) st = (r, st1) →
  bar_size (self st1) = bar_size (self st) ∧
  color_settings (self st1) = color_settings (self st) ∧
  chart_origin (self st1) = chart_origin (self st) ∧
  data_type (self st1) = data_type (self st).
Proof.
  unfold init_data, execute_ranges, init_range, data_type_as_enum.
  unfold_monad. simpl.
  destruct (data_type (self st)) eqn:Ht; simpl.
  - destruct (auto_ranges _); simpl; [|by intros [= _ <-]].
    destruct (find_axis_range imp _ 0); simpl; [|by intros [= _ <-]].
    destruct (find_axis_range imp _ 1); simpl; by intros [= _ <-].
  - by intros [= _ <-].
Qed.

(** Every run, by what it added to the scene. *)
Lemma execute_added st r st' :
  execute imp dm st = (r, st') →
  bar_size (self st') = bar_size (self st) ∧
  color_settings (self st') = color_settings (self st) ∧
  chart_origin (self st') = chart_origin (self st) ∧
  data_type (self st') = data_type (self st) ∧
  ((objects st' = objects st ∧ axis_calls st' = axis_calls st ∧
    (reports st' = reports st ∧ r ≠ Ok FINISHED ∧ r ≠ Ok CANCELLED ∨
     reports st' = reports st ++ [("ERROR", "Data are only 2D!")] ∧
     r = Ok CANCELLED)) ∨
   (∃ container bars,
      objects st' = objects st ++ container :: bars ∧
      type container = EMPTY ∧
      Forall (λ o, type o = MESH) bars ∧
      (length bars ≤ length (parsed_data dm))%nat ∧
      (reports st' = reports st ∧ axis_calls st' = axis_calls st ∧
       r ≠ Ok FINISHED ∧ r ≠ Ok CANCELLED ∨
       reports st' = reports st ++ [("ERROR", "Cannot find data in this range!")] ∧
       axis_calls st' = axis_calls st ∧ r = Ok CANCELLED ∧ bars = [] ∨
       reports st' = reports st ∧ r = Ok FINISHED ∧
       ∃ args, axis_calls st' = axis_calls st ++ [args]))).
Proof.
  intros H. apply execute_outcome in H as (r1 & st1 & H1 & Hcases).
  pose proof (setup_keeps _ _ _ H1) as (Hbs & Hcs & Hco & Hdt).
  apply setup_frame in H1 as (Hobjs & Hacs & Hreps & Hdata & _).
  destruct Hcases as [(e & _ & -> & ->)|[(_ & e & _ & -> & ->)|
    [(_ & _ & -> & ->)|(_ & _ & Hb)]]].
  - split_and!; [done..|]. left. split_and!; [done..|]. by left.
  - split_and!; [done..|]. left. split_and!; [done..|]. by left.
  - split_and!; [done..|]. left. split_and!; [done..|]. right.
    simpl. by rewrite Hreps.
  - rewrite execute_build_unfold in Hb. cbv zeta in Hb.
    destruct (execute_data_range_state imp (create_container st1).2)
      as [[Hst Hr]|(_ & Heq & _)].
    + destruct (execute_data_range imp (create_container st1).2)
        as [[[[data_min data_max]|]|e] st3]; simpl in Hst, Hr; [|done|].
      * destruct (NodeShader imp _ _ _ _) as [shader|e].
        -- destruct (bars_pure imp _ _ _ _ _ _ _ _) as [rb bars] eqn:Hbars.
           apply bars_pure_objects in Hbars as [Hmesh Hlen]. simpl in Hlen.
           rewrite Hdata in Hlen.
           destruct rb as [tick_labels|e].
           ++ destruct (AxisFactory_create imp _); injection Hb as <- <-; simpl;
                (split_and!; [done..|]); right; eexists _, bars;
                (split_and!; [by rewrite Hobjs, <-(assoc_L (++))|done..|]).
              ** do 2 right. split_and!; [done..|]. eexists. by rewrite Hacs.
              ** left. by split_and!.
           ++ injection Hb as <- <-; simpl. split_and!; [done..|].
              right. eexists _, bars.
              split_and!; [by rewrite Hobjs, <-(assoc_L (++))|done..|].
              left. by split_and!.
        -- injection Hb as <- <-; simpl. split_and!; [done..|].
           right. eexists _, []. split_and!; [by rewrite Hobjs|done|done|simpl; lia|].
           left. by split_and!.
      * subst st3. injection Hb as <- <-; simpl. split_and!; [done..|].
        right. eexists _, []. split_and!; [by rewrite Hobjs|done|done|simpl; lia|].
        left. by split_and!.
    + rewrite Heq in Hb. injection Hb as <- <-; simpl. split_and!; [done..|].
      right. eexists _, []. split_and!; [by rewrite Hobjs|done|done|simpl; lia|].
      right; left. split_and!; [by rewrite Hreps|done..].
Qed.
End BarChartFrame.

(** X5.  The bars of a finished chart.  The run adds the container and
    then the bars, and [self.container_object] is the handle of that
    container.  Every bar is a mesh parented to it, as is the axis; the
    material of the one [NodeShader] built from the colour settings is the
    only material of the bar and its active one; its footprint is
    [bar_size]; and its centre is as high as its half-height, so that it
    stands on the floor of the chart. *)
Theorem finished_bars_attributes imp dm st st' :
  execute imp dm st = (Ok FINISHED, st') →
  let handle := length (objects st) in
  ∃ shader args container bars,
    NodeShader imp (color_shade (color_settings (self st)))
      (color_type (color_settings (self st))) 2 (chart_origin (self st)).2
      = Ok shader ∧
    objects st' = objects st ++ container :: bars ∧
    type container = EMPTY ∧
    container_object (self st') = Some handle ∧
    objects st' !! handle = Some container ∧
    axis_calls st' = axis_calls st ++ [args] ∧
    ax_parent args = Some handle ∧
    Forall (λ bar,
      type bar = MESH ∧ parent bar = Some handle ∧
      materials bar = [shader] ∧ active_material bar = Some shader ∧
      (scale bar).1 = bar_size (self st) ∧
      (location bar).2 = (scale bar).2) bars.
Proof.
  intros H handle. subst handle. apply execute_finished in H
    as (st1 & data_min & data_max & shader & tick_labels & bars &
        H1 & _ & _ & Hs & Hb & _ & Ha).
  pose proof (setup_keeps _ _ _ _ _ H1) as (Hbs & Hcs & Hco & _).
  apply setup_frame in H1 as (Hobjs & Hacs & _).
  apply bars_pure_placements, placements_Forall in Hb.
  injection Ha as <-. simpl in *. rewrite Hcs, Hco in Hs. rewrite Hobjs.
  eexists shader, _, _, bars. split; [exact Hs|].
  split; [exact (eq_sym (assoc_L (++) (objects st) [_] bars))|].
  split; [reflexivity|].
  split; [reflexivity|]. split.
  { rewrite <-(assoc_L (++)), lookup_app_r by done. by rewrite Nat.sub_diag. }
  split; [by rewrite Hacs|]. split; [reflexivity|].
  eapply Forall_impl; [exact Hb|]. cbv beta.
  intros bar (j & entry & _ & tl & x & y & z & tl1 & _ & _ & ->). simpl.
  rewrite Hbs, Hobjs. by destruct (bar_size (self st)).
Qed.

Lemma finished_bars_attributes_witness :
  let st := Examples.scene (Examples.operator Dim2 Type0
                              (Examples.axis false (1, 9)%Z (0, 1)%Z)) in
  ∃ st' container bars,
    execute SpecModel.imports Examples.low_high st = (Ok FINISHED, st') ∧
    objects st' = container :: bars ∧
    Forall (λ bar, parent bar = Some 0%nat ∧ (scale bar).1 = (half, half)) bars.
Proof.
  intros st.
  destruct (execute SpecModel.imports Examples.low_high st) as [r st'] eqn:H.
  assert (r = Ok FINISHED) as ->.
  { change r with (r, st').1. rewrite <-H. vm_compute. reflexivity. }
  destruct (finished_bars_attributes SpecModel.imports Examples.low_high st st' H)
    as (shader & args & container & bars &
        _ & Hobjs & _ & _ & _ & _ & _ & Hbars).
  clear H. exists st', container, bars. split; [reflexivity|].
  split; [exact Hobjs|].
  eapply Forall_impl; [exact Hbars|]. cbv beta.
  intros bar (_ & Hp & _ & _ & Hsz & _). split; [exact Hp|exact Hsz].
Defined.

(** X6.  A run only appends.  Whatever the outcome (finished, cancelled or
    an exception), the objects, axis calls and reports that were there are
    still there, unchanged and in place.  What is added is at most one
    empty (the container) followed by cubes, at most one for each row of
    the table; at most one axis call, exactly when the run finished; at
    most one report, exactly when it was cancelled.  The bar size, the
    colour settings, the chart origin and the chart type of the operator
    are never written. *)
Theorem execute_only_appends imp dm st r st' :
  execute imp dm st = (r, st') →
  ∃ added calls msgs,
    objects st' = objects st ++ added ∧
    axis_calls st' = axis_calls st ++ calls ∧
    reports st' = reports st ++ msgs ∧
    (added = [] ∨
     ∃ container bars, added = container :: bars ∧ type container = EMPTY ∧
       Forall (λ o, type o = MESH) bars ∧
       (length bars ≤ length (parsed_data dm))%nat) ∧
    (length calls ≤ 1)%nat ∧ (calls ≠ [] ↔ r = Ok FINISHED) ∧
    (length msgs ≤ 1)%nat ∧ (msgs ≠ [] ↔ r = Ok CANCELLED) ∧
    (r = Ok FINISHED → added ≠ []) ∧
    bar_size (self st') = bar_size (self st) ∧
    color_settings (self st') = color_settings (self st) ∧
    chart_origin (self st') = chart_origin (self st) ∧
    data_type (self st') = data_type (self st).
Proof.
  intros H. apply execute_added in H as (Hbs & Hcs & Hco & Hdt & Hcases).
  destruct Hcases as [(Hobjs & Hacs & [(Hreps & Hf & Hc)|[Hreps ->]])|
    (container & bars & Hobjs & Hty & Hmesh & Hlen &
     [(Hreps & Hacs & Hf & Hc)|[(Hreps & Hacs & -> & ->)|
      (Hreps & -> & args & Hacs)]])];
    [exists [], [], []
    |exists [], [], [("ERROR", "Data are only 2D!")]
    |exists (container :: bars), [], []
    |exists [container], [], [("ERROR", "Cannot find data in this range!")]
    |exists (container :: bars), [args], []];
    rewrite ?app_nil_r; split_and!;
    try done; try (simpl; lia); try (by left);
    try (right; by eexists _, _); split; done.
Qed.

Lemma execute_only_appends_witness :
  let st := Examples.out_of_range in
  ∃ st' added msgs,
    execute SpecModel.imports (Examples.table []) st = (Ok CANCELLED, st') ∧
    objects st' = objects st ++ added ∧ (length added ≤ 1)%nat ∧
    axis_calls st' = axis_calls st ∧
    reports st' = reports st ++ msgs ∧ msgs ≠ [].
Proof.
  intros st.
  destruct (execute SpecModel.imports (Examples.table []) st) as [r st'] eqn:H.
  assert (r = Ok CANCELLED) as ->.
  { change r with (r, st').1. rewrite <-H. vm_compute. reflexivity. }
  destruct (execute_only_appends SpecModel.imports (Examples.table []) st _ st' H)
    as (added & calls & msgs & Hobjs & Hacs & Hreps & Hadded & _ & Hcalls & _ &
        Hmsgs & _).
  clear H. exists st', added, msgs. split; [reflexivity|].
  split; [exact Hobjs|]. split.
  { destruct Hadded as [->|(container & bars & -> & _ & _ & Hlen)]; simpl.
    - lia.
    - simpl in Hlen. lia. }
  split.
  { destruct calls as [|call calls]; [by rewrite app_nil_r in Hacs|].
    exfalso. assert (Ok CANCELLED = Ok FINISHED) as Heq
      by (apply Hcalls; discriminate).
    discriminate Heq. }
  split; [exact Hreps|]. by apply Hmsgs.
Defined.

(** X7.  A failure inside the loop leaves a half-built chart.  The cube of
    a row is added (line 113) before its values are computed (lines
    120-129).  So when, in a categorical chart whose value column holds
    numbers, the first row passes the bounds check and [normalize_value]
    raises on its X (the index 0 over the X range [0, n-1]), the run ends
    with that exception and leaves in the scene the container and one cube
    as [primitive_cube_add] made it: unit size, at the 3D cursor, without
    material or parent.  Nothing is reported and no axis is built. *)
Theorem normalize_failure_leaves_default_cube imp dm st row rows col e :
  data_type (self st) = Type1 →
  parsed_data dm = row :: rows →
  column 1 (parsed_data dm) = Ok col →
  (∃ shader, NodeShader imp (color_shade (color_settings (self st)))
               (color_type (color_settings (self st))) 2
               (chart_origin (self st)).2 = Ok shader) →
  (∀ s, data_type s = Type1 → in_axis_range_bounds_new imp s row = Ok true) →
  normalize_value imp (VNum 0) (VNum 0)
    (VNum (Qc_of_Z (Z.of_nat (length (parsed_data dm)) - 1))) = Raise e →
  ∃ st' container,
    execute imp dm st = (Raise e, st') ∧
    objects st' = objects st ++ [container; default_cube (cursor_location imp)] ∧
    type container = EMPTY ∧
    axis_calls st' = axis_calls st ∧ reports st' = reports st.
Proof.
  intros Ht Hdata Hcol [shader Hs] Hin Hnorm.
  rewrite execute_categorical, execute_build_unfold by done. cbv zeta.
  set (st1 := {| self := categorical_operator dm (self st); objects := objects st;
                 axis_calls := axis_calls st; reports := reports st |}).
  set (st2 := (create_container st1).2).
  assert (data_type (self st2) = Type1) as Ht2 by done.
  assert (data (self st2) = parsed_data dm) as Hd2 by done.
  assert (∃ data_min data_max,
            execute_data_range imp st2 = (Ok (Some (data_min, data_max)), st2))
    as (data_min & data_max & ->).
  { rewrite <-Hd2 in Hcol. destruct col as [|v col].
    { rewrite Hd2, Hdata in Hcol. simpl in Hcol. unfold mbind, result_bind in Hcol.
      destruct (getitem row 1) as [cell|]; [|done].
      destruct (as_number cell); [|done]. simpl in Hcol.
      by destruct (column 1 rows). }
    destruct (py_min_column _ _ _ Hcol) as (rlo & lo & Hmin & Hrlo & _).
    destruct (py_max_column _ _ _ Hcol) as (rhi & hi & Hmax & Hrhi & _).
    exists (VNum lo), (VNum hi). apply execute_data_range_categorical; [done|].
    unfold value_range_of, data_type_as_enum. rewrite Ht2. by exists rlo, rhi. }
  change (color_settings (self st2)) with (color_settings (self st)).
  change (chart_origin (self st2)) with (chart_origin (self st)).
  rewrite Hs, Hd2, Hdata. cbn [bars_pure]. unfold bar_pure.
  rewrite Hin by done. cbn [negb].
  assert (∃ e0, getitem row 0 = Ok e0) as [e0 He0].
  { rewrite Hdata in Hcol. simpl in Hcol. unfold mbind, result_bind, getitem in *.
    destruct row as [|e0 row]; [done|]. by exists e0. }
  unfold bar_values, data_type_as_enum. rewrite Ht2, He0.
  unfold mbind, mret, result_bind, result_ret.
  change (x_range (axis_settings (self st2)))
    with (0, Qc_of_Z (Z.of_nat (length (parsed_data dm)) - 1)).
  cbn [fst snd]. change (Z.of_nat 0) with 0%Z. rewrite Z2Qc_inj_0, Hnorm.
  eexists _, _. split; [reflexivity|]. simpl.
  split; [by rewrite <-(assoc_L (++))|]. done.
Qed.

Lemma normalize_failure_leaves_default_cube_witness :
  let st := Examples.scene (Examples.operator Dim2 Type1
                              (Examples.axis false (0, 1)%Z (0, 1)%Z)) in
  let one_category := Examples.table [[VStr "A"; Examples.num 3]] in
  ∃ st' container,
    execute SpecModel.imports one_category st = (Raise ZeroDivisionError, st') ∧
    objects st' = [container; default_cube (Qc_of_Z 1, Qc_of_Z 2, Qc_of_Z 3)].
Proof.
  intros st one_category.
  destruct (normalize_failure_leaves_default_cube SpecModel.imports one_category st
              [VStr "A"; Examples.num 3] [] [Qc_of_Z 3] ZeroDivisionError)
    as (st' & container & H & Hobjs & _).
  - reflexivity.
  - reflexivity.
  - reflexivity.
  - by eexists.
  - intros s Hs. by apply in_axis_range_bounds_new_categorical.
  - vm_compute. reflexivity.
  - exists st', container. split; [exact H|exact Hobjs].
Defined.

(** ** [OBJECT_OT_BarChart.execute]: a categorical row without value *)

Section MinMaxShortRow.
Context (better : Value → Value → result bool).
Context (Hbetter : ∀ x y, ∃ b : bool, better (VNum x) (VNum y) = Ok b).
Context (row : Entry) (rest : list Entry) (Hrow : (length row < 2)%nat).

Lemma getitem_short_row : getitem row 1 = Raise IndexError.
Proof. unfold getitem. rewrite lookup_ge_None_2 by lia. done. Qed.

Lemma min_max_loop_short_row before :
  ∀ col best b,
  column 1 before = Ok col →
  min_max_loop better (λ val, getitem val 1) best (VNum b) (before ++ row :: rest)
    = Raise IndexError.
Proof.
  induction before as [|r before IH]; intros col best b Hcol; simpl in *.
  - by rewrite getitem_short_row.
  - unfold mbind, result_bind in Hcol |- *.
    destruct (getitem r 1) as [[v|]|]; simpl in Hcol; [|done..].
    destruct (column 1 before) as [col'|]; [|done].
    destruct (Hbetter v b) as [c ->]. destruct c; by eapply IH.
Qed.

Lemma min_max_short_row before col :
  column 1 before = Ok col →
  min_max better (λ val, getitem val 1) (before ++ row :: rest) = Raise IndexError.
Proof.
  destruct before as [|r before]; simpl.
  - by rewrite getitem_short_row.
  - unfold mbind, result_bind.
    destruct (getitem r 1) as [[v|]|]; simpl; [|done..].
    destruct (column 1 before) as [col'|] eqn:Hcol; [|done].
    intros _. by eapply min_max_loop_short_row.
Qed.
End MinMaxShortRow.

(** X8.  A categorical table with a row that has no second cell.  When the
    rows before it hold numbers in column 1, [min] of line 98 reaches that
    row, its key [val[1]] raises, and the run ends with [IndexError]: the
    container has been created, nothing else, and nothing is reported. *)
Theorem categorical_row_without_value imp dm st before row rest col :
  data_type (self st) = Type1 →
  parsed_data dm = before ++ row :: rest →
  column 1 before = Ok col →
  (length row < 2)%nat →
  ∃ st' container,
    execute imp dm st = (Raise IndexError, st') ∧
    objects st' = objects st ++ [container] ∧ type container = EMPTY ∧
    axis_calls st' = axis_calls st ∧ reports st' = reports st.
Proof.
  intros Ht Hdata Hcol Hrow.
  rewrite execute_categorical, execute_build_unfold by done. cbv zeta.
  unfold execute_data_range, data_type_as_enum. unfold_monad.
  cbn [create_container snd self categorical_operator with_axis_settings
       with_dimensions with_data with_container_object data_type data].
  rewrite Ht, Hdata. unfold py_min.
  rewrite (min_max_short_row py_lt) with (col := col); [|by eexists|done..].
  eexists _, _. split; [reflexivity|]. done.
Qed.

Lemma categorical_row_without_value_witness :
  let st := Examples.scene (Examples.operator Dim2 Type1
                              (Examples.axis false (0, 1)%Z (0, 1)%Z)) in
  let ragged := Examples.table [[VStr "A"; Examples.num 3]; [VStr "B"];
                                [VStr "C"; Examples.num 1]] in
  ∃ st' container,
    execute SpecModel.imports ragged st = (Raise IndexError, st') ∧
    objects st' = [container] ∧ reports st' = [].
Proof.
  intros st ragged.
  destruct (categorical_row_without_value SpecModel.imports ragged st
              [[VStr "A"; Examples.num 3]] [VStr "B"]
              [[VStr "C"; Examples.num 1]] [Qc_of_Z 3])
    as (st' & container & H & Hobjs & _ & _ & Hreps).
  - reflexivity.
  - reflexivity.
  - reflexivity.
  - simpl. lia.
  - exists st', container. split_and!; assumption.
Defined.

(** ** [components.py]: marking charts *)

(** X9.  [mark_as_chart] makes charts and changes nothing else.  Every
    object it was given is a chart afterwards ([is_chart]); its type, its
    parent, its modifiers, its data and its other custom properties are as
    before, so it is a chart root exactly when it is an empty without
    parent; marking twice is marking once.  A chart root is a chart, and no
    object ([None]) is neither. *)
Theorem mark_as_chart_marks objs :
  Forall (λ o, ChartComponents.is_chart (Some o) = true)
    (ChartComponents.mark_as_chart objs) ∧
  Forall2 (λ o o',
      ChartComponents.ob_type o' = ChartComponents.ob_type o ∧
      ChartComponents.ob_parent o' = ChartComponents.ob_parent o ∧
      ChartComponents.ob_modifiers o' = ChartComponents.ob_modifiers o ∧
      Components.chart_data_info (ChartComponents.ob_chart o')
        = Components.chart_data_info (ChartComponents.ob_chart o) ∧
      (∀ p, p ∈ Components.custom_properties (ChartComponents.ob_chart o') ↔
            p = Components.DV_COMPONENT_PROPERTY ∨
            p ∈ Components.custom_properties (ChartComponents.ob_chart o)) ∧
      (ChartComponents.is_chart_root (Some o') = true ↔
       ChartComponents.ob_type o = "EMPTY" ∧ ChartComponents.ob_parent o = None))
    objs (ChartComponents.mark_as_chart objs) ∧
  ChartComponents.mark_as_chart (ChartComponents.mark_as_chart objs)
    = ChartComponents.mark_as_chart objs ∧
  (∀ obj, ChartComponents.is_chart_root obj = true →
          ChartComponents.is_chart obj = true) ∧
  ChartComponents.is_chart None = false ∧
  ChartComponents.is_chart_root None = false.
Proof.
  assert (∀ o, ChartComponents.is_chart
                 (Some (ChartComponents.with_component_property o)) = true) as Hmark.
  { intros o. unfold ChartComponents.is_chart. simpl.
    apply bool_decide_eq_true. set_solver. }
  split_and!; [| | |intros [o|]; simpl; [|done]|done..].
  - unfold ChartComponents.mark_as_chart. apply Forall_fmap, Forall_true.
    intros o. apply Hmark.
  - unfold ChartComponents.mark_as_chart. apply Forall2_fmap_r, Forall_Forall2_diag.
    apply Forall_true. intros o. split_and!; [done..| |].
    + intros p. simpl. by rewrite elem_of_union, elem_of_singleton.
    + unfold ChartComponents.is_chart_root. rewrite Hmark. simpl.
      rewrite andb_true_iff, !bool_decide_eq_true. done.
  - unfold ChartComponents.mark_as_chart. rewrite <-list_fmap_compose.
    apply list_fmap_ext. intros i o _. simpl.
    unfold ChartComponents.with_component_property. simpl. f_equal. f_equal.
    by rewrite (assoc_L (∪)), (idemp_L (∪)).
  - intros [[H _]%andb_true_iff _]%andb_true_iff. done.
Qed.

(** ** [components.py]: the names of node groups *)

Section GroupNames.
Context (unicode_Nd : N → bool).

Lemma remove_duplicate_suffix_is base name :
  Components.duplicate_suffix unicode_Nd base = None →
  Components.without_final_newline base = None →
  Components.remove_duplicate_suffix unicode_Nd name = base ↔
  name = base ∨
  ∃ ds, ds ≠ [] ∧ forallb (Components.is_digit unicode_Nd) ds = true ∧
        name = base ++ 46%N :: ds.
Proof.
  intros Hbase Hnl. rewrite remove_duplicate_suffix_suffix_removed.
  unfold Components.suffix_removed. split.
  - destruct (Components.duplicate_suffix unicode_Nd name) as [stem|] eqn:Hs.
    + intros ->. apply duplicate_suffix_Some in Hs. by right.
    + destruct (Components.without_final_newline name
                  ≫= Components.duplicate_suffix unicode_Nd) as [stem|] eqn:Hn.
      * intros <-. exfalso.
        by rewrite (proj2 (without_final_newline_Some (stem ++ [10%N]) stem) eq_refl)
          in Hnl.
      * intros ->. by left.
  - intros [->|(ds & Hne & Hds & ->)].
    + by rewrite Hbase, Hnl.
    + assert (Components.duplicate_suffix unicode_Nd (base ++ 46%N :: ds)
              = Some base) as -> by (apply duplicate_suffix_Some; by exists ds).
      done.
Qed.
End GroupNames.

(** X10.  Which node groups count.  [get_axis_on_chart] (line 55) takes a
    node group for an axis group, and [DV_DataLabelsPanel.draw] (line 304)
    for the data labels, when its name without duplicate suffix is the name
    looked for.  That is: the name itself, or the name followed by a dot
    and one or more digits (["DV_NumericAxis.001"]), and nothing else: not
    a second suffix, and not a name with a final newline. *)
Theorem node_group_names unicode_Nd base name :
  base ∈ ChartComponents.AXIS_NODE_GROUPS
         ++ [Components.str_of_string "DV_DataLabels"] →
  Components.remove_duplicate_suffix unicode_Nd name = base ↔
  name = base ∨
  ∃ ds, ds ≠ [] ∧ forallb (Components.is_digit unicode_Nd) ds = true ∧
        name = base ++ 46%N :: ds.
Proof.
  intros Hbase. apply remove_duplicate_suffix_is.
  - repeat (apply elem_of_cons in Hbase as [->|Hbase]; [reflexivity|]).
    by apply elem_of_nil in Hbase.
  - repeat (apply elem_of_cons in Hbase as [->|Hbase]; [reflexivity|]).
    by apply elem_of_nil in Hbase.
Qed.

Lemma node_group_names_witness :
  Components.remove_duplicate_suffix (λ _, false)
    (Components.str_of_string "DV_NumericAxis.001")
  = Components.str_of_string "DV_NumericAxis" ∧
  Components.remove_duplicate_suffix (λ _, false)
    (Components.str_of_string "DV_NumericAxis.001.002")
  ≠ Components.str_of_string "DV_NumericAxis".
Proof.
  split.
  - apply (node_group_names (λ _, false) (Components.str_of_string "DV_NumericAxis")).
    + right; left.
    + right. exists (Components.str_of_string "001").
      split; [discriminate|]. split; reflexivity.
  - intros Heq.
    apply (node_group_names (λ _, false) (Components.str_of_string "DV_NumericAxis"))
      in Heq; [|right; left].
    destruct Heq as [Heq|(ds & _ & Hds & Heq)].
    + vm_compute in Heq. discriminate Heq.
    + vm_compute in Heq. injection Heq as <-. vm_compute in Hds. discriminate Hds.
Defined.

(** ** [components.py]: the axes of a chart *)

Section Dict.
Import ChartComponents.
Context {V : Type}.
Implicit Types (d : dict V) (k : Components.str) (v : V).

Lemma dict_get_set_eq d k v : dict_get (dict_set k v d) k = Some v.
Proof.
  induction d as [|[k' v'] d IH]; simpl.
  - by rewrite decide_True.
  - destruct (decide (k' = k)) as [->|Hne]; simpl.
    + by rewrite decide_True.
    + by rewrite decide_False.
Qed.

Lemma dict_get_set_ne d k k' v :
  k ≠ k' → dict_get (dict_set k v d) k' = dict_get d k'.
Proof.
  intros Hne. induction d as [|[k1 v1] d IH]; simpl.
  - by rewrite decide_False.
  - destruct (decide (k1 = k)) as [->|Hne1]; simpl.
    + by rewrite !decide_False.
    + by rewrite IH.
Qed.

(** Writing an existing key keeps the keys, in their order. *)
Lemma dict_set_keys d k v : k ∈ d.*1 → (dict_set k v d).*1 = d.*1.
Proof.
  induction d as [|[k1 v1] d IH]; cbn [dict_set].
  - by intros ?%elem_of_nil.
  - destruct (decide (k1 = k)) as [->|Hne]; [done|].
    rewrite !fmap_cons. intros [?|Hin]%elem_of_cons; [done|]. by rewrite IH.
Qed.
End Dict.

Section Rsplit.
Import ChartComponents.

Lemma rsplit_last_None sep s : rsplit_last sep s = None ↔ sep ∉ s.
Proof.
  induction s as [|c s IH]; simpl.
  - split; [intros _ ?%elem_of_nil; done|done].
  - destruct (rsplit_last sep s) as [[a b]|].
    + split; [done|]. intros Hnot. exfalso.
      assert (sep ∉ s) as Hs by (intros ?; apply Hnot; by right).
      by apply IH in Hs.
    + destruct (N.eqb_spec c sep) as [->|Hne].
      * split; [done|]. intros Hnot. exfalso. apply Hnot. by left.
      * split; [|done]. intros _ [?|Hin]%elem_of_cons; [done|].
        by apply (proj1 IH).
Qed.

Lemma rsplit_last_app sep a b :
  sep ∉ b → rsplit_last sep (a ++ sep :: b) = Some (a, b).
Proof.
  intros Hb. induction a as [|c a IH]; simpl.
  - rewrite (proj2 (rsplit_last_None sep b)) by done. by rewrite N.eqb_refl.
  - by rewrite IH.
Qed.

Lemma rsplit_last_Some sep s a b :
  rsplit_last sep s = Some (a, b) ↔ s = a ++ sep :: b ∧ sep ∉ b.
Proof.
  split; [|intros [-> Hb]; by apply rsplit_last_app].
  revert a. induction s as [|c s IH]; intros a; simpl; [done|].
  destruct (rsplit_last sep s) as [[a' b']|] eqn:Hs.
  - intros [= <- <-]. destruct (IH a' eq_refl) as [-> Hb]. done.
  - destruct (N.eqb_spec c sep) as [->|Hne]; [|done].
    intros [= <- <-]. split; [done|]. by apply rsplit_last_None.
Qed.
End Rsplit.

Section AxisLookup.
Import ChartComponents.
Context (unicode_Nd : N → bool).

Local Abbreviation step := (get_axis_on_chart_step unicode_Nd).
Local Abbreviation loop := (get_axis_on_chart_loop unicode_Nd).
Local Abbreviation stands := (stands_for unicode_Nd).
Local Abbreviation axes := [axis_X; axis_Y; axis_Z].

Lemma axis_no_space a : a ∈ axes → 32%N ∉ a.
Proof.
  intros Ha. repeat (apply elem_of_cons in Ha as [->|Ha]);
    [by intros [=]%list_elem_of_singleton..|by apply elem_of_nil in Ha].
Qed.

(** The axis is read after the last space of the name. *)
Lemma stands_for_rsplit m a :
  a ∈ axes → stands m a →
  ∃ prefix, rsplit_last 32 (md_name m) = Some (prefix, a).
Proof.
  intros Ha (_ & _ & prefix & ->). exists prefix.
  by apply rsplit_last_app, axis_no_space.
Qed.

Lemma stands_for_unique m a a' :
  a ∈ axes → a' ∈ axes → stands m a → stands m a' → a = a'.
Proof.
  intros Ha Ha' [p H]%stands_for_rsplit [p' H']%stands_for_rsplit; [|done..].
  congruence.
Qed.

(** One turn of the loop: it raises for a nodes modifier without node
    group, records a modifier that stands for an axis, and skips the
    others. *)
Lemma get_axis_on_chart_step_cases ret m :
  (without_node_group m ∧ step ret m = Raise AttributeError) ∨
  (¬ without_node_group m ∧
   ((∃ a, a ∈ axes ∧ stands m a ∧ step ret m = Ok (dict_set a (Some m) ret)) ∨
    ((∀ a, a ∈ axes → ¬ stands m a) ∧ step ret m = Ok ret))).
Proof.
  unfold get_axis_on_chart_step, without_node_group, stands_for, node_group_name.
  case_bool_decide as Ht.
  - destruct (md_node_group m) as [g|] eqn:Hg; simpl; [|by left].
    right. split; [by intros [_ ?]|].
    case_bool_decide as Hgrp.
    + unfold rsplit1.
      destruct (rsplit_last 32 (md_name m)) as [[p b]|] eqn:Hsplit; simpl.
      * case_bool_decide as Hb.
        -- left. exists b. apply rsplit_last_Some in Hsplit as [Hname _].
           split_and!; [done..|by exists g|by exists p|done].
        -- right. split; [|done]. intros a Ha (_ & _ & prefix & Hname).
           assert (rsplit_last 32 (md_name m) = Some (prefix, a)) as Hsplit'
             by (rewrite Hname; by apply rsplit_last_app, axis_no_space).
           congruence.
      * right. split; [|done]. intros a Ha (_ & _ & prefix & Hname).
        apply rsplit_last_None in Hsplit. apply Hsplit. rewrite Hname.
        apply elem_of_app. right. by left.
    + right. split; [|done]. intros a Ha (_ & (g' & Hg' & Hin) & _). congruence.
  - right. split; [by intros [? _]|]. right. split; [|done]. by intros a _ [? _].
Qed.

Lemma get_axis_on_chart_loop_raises modifiers :
  ∀ ret, Exists without_node_group modifiers →
  loop ret modifiers = Raise AttributeError.
Proof.
  induction modifiers as [|m modifiers IH]; intros ret Hex;
    [by apply Exists_nil in Hex|].
  cbn [get_axis_on_chart_loop]. unfold mbind, result_bind.
  destruct (get_axis_on_chart_step_cases ret m)
    as [[_ ->]|[Hm [(a & _ & _ & ->)| [_ ->]]]]; [done| |];
    apply Exists_cons in Hex as [?|Hex]; try done; by apply IH.
Qed.

Lemma get_axis_on_chart_loop_returns modifiers :
  ∀ ret, Forall (λ m, ¬ without_node_group m) modifiers →
  ∃ ret', loop ret modifiers = Ok ret'.
Proof.
  induction modifiers as [|m modifiers IH]; intros ret Hall; [by eexists|].
  apply Forall_cons in Hall as [Hm Hall].
  cbn [get_axis_on_chart_loop]. unfold mbind, result_bind.
  destruct (get_axis_on_chart_step_cases ret m)
    as [[? _]|[_ [(a & _ & _ & ->)| [_ ->]]]]; [done|by apply IH..].
Qed.

(** The loop keeps the keys and, for each axis, either leaves the entry
    alone (no modifier stands for the axis) or ends with the last modifier
    that stands for it. *)
Lemma get_axis_on_chart_loop_spec modifiers :
  ∀ ret ret',
  axes ⊆ ret.*1 →
  loop ret modifiers = Ok ret' →
  ret'.*1 = ret.*1 ∧
  ∀ a, a ∈ axes →
    (dict_get ret' a = dict_get ret a ∧
     last_for unicode_Nd modifiers a None) ∨
    (∃ m, dict_get ret' a = Some (Some m) ∧
          last_for unicode_Nd modifiers a (Some m)).
Proof.
  induction modifiers as [|m modifiers IH]; intros ret ret' Hkeys.
  - intros [= <-]. split; [done|]. intros a _. left. by split; [|constructor].
  - cbn [get_axis_on_chart_loop]. unfold mbind, result_bind.
    destruct (get_axis_on_chart_step_cases ret m)
      as [[_ ->]|[_ [(a0 & Ha0 & Hst & ->)| [Hno ->]]]]; [done| |].
    + intros Hloop. apply IH in Hloop as [Hk Hspec];
        [|by rewrite dict_set_keys by (by apply Hkeys)].
      rewrite dict_set_keys in Hk by (by apply Hkeys). split; [done|].
      intros a Ha. destruct (Hspec a Ha) as [[Hget Hnone]|(m' & Hget & Hlast)].
      * destruct (decide (a0 = a)) as [->|Hne].
        -- right. exists m. rewrite Hget, dict_get_set_eq. split; [done|].
           by exists [], modifiers.
        -- left. rewrite Hget, dict_get_set_ne by done. split; [done|].
           constructor; [|done]. intros Hst'. apply Hne.
           by apply (stands_for_unique m).
      * right. exists m'. split; [done|].
        destruct Hlast as (before & after & -> & Hm' & Hafter).
        by exists (m :: before), after.
    + intros Hloop. apply IH in Hloop as [Hk Hspec]; [|done]. split; [done|].
      intros a Ha. destruct (Hspec a Ha) as [[Hget Hnone]|(m' & Hget & Hlast)].
      * left. split; [done|]. constructor; [by apply Hno|done].
      * right. exists m'. split; [done|].
        destruct Hlast as (before & after & -> & Hm' & Hafter).
        by exists (m :: before), after.
Qed.

(** The result of [get_axis_on_chart], item by item. *)
Lemma get_axis_on_chart_items obj ret :
  get_axis_on_chart unicode_Nd obj = Ok ret →
  ∃ fx fy fz,
    ret = [(axis_X, fx); (axis_Y, fy); (axis_Z, fz)] ∧
    last_for unicode_Nd (ob_modifiers obj) axis_X fx ∧
    last_for unicode_Nd (ob_modifiers obj) axis_Y fy ∧
    last_for unicode_Nd (ob_modifiers obj) axis_Z fz.
Proof.
  unfold get_axis_on_chart. intros H.
  apply get_axis_on_chart_loop_spec in H as [Hk Hspec]; [|done].
  destruct ret as [|[kx fx] [|[ky fy] [|[kz fz] [|? ?]]]]; try done.
  injection Hk as -> -> ->. exists fx, fy, fz. split; [done|].
  split_and!.
  - destruct (Hspec axis_X) as [[Hget ?]|(m & Hget & ?)]; [by left| |];
      injection Hget as ->; done.
  - destruct (Hspec axis_Y) as [[Hget ?]|(m & Hget & ?)]; [by right; left| |];
      injection Hget as ->; done.
  - destruct (Hspec axis_Z) as [[Hget ?]|(m & Hget & ?)]; [by do 2 right; left| |];
      injection Hget as ->; done.
Qed.

Lemma get_axis_on_chart_loop_app modifiers modifiers' :
  ∀ ret,
  loop ret (modifiers ++ modifiers') = loop ret modifiers ≫= λ ret', loop ret' modifiers'.
Proof.
  induction modifiers as [|m modifiers IH]; intros ret; [done|].
  rewrite <-app_comm_cons. cbn [get_axis_on_chart_loop].
  unfold mbind, result_bind. destruct (step ret m); [|done]. apply IH.
Qed.
End AxisLookup.

(** X11.  [get_axis_on_chart] finds, for each axis, the last modifier that
    stands for it.  The result always holds the three keys ["X"], ["Y"],
    ["Z"], in this order.  The value of an axis is the last modifier of the
    object that is a nodes modifier, has an axis node group (or a numbered
    copy) and a name ending in a space and the axis; it is [None] exactly
    when the object has no such modifier.  Modifiers of another type, with
    another node group, or whose name ends otherwise (no space, or
    something else after the last space, such as ["X.001"]) never show. *)
Theorem get_axis_on_chart_finds_last unicode_Nd obj ret :
  ChartComponents.get_axis_on_chart unicode_Nd obj = Ok ret →
  ∃ fx fy fz,
    ret = [(ChartComponents.axis_X, fx); (ChartComponents.axis_Y, fy);
           (ChartComponents.axis_Z, fz)] ∧
    ChartComponents.last_for unicode_Nd (ChartComponents.ob_modifiers obj)
      ChartComponents.axis_X fx ∧
    ChartComponents.last_for unicode_Nd (ChartComponents.ob_modifiers obj)
      ChartComponents.axis_Y fy ∧
    ChartComponents.last_for unicode_Nd (ChartComponents.ob_modifiers obj)
      ChartComponents.axis_Z fz.
Proof. apply get_axis_on_chart_items. Qed.

(** X12.  [get_axis_on_chart] and modifiers without node group.  The call
    raises [AttributeError] (from [mod.node_group.name]) as soon as the
    object holds a nodes modifier without node group, whatever its other
    modifiers; it returns for every other object. *)
Theorem get_axis_on_chart_raises unicode_Nd obj :
  (Exists ChartComponents.without_node_group (ChartComponents.ob_modifiers obj) →
   ChartComponents.get_axis_on_chart unicode_Nd obj
     = Raise ChartComponents.AttributeError) ∧
  (Forall (λ m, ¬ ChartComponents.without_node_group m)
     (ChartComponents.ob_modifiers obj) →
   ∃ ret, ChartComponents.get_axis_on_chart unicode_Nd obj = Ok ret).
Proof.
  split.
  - apply get_axis_on_chart_loop_raises.
  - apply get_axis_on_chart_loop_returns.
Qed.

(** X13.  The name [DV_AddAxis.execute] gives is the name
    [get_axis_on_chart] reads.  A nodes modifier with an axis node group,
    named [f"{axis_type} Axis"] followed by a space and the axis (lines
    130 and 140-150) and standing last among the modifiers (where
    [modifiers.new] puts it), is what [get_axis_on_chart] returns for that
    axis, whatever the axis type and whatever was found before; the other
    two axes are as they were without it. *)
Theorem added_axis_is_found unicode_Nd obj obj' m group axis_type axis ret :
  axis ∈ [ChartComponents.axis_X; ChartComponents.axis_Y; ChartComponents.axis_Z] →
  ChartComponents.md_type m = "NODES" →
  ChartComponents.md_node_group m = Some group →
  Components.remove_duplicate_suffix unicode_Nd group
    ∈ ChartComponents.AXIS_NODE_GROUPS →
  ChartComponents.md_name m = ChartComponents.axis_modifier_name axis_type axis →
  ChartComponents.ob_modifiers obj' = ChartComponents.ob_modifiers obj ++ [m] →
  ChartComponents.get_axis_on_chart unicode_Nd obj = Ok ret →
  ChartComponents.get_axis_on_chart unicode_Nd obj'
    = Ok (ChartComponents.dict_set axis (Some m) ret) ∧
  ChartComponents.dict_get (ChartComponents.dict_set axis (Some m) ret) axis
    = Some (Some m) ∧
  ∀ axis', axis' ≠ axis →
    ChartComponents.dict_get (ChartComponents.dict_set axis (Some m) ret) axis'
    = ChartComponents.dict_get ret axis'.
Proof.
  intros Ha Ht Hg Hgrp Hname Hmods Hret.
  split; [|split; [apply dict_get_set_eq|intros a' Hne; by apply dict_get_set_ne]].
  unfold ChartComponents.get_axis_on_chart in *.
  rewrite Hmods, get_axis_on_chart_loop_app, Hret. simpl.
  unfold mbind, result_bind.
  assert (ChartComponents.stands_for unicode_Nd m axis) as Hst.
  { split_and!; [done|by exists group|].
    exists (axis_type ++ Components.str_of_string " Axis"). by rewrite Hname. }
  destruct (get_axis_on_chart_step_cases unicode_Nd ret m)
    as [[[_ Hnone] _]|[_ [(a0 & Ha0 & Hst0 & ->)| [Hno _]]]].
  - by rewrite Hg in Hnone.
  - by rewrite (stands_for_unique unicode_Nd m axis a0).
  - by destruct (Hno axis Ha).
Qed.

Lemma get_axis_on_chart_finds_last_witness :
  let obj := ChartExamples.chart [ChartExamples.numeric_x;
                                  ChartExamples.categorical_x;
                                  ChartExamples.numeric_z_copy] in
  ChartComponents.get_axis_on_chart ChartExamples.ascii_digits obj
    = Ok [(ChartComponents.axis_X, Some ChartExamples.categorical_x);
          (ChartComponents.axis_Y, None); (ChartComponents.axis_Z, None)] ∧
  ChartComponents.last_for ChartExamples.ascii_digits
    (ChartComponents.ob_modifiers obj) ChartComponents.axis_X
    (Some ChartExamples.categorical_x) ∧
  ChartComponents.last_for ChartExamples.ascii_digits
    (ChartComponents.ob_modifiers obj) ChartComponents.axis_Z None.
Proof.
  intros obj.
  assert (ChartComponents.get_axis_on_chart ChartExamples.ascii_digits obj
          = Ok [(ChartComponents.axis_X, Some ChartExamples.categorical_x);
                (ChartComponents.axis_Y, None); (ChartComponents.axis_Z, None)])
    as H by (vm_compute; reflexivity).
  split; [exact H|].
  destruct (get_axis_on_chart_finds_last _ _ _ H)
    as (fx & fy & fz & [= <- <- <-] & Hx & Hy & Hz).
  split; assumption.
Defined.

Lemma added_axis_is_found_witness :
  let obj := ChartExamples.chart [ChartExamples.numeric_x] in
  let obj' := ChartExamples.chart [ChartExamples.numeric_x; ChartExamples.numeric_z] in
  ChartComponents.get_axis_on_chart ChartExamples.ascii_digits obj'
    = Ok [(ChartComponents.axis_X, Some ChartExamples.numeric_x);
          (ChartComponents.axis_Y, None);
          (ChartComponents.axis_Z, Some ChartExamples.numeric_z)].
Proof.
  intros obj obj'.
  apply (added_axis_is_found ChartExamples.ascii_digits obj obj'
           ChartExamples.numeric_z (Components.str_of_string "DV_NumericAxis")
           ChartComponents.AxisType.NUMERIC ChartComponents.axis_Z
           [(ChartComponents.axis_X, Some ChartExamples.numeric_x);
            (ChartComponents.axis_Y, None); (ChartComponents.axis_Z, None)]).
  - do 2 right. left.
  - reflexivity.
  - reflexivity.
  - right. left.
  - reflexivity.
  - reflexivity.
  - vm_compute. reflexivity.
Defined.

(** ** [components.py]: the panels *)

Section PanelsDraw.
Import ChartComponents.
Context (unicode_Nd : N → bool).
Context {DataTypeValue : Type}.
Context (get_chart_data_type : BObject → result DataTypeValue).
Context (is_3d is_categorical : DataTypeValue → bool).
Context (DV_RemoveModifier_bl_idname : string).

(** The axes a chart can have: X and Z always, Y in 3D; X is categorical
    for categorical data, every other axis numeric. *)
Lemma get_compatible_axis_items obj data_type :
  get_chart_data_type obj = Ok data_type →
  get_compatible_axis get_chart_data_type is_3d is_categorical obj =
  Ok [(axis_X, Some (if is_categorical data_type then AxisType.CATEGORICAL
                     else AxisType.NUMERIC));
      (axis_Y, if is_3d data_type then Some AxisType.NUMERIC else None);
      (axis_Z, Some AxisType.NUMERIC)].
Proof.
  intros Hdt. unfold get_compatible_axis. rewrite Hdt. simpl.
  by destruct (is_3d data_type), (is_categorical data_type).
Qed.

(** The boxes drawn for the data labels when no modifier is broken. *)
Lemma draw_data_labels_returns modifiers :
  Forall (λ m, ¬ without_node_group m) modifiers →
  draw_data_labels unicode_Nd DV_RemoveModifier_bl_idname modifiers =
  (Ok (), modifier_box DV_RemoveModifier_bl_idname
          <$> filter (λ m, is_data_labels unicode_Nd m = Ok true) modifiers).
Proof.
  induction 1 as [|m modifiers Hm _ IH]; [done|].
  cbn [draw_data_labels]. rewrite IH.
  destruct (is_data_labels unicode_Nd m) as [[]|e] eqn:Hdl.
  - by rewrite filter_cons_True by done.
  - by rewrite filter_cons_False by (by rewrite Hdl).
  - exfalso. apply Hm. revert Hdl. unfold is_data_labels, node_group_name.
    case_bool_decide; [|done]. by destruct (md_node_group m) eqn:Hg.
Qed.

Lemma is_data_labels_raises m :
  without_node_group m → is_data_labels unicode_Nd m = Raise AttributeError.
Proof.
  intros [Ht Hg]. unfold is_data_labels, node_group_name.
  by rewrite bool_decide_eq_true_2, Hg.
Qed.

(** The filter is lazy: the boxes of the modifiers before a broken one are
    drawn before the exception. *)
Lemma draw_data_labels_raises before m after :
  Forall (λ m, ¬ without_node_group m) before →
  without_node_group m →
  draw_data_labels unicode_Nd DV_RemoveModifier_bl_idname (before ++ m :: after) =
  (Raise AttributeError,
   modifier_box DV_RemoveModifier_bl_idname
   <$> filter (λ m, is_data_labels unicode_Nd m = Ok true) before).
Proof.
  intros Hbefore Hm. induction Hbefore as [|m' before Hm' _ IH].
  - simpl. by rewrite is_data_labels_raises.
  - rewrite <-app_comm_cons. cbn [draw_data_labels]. rewrite IH.
    destruct (is_data_labels unicode_Nd m') as [[]|e] eqn:Hdl.
    + by rewrite filter_cons_True by done.
    + by rewrite filter_cons_False by (by rewrite Hdl).
    + exfalso. apply Hm'. revert Hdl. unfold is_data_labels, node_group_name.
      case_bool_decide; [|done]. by destruct (md_node_group m') eqn:Hg.
Qed.
End PanelsDraw.

(** X14.  What the axis panel shows for a chart.  When the data type of
    the chart is known and no nodes modifier lacks its node group,
    [DV_AxisPanel.draw] returns, having drawn for X, Y and Z, in this
    order: the box of the last modifier that stands for the axis, if there
    is one; otherwise the button that adds the axis, when the chart can
    have it (always for X and Z, for Y only with 3D data), carrying the
    axis, its type (categorical only for X with categorical data) and
    [pass_invoke = True]; and nothing otherwise.  So an axis is never both
    shown and offered. *)
Theorem axis_panel_draws_slots unicode_Nd {DataTypeValue : Type}
    (get_chart_data_type : ChartComponents.BObject → result DataTypeValue)
    (is_3d is_categorical : DataTypeValue → bool)
    (DV_RemoveModifier_bl_idname : string) obj data_type :
  ChartComponents.is_chart (Some obj) = true →
  get_chart_data_type obj = Ok data_type →
  Forall (λ m, ¬ ChartComponents.without_node_group m)
    (ChartComponents.ob_modifiers obj) →
  ∃ fx fy fz,
    ChartComponents.last_for unicode_Nd (ChartComponents.ob_modifiers obj)
      ChartComponents.axis_X fx ∧
    ChartComponents.last_for unicode_Nd (ChartComponents.ob_modifiers obj)
      ChartComponents.axis_Y fy ∧
    ChartComponents.last_for unicode_Nd (ChartComponents.ob_modifiers obj)
      ChartComponents.axis_Z fz ∧
    ChartComponents.DV_AxisPanel_draw unicode_Nd get_chart_data_type is_3d
      is_categorical DV_RemoveModifier_bl_idname (Some obj) =
    (Ok (),
     ChartComponents.axis_slot DV_RemoveModifier_bl_idname
       ChartComponents.axis_X fx
       (Some (if is_categorical data_type
              then ChartComponents.AxisType.CATEGORICAL
              else ChartComponents.AxisType.NUMERIC))
     ++ ChartComponents.axis_slot DV_RemoveModifier_bl_idname
          ChartComponents.axis_Y fy
          (if is_3d data_type then Some ChartComponents.AxisType.NUMERIC
           else None)
     ++ ChartComponents.axis_slot DV_RemoveModifier_bl_idname
          ChartComponents.axis_Z fz (Some ChartComponents.AxisType.NUMERIC)).
Proof.
  intros Hchart Hdt Hmods.
  destruct (get_axis_on_chart_loop_returns unicode_Nd
              (ChartComponents.ob_modifiers obj)
              [(ChartComponents.axis_X, None); (ChartComponents.axis_Y, None);
               (ChartComponents.axis_Z, None)] Hmods) as [ret Hret].
  change (ChartComponents.get_axis_on_chart unicode_Nd obj = Ok ret) in Hret.
  pose proof (get_axis_on_chart_items _ _ _ Hret)
    as (fx & fy & fz & -> & Hx & Hy & Hz).
  exists fx, fy, fz. split_and!; [done..|].
  unfold ChartComponents.DV_AxisPanel_draw.
  rewrite Hchart, (get_compatible_axis_items _ _ _ _ _ Hdt), Hret. simpl negb.
  cbv iota.
  by destruct (is_3d data_type), (is_categorical data_type), fx, fy, fz.
Qed.

Lemma axis_panel_draws_slots_witness :
  let obj := ChartExamples.chart [ChartExamples.numeric_x;
                                  ChartExamples.numeric_z_copy] in
  ∃ fx fy fz,
    ChartComponents.last_for ChartExamples.ascii_digits
      (ChartComponents.ob_modifiers obj) ChartComponents.axis_X fx ∧
    ChartComponents.DV_AxisPanel_draw ChartExamples.ascii_digits
      (λ _, Ok true) (λ is_3d, is_3d) (λ _, false) "data_vis.remove_modifier"
      (Some obj) =
    (Ok (),
     ChartComponents.axis_slot "data_vis.remove_modifier"
       ChartComponents.axis_X fx (Some ChartComponents.AxisType.NUMERIC)
     ++ ChartComponents.axis_slot "data_vis.remove_modifier"
          ChartComponents.axis_Y fy (Some ChartComponents.AxisType.NUMERIC)
     ++ ChartComponents.axis_slot "data_vis.remove_modifier"
          ChartComponents.axis_Z fz (Some ChartComponents.AxisType.NUMERIC)).
Proof.
  intros obj.
  destruct (axis_panel_draws_slots ChartExamples.ascii_digits
              (λ _, Ok true) (λ is_3d : bool, is_3d) (λ _, false)
              "data_vis.remove_modifier" obj true)
    as (fx & fy & fz & Hx & Hy & Hz & Hdraw).
  - reflexivity.
  - reflexivity.
  - repeat apply Forall_cons_2; [| |apply Forall_nil_2];
      intros [_ Hgroup]; discriminate Hgroup.
  - exists fx, fy, fz. split; [exact Hx|exact Hdraw].
Defined.

(** X15.  What the data-labels panel shows for a chart.
    [DV_DataLabelsPanel.draw] draws one box for each data-labels modifier
    of the chart, in the order of the modifiers, and nothing for the
    others; a data-labels modifier is a nodes modifier whose node group is
    ["DV_DataLabels"] or a numbered copy of it.  The modifiers are filtered
    lazily (lines 302-306): when a nodes modifier has no node group, the
    boxes of the data-labels modifiers before it have been drawn when
    [AttributeError] is raised. *)
Theorem data_labels_panel_draws unicode_Nd DV_RemoveModifier_bl_idname obj :
  ChartComponents.is_chart (Some obj) = true →
  (Forall (λ m, ¬ ChartComponents.without_node_group m)
     (ChartComponents.ob_modifiers obj) →
   ChartComponents.DV_DataLabelsPanel_draw unicode_Nd DV_RemoveModifier_bl_idname
     (Some obj) =
   (Ok (),
    ChartComponents.modifier_box DV_RemoveModifier_bl_idname
    <$> filter (λ m, ChartComponents.is_data_labels unicode_Nd m = Ok true)
          (ChartComponents.ob_modifiers obj))) ∧
  (∀ before m after,
     ChartComponents.ob_modifiers obj = before ++ m :: after →
     Forall (λ m, ¬ ChartComponents.without_node_group m) before →
     ChartComponents.without_node_group m →
     ChartComponents.DV_DataLabelsPanel_draw unicode_Nd DV_RemoveModifier_bl_idname
       (Some obj) =
     (Raise ChartComponents.AttributeError,
      ChartComponents.modifier_box DV_RemoveModifier_bl_idname
      <$> filter (λ m, ChartComponents.is_data_labels unicode_Nd m = Ok true)
            before)) ∧
  (∀ m, ChartComponents.is_data_labels unicode_Nd m = Ok true ↔
     ChartComponents.md_type m = "NODES" ∧
     ∃ group, ChartComponents.md_node_group m = Some group ∧
       (group = Components.str_of_string "DV_DataLabels" ∨
        ∃ ds, ds ≠ [] ∧ forallb (Components.is_digit unicode_Nd) ds = true ∧
              group = Components.str_of_string "DV_DataLabels" ++ 46%N :: ds)).
Proof.
  intros Hchart. unfold ChartComponents.DV_DataLabelsPanel_draw.
  rewrite Hchart. simpl negb. cbv iota. split_and!.
  - apply draw_data_labels_returns.
  - intros before m after ->. apply draw_data_labels_raises.
  - intros m. unfold ChartComponents.is_data_labels, ChartComponents.node_group_name.
    case_bool_decide as Ht; [|split; [done|by intros [? _]]].
    destruct (ChartComponents.md_node_group m) as [group|]; simpl;
      [|split; [done|by intros (_ & ? & ? & _)]].
    split.
    + intros [= Hgroup]. apply bool_decide_eq_true in Hgroup.
      apply remove_duplicate_suffix_is in Hgroup; [|reflexivity..].
      split; [done|]. by exists group.
    + intros (_ & group' & [= <-] & Hgroup). f_equal. apply bool_decide_eq_true.
      by apply remove_duplicate_suffix_is.
Qed.

Lemma data_labels_panel_draws_witness :
  let obj := ChartExamples.chart [ChartExamples.data_labels;
                                  ChartExamples.numeric_x;
                                  ChartExamples.data_labels_copy] in
  let broken := ChartExamples.chart [ChartExamples.data_labels;
                                     ChartExamples.broken_modifier "Axis";
                                     ChartExamples.data_labels_copy] in
  ChartComponents.DV_DataLabelsPanel_draw ChartExamples.ascii_digits
    "data_vis.remove_modifier" (Some obj) =
  (Ok (),
   [ChartComponents.modifier_box "data_vis.remove_modifier" ChartExamples.data_labels;
    ChartComponents.modifier_box "data_vis.remove_modifier"
      ChartExamples.data_labels_copy]) ∧
  ChartComponents.DV_DataLabelsPanel_draw ChartExamples.ascii_digits
    "data_vis.remove_modifier" (Some broken) =
  (Raise ChartComponents.AttributeError,
   [ChartComponents.modifier_box "data_vis.remove_modifier"
      ChartExamples.data_labels]).
Proof.
  intros obj broken. split.
  - destruct (data_labels_panel_draws ChartExamples.ascii_digits
                "data_vis.remove_modifier" obj eq_refl) as (Hdraw & _ & _).
    rewrite Hdraw; [reflexivity|].
    repeat apply Forall_cons_2; [| | |apply Forall_nil_2];
      intros [_ Hgroup]; discriminate Hgroup.
  - destruct (data_labels_panel_draws ChartExamples.ascii_digits
                "data_vis.remove_modifier" broken eq_refl) as (_ & Hdraw & _).
    rewrite (Hdraw [ChartExamples.data_labels] (ChartExamples.broken_modifier "Axis")
               [ChartExamples.data_labels_copy]); [reflexivity|reflexivity| |].
    + apply Forall_cons_2; [|apply Forall_nil_2].
      intros [_ Hgroup]; discriminate Hgroup.
    + split; reflexivity.
Defined.

(** ** [geonodes/__init__.py]: registering the classes *)

Section Registry.
Context {Registry : Type}.
Context (register_class unregister_class : string → Registry → result Registry).
Context (undo : ∀ cls registry registry',
           register_class cls registry = Ok registry' →
           unregister_class cls registry' = Ok registry).

Lemma for_each_app (call : string → Registry → result Registry) classes classes' :
  ∀ registry,
  Geonodes.for_each call (classes ++ classes') registry =
  match Geonodes.for_each call classes registry with
  | (Ok _, registry') => Geonodes.for_each call classes' registry'
  | (Raise e, registry') => (Raise e, registry')
  end.
Proof.
  induction classes as [|cls classes IH]; intros registry; [done|].
  rewrite <-app_comm_cons. cbn [Geonodes.for_each].
  destruct (call cls registry); [apply IH|done].
Qed.

(** Unregistering in the reverse order undoes the registrations. *)
Lemma for_each_reverse classes :
  ∀ registry registry',
  Geonodes.for_each register_class classes registry = (Ok (), registry') →
  Geonodes.for_each unregister_class (reverse classes) registry' = (Ok (), registry).
Proof.
  induction classes as [|cls classes IH]; intros registry registry'.
  - by intros [= <-].
  - cbn [Geonodes.for_each].
    destruct (register_class cls registry) as [registry1|e] eqn:Hreg; [|done].
    intros Hrest. rewrite reverse_cons, for_each_app, (IH _ _ Hrest).
    cbn [Geonodes.for_each]. by rewrite (undo _ _ _ Hreg).
Qed.
End Registry.

(** X17.  [unregister] undoes [register].  On a host where unregistering
    the class registered last restores the registry as it was before that
    registration (a stack, say), [unregister], which goes through [CLASSES]
    backwards, succeeds after a successful [register] and leaves the
    registry as it was before [register]. *)
Theorem unregister_undoes_register {Registry : Type}
    (register_class unregister_class : string → Registry → result Registry)
    registry registry' :
  (∀ cls registry registry',
     register_class cls registry = Ok registry' →
     unregister_class cls registry' = Ok registry) →
  Geonodes.register register_class registry = (Ok (), registry') →
  Geonodes.unregister unregister_class registry' = (Ok (), registry).
Proof. intros undo. by apply for_each_reverse. Qed.

Lemma unregister_undoes_register_witness :
  Geonodes.register Geonodes.stack_register_class ["Other"]
    = (Ok (), reverse Geonodes.CLASSES ++ ["Other"]) ∧
  Geonodes.unregister Geonodes.stack_unregister_class
    (reverse Geonodes.CLASSES ++ ["Other"]) = (Ok (), ["Other"]).
Proof.
  split; [reflexivity|].
  apply (unregister_undoes_register Geonodes.stack_register_class
           Geonodes.stack_unregister_class).
  - intros cls registry registry' [= <-]. simpl. by rewrite decide_True.
  - reflexivity.
Defined.

(** ** [DV_AddAxis]: the dialog *)

(** X18.  The dialog of [DV_AddAxis] lists the axes the chart has.  When
    [invoke] is called with [pass_invoke] off on an object none of whose
    nodes modifiers lacks its node group, it opens the dialog with the
    properties of the operator unchanged, and [draw] then shows the two
    properties, the heading and, for X, Y and Z in this order, one line
    ["[axis] name"] for the last modifier that stands for the axis, and no
    line for an axis the chart does not have.  With [pass_invoke] on,
    [invoke] hands over to [execute] without looking at the object. *)
Theorem add_axis_dialog_lists_axes unicode_Nd self obj :
  ChartComponents.op_pass_invoke self = false →
  Forall (λ m, ¬ ChartComponents.without_node_group m)
    (ChartComponents.ob_modifiers obj) →
  ∃ self' fx fy fz,
    ChartComponents.DV_AddAxis_invoke unicode_Nd self (Some obj)
      = ChartComponents.OpensDialog self' ∧
    ChartComponents.op_axis self' = ChartComponents.op_axis self ∧
    ChartComponents.op_axis_type self' = ChartComponents.op_axis_type self ∧
    ChartComponents.op_pass_invoke self' = false ∧
    ChartComponents.last_for unicode_Nd (ChartComponents.ob_modifiers obj)
      ChartComponents.axis_X fx ∧
    ChartComponents.last_for unicode_Nd (ChartComponents.ob_modifiers obj)
      ChartComponents.axis_Y fy ∧
    ChartComponents.last_for unicode_Nd (ChartComponents.ob_modifiers obj)
      ChartComponents.axis_Z fz ∧
    ChartComponents.DV_AddAxis_draw self' =
    (Ok (),
     [ChartComponents.OperatorProp "axis";
      ChartComponents.OperatorProp "axis_type";
      ChartComponents.Column true
        (ChartComponents.Row
           [ChartComponents.Label (Components.str_of_string "Existing Axis")]
         :: ChartComponents.existing_axis_label ChartComponents.axis_X fx
         ++ ChartComponents.existing_axis_label ChartComponents.axis_Y fy
         ++ ChartComponents.existing_axis_label ChartComponents.axis_Z fz)]) ∧
    ∀ active_object,
      ChartComponents.DV_AddAxis_invoke unicode_Nd
        {| ChartComponents.op_axis := ChartComponents.op_axis self;
           ChartComponents.op_axis_type := ChartComponents.op_axis_type self;
           ChartComponents.op_pass_invoke := true;
           ChartComponents.op_existing_axis :=
             ChartComponents.op_existing_axis self |} active_object
      = ChartComponents.CallsExecute.
Proof.
  intros Hpass Hmods.
  destruct (get_axis_on_chart_loop_returns unicode_Nd
              (ChartComponents.ob_modifiers obj)
              [(ChartComponents.axis_X, None); (ChartComponents.axis_Y, None);
               (ChartComponents.axis_Z, None)] Hmods) as [ret Hret].
  change (ChartComponents.get_axis_on_chart unicode_Nd obj = Ok ret) in Hret.
  pose proof (get_axis_on_chart_items _ _ _ Hret)
    as (fx & fy & fz & -> & Hx & Hy & Hz).
  unfold ChartComponents.DV_AddAxis_invoke. rewrite Hpass, Hret.
  eexists _, fx, fy, fz. split; [reflexivity|]. simpl.
  split_and!; [done..| |done].
  unfold ChartComponents.DV_AddAxis_draw. simpl. by destruct fx, fy, fz.
Qed.

Lemma add_axis_dialog_lists_axes_witness :
  let self := {| ChartComponents.op_axis := ChartComponents.axis_Y;
                 ChartComponents.op_axis_type := ChartComponents.AxisType.NUMERIC;
                 ChartComponents.op_pass_invoke := false;
                 ChartComponents.op_existing_axis := None |} in
  let obj := ChartExamples.chart [ChartExamples.numeric_x; ChartExamples.numeric_z] in
  ∃ self',
    ChartComponents.DV_AddAxis_invoke ChartExamples.ascii_digits self (Some obj)
      = ChartComponents.OpensDialog self' ∧
    ChartComponents.DV_AddAxis_draw self' =
    (Ok (),
     [ChartComponents.OperatorProp "axis";
      ChartComponents.OperatorProp "axis_type";
      ChartComponents.Column true
        [ChartComponents.Row
           [ChartComponents.Label (Components.str_of_string "Existing Axis")];
         ChartComponents.Label (Components.str_of_string "[X] Numeric Axis X");
         ChartComponents.Label (Components.str_of_string "[Z] Numeric Axis Z")]]).
Proof.
  intros self obj.
  destruct (add_axis_dialog_lists_axes ChartExamples.ascii_digits self obj)
    as (self' & fx & fy & fz & Hinvoke & _ & _ & _ & _ & _ & _ & Hdraw & _).
  - reflexivity.
  - repeat apply Forall_cons_2; [| |apply Forall_nil_2];
      intros [_ Hgroup]; discriminate Hgroup.
  - exists self'. split; [exact Hinvoke|].
    assert (ChartComponents.OpensDialog self'
            = ChartComponents.DV_AddAxis_invoke ChartExamples.ascii_digits self
                (Some obj)) as Hself by (symmetry; exact Hinvoke).
    vm_compute in Hself. injection Hself as ->. reflexivity.
Defined.
